(** * Schema lifecycle and metadata search of the data-architecture managers

    A shallow embedding of [core/schema_manager.py] (validator, breaking-change
    detector, migration generator, content hash, create/update on the file
    store) and of the search path of [metadata/metadata_manager.py], followed
    by the properties proved about them.

    Conventions of the embedding.
    - Python [str] is [string]; text is taken to be ASCII, so that
      [str.lower]/[str.upper] act on the letters A-Z/a-z only.
    - A Python [dict] whose iteration order is observable is an association
      list in insertion order ([PyDict]); a [set] used for membership only is
      a [gset]; a directory of files is a [gmap] from file name to content.
    - An exception is [None]; the [try]/[except] of the public methods turns
      it into the [False] they return.
    - The clock ([datetime.utcnow]) and [hashlib.sha256] are inputs.
    - Reading and writing a file of one of the four directories succeeds.
      The key of a file in its directory is its name as text, which is the
      file of the code for a name that is one path component ([plain_name]);
      the typed records stand for the objects the code builds from a stored
      document whose values have the annotated types ([typed_document]).
      The theorems that depend on either have it as a hypothesis. *)

From Stdlib Require Import String Ascii ZArith List Lia Bool.
From stdpp Require Import gmap strings list fin_maps sorting pretty.

Set Warnings "-register-all,-clear-no-such-hyp".

Local Open Scope string_scope.
Local Open Scope list_scope.
Local Open Scope stdpp_scope.

(* ===================================================================== *)
(** ** Python strings *)
(* ===================================================================== *)

Module PyStr.

(** [c.lower()] and [c.upper()] on one ASCII character. *)
Definition lower_char (c : ascii) : ascii :=
  let n := nat_of_ascii c in
  if (65 <=? n)%nat && (n <=? 90)%nat then ascii_of_nat (n + 32) else c.

Definition upper_char (c : ascii) : ascii :=
  let n := nat_of_ascii c in
  if (97 <=? n)%nat && (n <=? 122)%nat then ascii_of_nat (n - 32) else c.

Fixpoint map_chars (f : ascii -> ascii) (s : string) : string :=
  match s with
  | EmptyString => EmptyString
  | String c s' => String (f c) (map_chars f s')
  end.

(** [s.lower()], [s.upper()]. *)
Definition lower : string -> string := map_chars lower_char.
Definition upper : string -> string := map_chars upper_char.

(** [not s] on a string: true on the empty string only. *)
Definition is_empty (s : string) : bool :=
  match s with EmptyString => true | String _ _ => false end.

(** [sub in s]: [sub] occurs in [s] as a contiguous substring. *)
Fixpoint contains (sub s : string) : bool :=
  String.prefix sub s ||
  match s with
  | EmptyString => false
  | String _ s' => contains sub s'
  end.

(** [s.split(sep)] for a non-empty [sep]: scan from the left, cut at every
    occurrence of [sep] that does not overlap the previous one.  [skip]
    counts the characters of a separator still to be dropped and [cur] is
    the piece being read. *)
Fixpoint split_go (sep : string) (skip : nat) (cur : string) (s : string)
  : list string :=
  match s with
  | EmptyString => [cur]
  | String c s' =>
      match skip with
      | S k => split_go sep k cur s'
      | O =>
          if String.prefix sep s
          then cur :: split_go sep (String.length sep - 1) EmptyString s'
          else split_go sep 0 (cur +:+ String c EmptyString) s'
      end
  end.

Definition split (sep s : string) : list string := split_go sep 0 EmptyString s.

(** [sep.join(parts)]. *)
Fixpoint join (sep : string) (parts : list string) : string :=
  match parts with
  | [] => EmptyString
  | [p] => p
  | p :: ps => p +:+ sep +:+ join sep ps
  end.

End PyStr.

(* ===================================================================== *)
(** ** Insertion-ordered dictionaries *)
(* ===================================================================== *)

Module PyDict.
Section dict.
Context {V : Type}.

(** [d[k] = v]: an existing key keeps its place and takes the new value, a
    new key goes to the end. *)
Fixpoint set (k : string) (v : V) (d : list (string * V)) : list (string * V) :=
  match d with
  | [] => [(k, v)]
  | (k', v') :: d' =>
      if String.eqb k' k then (k', v) :: d' else (k', v') :: set k v d'
  end.

(** [d.get(k)]. *)
Fixpoint get (k : string) (d : list (string * V)) : option V :=
  match d with
  | [] => None
  | (k', v') :: d' => if String.eqb k' k then Some v' else get k d'
  end.

(** [k in d]. *)
Definition mem (k : string) (d : list (string * V)) : bool :=
  match get k d with Some _ => true | None => false end.

(** [d.pop(k, None)], the value dropped. *)
Fixpoint pop (k : string) (d : list (string * V)) : list (string * V) :=
  match d with
  | [] => []
  | (k', v') :: d' => if String.eqb k' k then d' else (k', v') :: pop k d'
  end.

Definition keys (d : list (string * V)) : list string := d.*1.

(** [{key(x): x for x in xs}]. *)
Definition comprehension (key : V -> string) (xs : list V) : list (string * V) :=
  foldl (fun d x => set (key x) x d) [] xs.

(** The last element of [xs] whose key is [k]: what the comprehension
    keeps under [k]. *)
Definition last_with (key : V -> string) (k : string) (xs : list V) : option V :=
  find (fun x => String.eqb (key x) k) (rev xs).
End dict.
End PyDict.

(* ===================================================================== *)
(** ** JSON values *)
(* ===================================================================== *)

(** What [json.load] returns and what a field annotated [Any] holds.  Numbers
    are integers. *)
Inductive json : Type :=
| JNull
| JBool (b : bool)
| JNum (n : Z)
| JStr (s : string)
| JList (l : list json)
| JObj (kvs : list (string * json)).

Definition json_of_option_str (o : option string) : json :=
  match o with Some s => JStr s | None => JNull end.

Definition json_of_strings (l : list string) : json := JList (map JStr l).

(* ===================================================================== *)
(** ** Data model of [schema_manager.py] *)
(* ===================================================================== *)

Inductive SchemaType := RELATIONAL | DOCUMENT | KEY_VALUE | GRAPH | TIME_SERIES | COLUMNAR.

Inductive DataClassification := PUBLIC | INTERNAL | CONFIDENTIAL | RESTRICTED | PII | PHI.

Global Instance SchemaType_eq_dec : EqDecision SchemaType.
Proof. solve_decision. Defined.

Global Instance DataClassification_eq_dec : EqDecision DataClassification.
Proof. solve_decision. Defined.

(** [member.value] *)
Definition SchemaType_value (t : SchemaType) : string :=
  match t with
  | RELATIONAL => "relational" | DOCUMENT => "document" | KEY_VALUE => "key_value"
  | GRAPH => "graph" | TIME_SERIES => "time_series" | COLUMNAR => "columnar"
  end.

Definition DataClassification_value (c : DataClassification) : string :=
  match c with
  | PUBLIC => "public" | INTERNAL => "internal" | CONFIDENTIAL => "confidential"
  | RESTRICTED => "restricted" | PII => "pii" | PHI => "phi"
  end.

(** [str(member)], which is what [json.dump(..., default=str)] writes for an
    enum member. *)
Definition SchemaType_str (t : SchemaType) : string :=
  match t with
  | RELATIONAL => "SchemaType.RELATIONAL" | DOCUMENT => "SchemaType.DOCUMENT"
  | KEY_VALUE => "SchemaType.KEY_VALUE" | GRAPH => "SchemaType.GRAPH"
  | TIME_SERIES => "SchemaType.TIME_SERIES" | COLUMNAR => "SchemaType.COLUMNAR"
  end.

Definition DataClassification_str (c : DataClassification) : string :=
  match c with
  | PUBLIC => "DataClassification.PUBLIC" | INTERNAL => "DataClassification.INTERNAL"
  | CONFIDENTIAL => "DataClassification.CONFIDENTIAL"
  | RESTRICTED => "DataClassification.RESTRICTED"
  | PII => "DataClassification.PII" | PHI => "DataClassification.PHI"
  end.

(** [SchemaType(text)], [DataClassification(text)]: look a member up by its
    value; [None] is the [ValueError]. *)
Definition SchemaType_of_value (s : string) : option SchemaType :=
  find (fun t => String.eqb (SchemaType_value t) s)
       [RELATIONAL; DOCUMENT; KEY_VALUE; GRAPH; TIME_SERIES; COLUMNAR].

Definition DataClassification_of_value (s : string) : option DataClassification :=
  find (fun c => String.eqb (DataClassification_value c) s)
       [PUBLIC; INTERNAL; CONFIDENTIAL; RESTRICTED; PII; PHI].

(** The [classification] attribute of a field.  A field built by the caller
    holds an enum member; [get_schema] rebuilds a field by passing the stored
    keys as keyword arguments, which leaves the stored JSON value in place. *)
Inductive FieldClassification :=
| Member (c : DataClassification)
| Stored (j : json).

Module SchemaField.
Record t := mk {
  name : string;
  data_type : string;
  nullable : bool;
  primary_key : bool;
  foreign_key : option string;
  unique : bool;
  indexed : bool;
  default_value : json;
  description : option string;
  classification : FieldClassification;
  validation_rules : list (string * json);
  tags : list string
}.

(** [SchemaField(name, data_type)] with every default. *)
Definition default (n dt : string) : t :=
  mk n dt true false None false false JNull None (Member INTERNAL) [] [].

Definition with_nullable (b : bool) (f : t) : t :=
  mk (name f) (data_type f) b (primary_key f) (foreign_key f) (unique f)
     (indexed f) (default_value f) (description f) (classification f)
     (validation_rules f) (tags f).

Definition with_primary_key (b : bool) (f : t) : t :=
  mk (name f) (data_type f) (nullable f) b (foreign_key f) (unique f)
     (indexed f) (default_value f) (description f) (classification f)
     (validation_rules f) (tags f).
End SchemaField.

Module SchemaIndex.
Record t := mk {
  name : string;
  fields : list string;
  unique : bool;
  type : string;
  partial_condition : option string;
  description : option string
}.
End SchemaIndex.

Module SchemaRelationship.
Record t := mk {
  name : string;
  source_schema : string;
  target_schema : string;
  source_field : string;
  target_field : string;
  relationship_type : string;
  cascade_delete : bool;
  cascade_update : bool
}.
End SchemaRelationship.

Module SchemaVersion.
(** Dates are kept as their text. *)
Record t := mk {
  version : string;
  created_at : string;
  created_by : string;
  description : string;
  changes : list string;
  breaking_changes : bool;
  rollback_version : option string;
  approved_by : option string;
  deployment_date : option string
}.

(** [version_info.breaking_changes = b] *)
Definition set_breaking_changes (b : bool) (v : t) : t :=
  mk (version v) (created_at v) (created_by v) (description v) (changes v) b
     (rollback_version v) (approved_by v) (deployment_date v).
End SchemaVersion.

Module Schema.
(** The state after [__post_init__]: the four optional collections are
    never [None]. *)
Record t := mk {
  name : string;
  version : string;
  schema_type : SchemaType;
  description : string;
  fields : list SchemaField.t;
  indexes : list SchemaIndex.t;
  relationships : list SchemaRelationship.t;
  business_owner : option string;
  technical_owner : option string;
  classification : DataClassification;
  retention_policy : option string;
  backup_policy : option string;
  tags : list string;
  metadata : list (string * json)
}.

Definition with_metadata (m : list (string * json)) (s : t) : t :=
  mk (name s) (version s) (schema_type s) (description s) (fields s)
     (indexes s) (relationships s) (business_owner s) (technical_owner s)
     (classification s) (retention_policy s) (backup_policy s) (tags s) m.

Definition with_fields (fs : list SchemaField.t) (s : t) : t :=
  mk (name s) (version s) (schema_type s) (description s) fs
     (indexes s) (relationships s) (business_owner s) (technical_owner s)
     (classification s) (retention_policy s) (backup_policy s) (tags s)
     (metadata s).
End Schema.

(** [not o] on an [Optional[str]]: [None] and the empty string are falsy. *)
Definition falsy (o : option string) : bool :=
  match o with None => true | Some s => PyStr.is_empty s end.

(* ===================================================================== *)
(** ** Schema validator *)
(* ===================================================================== *)

(** The [valid_types] table of [_is_valid_data_type]. *)
Definition valid_types : list (SchemaType * list string) :=
  [ (RELATIONAL,
      ["INTEGER"; "BIGINT"; "SMALLINT"; "DECIMAL"; "NUMERIC"; "REAL"; "DOUBLE";
       "VARCHAR"; "CHAR"; "TEXT"; "BOOLEAN"; "DATE"; "TIME"; "TIMESTAMP";
       "UUID"; "JSON"; "JSONB"; "ARRAY"]);
    (DOCUMENT,
      ["STRING"; "NUMBER"; "BOOLEAN"; "DATE"; "OBJECT"; "ARRAY"; "NULL"]);
    (KEY_VALUE,
      ["STRING"; "HASH"; "LIST"; "SET"; "SORTED_SET"; "BITMAP"; "HYPERLOGLOG"]);
    (TIME_SERIES,
      ["TIMESTAMP"; "DOUBLE"; "INTEGER"; "STRING"; "BOOLEAN"; "TAG"]);
    (COLUMNAR,
      ["INT32"; "INT64"; "FLOAT"; "DOUBLE"; "STRING"; "BOOLEAN"; "DATE"; "TIMESTAMP"]) ].

(** [valid_types.get(schema_type, [])] *)
Definition valid_types_get (schema_type : SchemaType) : list string :=
  match find (fun kv => bool_decide (fst kv = schema_type)) valid_types with
  | Some kv => snd kv
  | None => []
  end.

(** [x in l] on a list of strings. *)
Definition str_in (x : string) (l : list string) : bool :=
  existsb (String.eqb x) l.

Definition _is_valid_data_type (data_type : string) (schema_type : SchemaType) : bool :=
  str_in (PyStr.upper data_type) (valid_types_get schema_type).

Record ValidationResult := {
  valid : bool;
  errors : list string;
  warnings : list string
}.

(** The variables the field loop of [validate_schema] updates. *)
Record FieldLoop := {
  fl_errors : list string;
  fl_field_names : gset string;
  fl_primary_keys : list string
}.

Definition missing_name_error : string := "All fields must have a name".

(** One iteration of [for field in schema.fields]. *)
Definition field_step (schema_type : SchemaType) (st : FieldLoop)
    (field : SchemaField.t) : FieldLoop :=
  let n := SchemaField.name field in
  if PyStr.is_empty n then
    (* errors.append(...); continue *)
    {| fl_errors := fl_errors st ++ [missing_name_error];
       fl_field_names := fl_field_names st;
       fl_primary_keys := fl_primary_keys st |}
  else
    let errors1 :=
      if bool_decide (n ∈ fl_field_names st)
      then fl_errors st ++ ["Duplicate field name: " +:+ n]
      else fl_errors st in
    let field_names1 := fl_field_names st ∪ {[ n ]} in
    let primary_keys1 :=
      if SchemaField.primary_key field
      then fl_primary_keys st ++ [n]
      else fl_primary_keys st in
    let errors2 :=
      if negb (_is_valid_data_type (SchemaField.data_type field) schema_type)
      then errors1 ++ ["Invalid data type " +:+ SchemaField.data_type field
                         +:+ " for field " +:+ n]
      else errors1 in
    {| fl_errors := errors2;
       fl_field_names := field_names1;
       fl_primary_keys := primary_keys1 |}.

Definition field_loop (schema_type : SchemaType) (st : FieldLoop)
    (fields : list SchemaField.t) : FieldLoop :=
  foldl (field_step schema_type) st fields.

(** [for index in schema.indexes: for field_name in index.fields: ...] *)
Definition index_step (field_names : gset string) (errs : list string)
    (index : SchemaIndex.t) : list string :=
  foldl (fun errs field_name =>
           if bool_decide (field_name ∈ field_names) then errs
           else errs ++ ["Index " +:+ SchemaIndex.name index
                           +:+ " references non-existent field: " +:+ field_name])
        errs (SchemaIndex.fields index).

(** [for relationship in schema.relationships: ...] *)
Definition relationship_step (field_names : gset string) (errs : list string)
    (r : SchemaRelationship.t) : list string :=
  if bool_decide (SchemaRelationship.source_field r ∈ field_names) then errs
  else errs ++ ["Relationship " +:+ SchemaRelationship.name r
                  +:+ " references non-existent source field: "
                  +:+ SchemaRelationship.source_field r].

(** [f.classification in [DataClassification.PII, DataClassification.PHI]] *)
Definition is_sensitive (c : FieldClassification) : bool :=
  match c with
  | Member PII | Member PHI => true
  | _ => false
  end.

Definition is_nil {A} (l : list A) : bool :=
  match l with [] => true | _ => false end.

Definition validate_schema (schema : Schema.t) : ValidationResult :=
  let errors0 : list string := [] in
  let warnings0 : list string := [] in
  (* Basic validation *)
  let errors1 :=
    if PyStr.is_empty (Schema.name schema)
    then errors0 ++ ["Schema name is required"] else errors0 in
  let errors2 :=
    if is_nil (Schema.fields schema)
    then errors1 ++ ["Schema must have at least one field"] else errors1 in
  (* Field validation *)
  let fl := field_loop (Schema.schema_type schema)
              {| fl_errors := errors2; fl_field_names := ∅; fl_primary_keys := [] |}
              (Schema.fields schema) in
  let field_names := fl_field_names fl in
  let primary_keys := fl_primary_keys fl in
  (* Primary key validation *)
  let warnings1 :=
    if bool_decide (Schema.schema_type schema = RELATIONAL) && is_nil primary_keys
    then warnings0 ++ ["Relational schema should have a primary key"]
    else warnings0 in
  let warnings2 :=
    if (1 <? length primary_keys)%nat
    then warnings1 ++ ["Multiple primary keys detected, consider composite key design"]
    else warnings1 in
  (* Index validation *)
  let errors3 := foldl (index_step field_names) (fl_errors fl) (Schema.indexes schema) in
  (* Relationship validation *)
  let errors4 := foldl (relationship_step field_names) errors3
                       (Schema.relationships schema) in
  (* Governance validation *)
  let classified_fields :=
    filter (fun f => is_sensitive (SchemaField.classification f) = true)
           (Schema.fields schema) in
  let warnings3 :=
    if negb (is_nil classified_fields) && falsy (Schema.retention_policy schema)
    then warnings2 ++ ["Schema contains sensitive data but no retention policy defined"]
    else warnings2 in
  {| valid := (length errors4 =? 0)%nat;
     errors := errors4;
     warnings := warnings3 |}.

(* ===================================================================== *)
(** ** Breaking-change detector *)
(* ===================================================================== *)

Definition removed_msg (n : string) : string := "Removed field: " +:+ n.

Definition type_changed_msg (n old_type new_type : string) : string :=
  "Changed data type for field " +:+ n +:+ ": " +:+ old_type +:+ " -> " +:+ new_type.

Definition non_nullable_msg (n : string) : string :=
  "Field " +:+ n +:+ " changed from nullable to non-nullable".

Definition primary_key_msg (n : string) : string :=
  "Field " +:+ n +:+ " changed to primary key".

(** First loop: [for field_name in old_fields: if field_name not in new_fields]. *)
Definition removed_step (new_fields : list (string * SchemaField.t))
    (bc : list string) (field_name : string) : list string :=
  if negb (PyDict.mem field_name new_fields)
  then bc ++ [removed_msg field_name] else bc.

(** Second loop.  Iterating the keys of [old_fields] and reading
    [old_fields[field_name]] is iterating its items. *)
Definition changed_step (new_fields : list (string * SchemaField.t))
    (bc : list string) (item : string * SchemaField.t) : list string :=
  let '(field_name, old_field) := item in
  match PyDict.get field_name new_fields with
  | None => bc
  | Some new_field =>
      let bc1 :=
        if negb (String.eqb (SchemaField.data_type old_field)
                            (SchemaField.data_type new_field))
        then bc ++ [type_changed_msg field_name (SchemaField.data_type old_field)
                                     (SchemaField.data_type new_field)]
        else bc in
      let bc2 :=
        if SchemaField.nullable old_field && negb (SchemaField.nullable new_field)
        then bc1 ++ [non_nullable_msg field_name] else bc1 in
      if negb (SchemaField.primary_key old_field) && SchemaField.primary_key new_field
      then bc2 ++ [primary_key_msg field_name] else bc2
  end.

Definition _detect_breaking_changes (old_schema new_schema : Schema.t) : list string :=
  let old_fields := PyDict.comprehension SchemaField.name (Schema.fields old_schema) in
  let new_fields := PyDict.comprehension SchemaField.name (Schema.fields new_schema) in
  let breaking_changes := foldl (removed_step new_fields) [] (PyDict.keys old_fields) in
  foldl (changed_step new_fields) breaking_changes old_fields.

(* ===================================================================== *)
(** ** Migration script generator *)
(* ===================================================================== *)

(** Timestamps are kept as their text. *)
Definition datetime := string.

Definition drop_column_sql (schema_name field_name : string) : string :=
  "ALTER TABLE " +:+ schema_name +:+ " DROP COLUMN " +:+ field_name +:+ ";".

Definition alter_type_sql (schema_name field_name new_type : string) : string :=
  "ALTER TABLE " +:+ schema_name +:+ " ALTER COLUMN " +:+ field_name
    +:+ " TYPE " +:+ new_type +:+ ";".

(** The lines one change adds to [migration_sql].  [parts !! i] is
    [parts[i]]; [None] is its [IndexError]. *)
Definition change_sql (schema_name change : string) : option (list string) :=
  let comment := "-- " +:+ change in
  if PyStr.contains "Removed field" change then
    field_name ← PyStr.split ": " change !! 1%nat;
    Some [comment; drop_column_sql schema_name field_name]
  else if PyStr.contains "Changed data type" change then
    field_name ← PyStr.split " " change !! 5%nat;
    new_type ← PyStr.split " -> " change !! 1%nat;
    Some [comment; alter_type_sql schema_name field_name new_type]
  else Some [comment].

(** [for change in breaking_changes: ...], stopping at the first exception. *)
Definition migration_step (schema_name : string) (acc : option (list string))
    (change : string) : option (list string) :=
  migration_sql ← acc;
  added ← change_sql schema_name change;
  Some (migration_sql ++ added).

Definition migration_file (schema_name version : string) : string :=
  schema_name +:+ "_" +:+ version +:+ "_migration.sql".

(** The lines of the script; [now] is the clock reading of the header. *)
Definition migration_lines (schema_name : string) (old_schema new_schema : Schema.t)
    (version : SchemaVersion.t) (now : datetime) : option (list string) :=
  let header :=
    [ "-- Migration for " +:+ schema_name +:+ " to version "
        +:+ SchemaVersion.version version;
      "-- Generated at: " +:+ now;
      "-- Description: " +:+ SchemaVersion.description version;
      "" ] in
  let breaking_changes := _detect_breaking_changes old_schema new_schema in
  body ← foldl (migration_step schema_name) (Some header) breaking_changes;
  Some (body ++ [""; "-- End of migration"]).

Definition newline : string := String (ascii_of_nat 10) EmptyString.

(** [_generate_migration]: the migrations directory after the call, or
    [None] when the body raised before the file was written. *)
Definition _generate_migration (migrations : gmap string string)
    (schema_name : string) (old_schema new_schema : Schema.t)
    (version : SchemaVersion.t) (now : datetime) : option (gmap string string) :=
  migration_sql ← migration_lines schema_name old_schema new_schema version now;
  Some (<[ migration_file schema_name (SchemaVersion.version version)
           := PyStr.join newline migration_sql ]> migrations).

(* ===================================================================== *)
(** ** [asdict] and the content hash *)
(* ===================================================================== *)

(** [asdict(x)] as the JSON value that [json.dumps(..., default=str)] makes of
    it: the keys in the order of the dataclass, an enum member as
    [str(member)]. *)
Definition json_of_FieldClassification (c : FieldClassification) : json :=
  match c with
  | Member m => JStr (DataClassification_str m)
  | Stored j => j
  end.

Definition asdict_SchemaField (f : SchemaField.t) : json :=
  JObj [ ("name", JStr (SchemaField.name f));
         ("data_type", JStr (SchemaField.data_type f));
         ("nullable", JBool (SchemaField.nullable f));
         ("primary_key", JBool (SchemaField.primary_key f));
         ("foreign_key", json_of_option_str (SchemaField.foreign_key f));
         ("unique", JBool (SchemaField.unique f));
         ("indexed", JBool (SchemaField.indexed f));
         ("default_value", SchemaField.default_value f);
         ("description", json_of_option_str (SchemaField.description f));
         ("classification", json_of_FieldClassification (SchemaField.classification f));
         ("validation_rules", JObj (SchemaField.validation_rules f));
         ("tags", json_of_strings (SchemaField.tags f)) ].

Definition asdict_SchemaIndex (i : SchemaIndex.t) : json :=
  JObj [ ("name", JStr (SchemaIndex.name i));
         ("fields", json_of_strings (SchemaIndex.fields i));
         ("unique", JBool (SchemaIndex.unique i));
         ("type", JStr (SchemaIndex.type i));
         ("partial_condition", json_of_option_str (SchemaIndex.partial_condition i));
         ("description", json_of_option_str (SchemaIndex.description i)) ].

Definition asdict_SchemaRelationship (r : SchemaRelationship.t) : json :=
  JObj [ ("name", JStr (SchemaRelationship.name r));
         ("source_schema", JStr (SchemaRelationship.source_schema r));
         ("target_schema", JStr (SchemaRelationship.target_schema r));
         ("source_field", JStr (SchemaRelationship.source_field r));
         ("target_field", JStr (SchemaRelationship.target_field r));
         ("relationship_type", JStr (SchemaRelationship.relationship_type r));
         ("cascade_delete", JBool (SchemaRelationship.cascade_delete r));
         ("cascade_update", JBool (SchemaRelationship.cascade_update r)) ].

(** The items of [asdict(schema)]. *)
Definition asdict_Schema (s : Schema.t) : list (string * json) :=
  [ ("name", JStr (Schema.name s));
    ("version", JStr (Schema.version s));
    ("schema_type", JStr (SchemaType_str (Schema.schema_type s)));
    ("description", JStr (Schema.description s));
    ("fields", JList (map asdict_SchemaField (Schema.fields s)));
    ("indexes", JList (map asdict_SchemaIndex (Schema.indexes s)));
    ("relationships", JList (map asdict_SchemaRelationship (Schema.relationships s)));
    ("business_owner", json_of_option_str (Schema.business_owner s));
    ("technical_owner", json_of_option_str (Schema.technical_owner s));
    ("classification", JStr (DataClassification_str (Schema.classification s)));
    ("retention_policy", json_of_option_str (Schema.retention_policy s));
    ("backup_policy", json_of_option_str (Schema.backup_policy s));
    ("tags", json_of_strings (Schema.tags s));
    ("metadata", JObj (Schema.metadata s)) ].

(** The dictionary that is serialised and hashed:
    [schema_dict = asdict(schema); schema_dict.pop("metadata", None)]. *)
Definition hashed_dict (schema : Schema.t) : list (string * json) :=
  PyDict.pop "metadata" (asdict_Schema schema).

(* ===================================================================== *)
(** ** The schema store and its operations *)
(* ===================================================================== *)

(** The four directories under [base_path], each a map from file name to
    content.  A schema document is the JSON value read back by [json.load]; a
    versions file is the list of its records. *)
Record Store := {
  definitions : gmap string json;
  versions : gmap string (list SchemaVersion.t);
  migrations : gmap string string;
  governance : gmap string json
}.

Definition definition_file (schema_name : string) : string := schema_name +:+ ".json".
Definition version_file (schema_name : string) : string := schema_name +:+ "_versions.json".
Definition governance_file (schema_name : string) : string :=
  schema_name +:+ "_governance.json".

Definition schema_exists (st : Store) (schema_name : string) : bool :=
  bool_decide (is_Some (definitions st !! definition_file schema_name)).

(** *** Reading a schema document back *)

Definition as_str (j : json) : option string :=
  match j with JStr s => Some s | _ => None end.

Definition as_bool (j : json) : option bool :=
  match j with JBool b => Some b | _ => None end.

(** An [Optional[str]]: [null] or a string. *)
Definition as_opt_str (j : json) : option (option string) :=
  match j with JNull => Some None | JStr s => Some (Some s) | _ => None end.

Definition as_strings (j : json) : option (list string) :=
  match j with JList l => mapM as_str l | _ => None end.

Definition as_obj (j : json) : option (list (string * json)) :=
  match j with JObj kvs => Some kvs | _ => None end.

Definition as_list (j : json) : option (list json) :=
  match j with JList l => Some l | _ => None end.

(** A keyword argument with a default: the default when the key is absent,
    the decoded value when it is present. *)
Definition kwarg {A} (k : string) (dec : json -> option A) (default : A)
    (kvs : list (string * json)) : option A :=
  match PyDict.get k kvs with
  | None => Some default
  | Some j => dec j
  end.

(** A required keyword argument, or [d[k]]. *)
Definition required {A} (k : string) (dec : json -> option A)
    (kvs : list (string * json)) : option A :=
  j ← PyDict.get k kvs; dec j.

(** Every key is the name of a dataclass attribute (an unexpected keyword is
    a [TypeError]). *)
Definition only_keys (allowed : list string) (kvs : list (string * json)) : bool :=
  forallb (fun k => str_in k allowed) (PyDict.keys kvs).

(** [d[k]] where [None] ([null]) is replaced by [dflt] in [__post_init__]. *)
Definition null_to {A} (dec : json -> option A) (dflt : A) (j : json) : option A :=
  match j with JNull => Some dflt | _ => dec j end.

(** The keyword-argument construction of a [SchemaField] from a stored field.
    A stored value that is not of the annotated type makes the document
    unreadable here ([None]); the classification is kept as stored. *)
Definition load_SchemaField (j : json) : option SchemaField.t :=
  kvs ← as_obj j;
  if only_keys ["name"; "data_type"; "nullable"; "primary_key"; "foreign_key";
                "unique"; "indexed"; "default_value"; "description";
                "classification"; "validation_rules"; "tags"] kvs
  then
    name ← required "name" as_str kvs;
    data_type ← required "data_type" as_str kvs;
    nullable ← kwarg "nullable" as_bool true kvs;
    primary_key ← kwarg "primary_key" as_bool false kvs;
    foreign_key ← kwarg "foreign_key" as_opt_str None kvs;
    unique ← kwarg "unique" as_bool false kvs;
    indexed ← kwarg "indexed" as_bool false kvs;
    default_value ← kwarg "default_value" Some JNull kvs;
    description ← kwarg "description" as_opt_str None kvs;
    classification ← kwarg "classification" (fun j => Some (Stored j))
                      (Member INTERNAL) kvs;
    validation_rules ← kwarg "validation_rules" (null_to as_obj []) [] kvs;
    tags ← kwarg "tags" (null_to as_strings []) [] kvs;
    Some (SchemaField.mk name data_type nullable primary_key foreign_key unique
            indexed default_value description classification validation_rules tags)
  else None.

Definition load_SchemaIndex (j : json) : option SchemaIndex.t :=
  kvs ← as_obj j;
  if only_keys ["name"; "fields"; "unique"; "type"; "partial_condition";
                "description"] kvs
  then
    name ← required "name" as_str kvs;
    fields ← required "fields" as_strings kvs;
    unique ← kwarg "unique" as_bool false kvs;
    type ← kwarg "type" as_str "btree" kvs;
    partial_condition ← kwarg "partial_condition" as_opt_str None kvs;
    description ← kwarg "description" as_opt_str None kvs;
    Some (SchemaIndex.mk name fields unique type partial_condition description)
  else None.

Definition load_SchemaRelationship (j : json) : option SchemaRelationship.t :=
  kvs ← as_obj j;
  if only_keys ["name"; "source_schema"; "target_schema"; "source_field";
                "target_field"; "relationship_type"; "cascade_delete";
                "cascade_update"] kvs
  then
    name ← required "name" as_str kvs;
    source_schema ← required "source_schema" as_str kvs;
    target_schema ← required "target_schema" as_str kvs;
    source_field ← required "source_field" as_str kvs;
    target_field ← required "target_field" as_str kvs;
    relationship_type ← required "relationship_type" as_str kvs;
    cascade_delete ← kwarg "cascade_delete" as_bool false kvs;
    cascade_update ← kwarg "cascade_update" as_bool false kvs;
    Some (SchemaRelationship.mk name source_schema target_schema source_field
            target_field relationship_type cascade_delete cascade_update)
  else None.

(** The body of [get_schema] on the value read from the file. *)
Definition load_Schema (schema_data : json) : option Schema.t :=
  kvs ← as_obj schema_data;
  fields ← kwarg "fields" as_list [] kvs ≫= mapM load_SchemaField;
  indexes ← kwarg "indexes" as_list [] kvs ≫= mapM load_SchemaIndex;
  relationships ← kwarg "relationships" as_list [] kvs ≫= mapM load_SchemaRelationship;
  name ← required "name" as_str kvs;
  version ← required "version" as_str kvs;
  schema_type ← required "schema_type" as_str kvs ≫= SchemaType_of_value;
  description ← required "description" as_str kvs;
  business_owner ← kwarg "business_owner" as_opt_str None kvs;
  technical_owner ← kwarg "technical_owner" as_opt_str None kvs;
  classification ← kwarg "classification" as_str "internal" kvs
                     ≫= DataClassification_of_value;
  retention_policy ← kwarg "retention_policy" as_opt_str None kvs;
  backup_policy ← kwarg "backup_policy" as_opt_str None kvs;
  tags ← kwarg "tags" (null_to as_strings []) [] kvs;
  metadata ← kwarg "metadata" (null_to as_obj []) [] kvs;
  Some (Schema.mk name version schema_type description fields indexes relationships
          business_owner technical_owner classification retention_policy
          backup_policy tags metadata).

(** [get_schema]: [None] when the file is absent or reading it raised. *)
Definition get_schema (st : Store) (schema_name : string) : option Schema.t :=
  schema_data ← definitions st !! definition_file schema_name;
  load_Schema schema_data.

(** [_save_version]: append the record to the schema's versions file. *)
Definition _save_version (vs : gmap string (list SchemaVersion.t))
    (schema_name : string) (version : SchemaVersion.t)
    : gmap string (list SchemaVersion.t) :=
  let existing := default [] (vs !! version_file schema_name) in
  <[ version_file schema_name := existing ++ [version] ]> vs.

(** The record [_create_governance_record] writes. *)
Definition governance_record (schema : Schema.t) (now : datetime) : json :=
  let sensitive_fields :=
    filter (fun f => is_sensitive (SchemaField.classification f) = true)
           (Schema.fields schema) in
  let compliance_requirements :=
    if is_nil sensitive_fields then []
    else
      ["GDPR"; "privacy_by_design"] ++
      (if existsb (fun f => match SchemaField.classification f with
                            | Member PHI => true | _ => false end) sensitive_fields
       then ["HIPAA"] else []) in
  JObj [ ("schema_name", JStr (Schema.name schema));
         ("business_owner", json_of_option_str (Schema.business_owner schema));
         ("technical_owner", json_of_option_str (Schema.technical_owner schema));
         ("classification", JStr (DataClassification_value (Schema.classification schema)));
         ("retention_policy", json_of_option_str (Schema.retention_policy schema));
         ("backup_policy", json_of_option_str (Schema.backup_policy schema));
         ("compliance_requirements", json_of_strings compliance_requirements);
         ("access_controls", JList []);
         ("audit_log", JList []);
         ("created_at", JStr now);
         ("last_reviewed", JNull);
         ("next_review_date", JNull) ].

Definition _create_governance_record (gs : gmap string json) (schema : Schema.t)
    (now : datetime) : gmap string json :=
  <[ governance_file (Schema.name schema) := governance_record schema now ]> gs.

(** [x or "system"] *)
Definition or_system (o : option string) : string :=
  match o with
  | Some s => if PyStr.is_empty s then "system" else s
  | None => "system"
  end.

Section Manager.

(** [json.dumps(., sort_keys=True, default=str)] and
    [hashlib.sha256(.encode()).hexdigest()]. *)
Variable json_dumps : json -> string.
Variable sha256_hexdigest : string -> string.

Definition _generate_schema_hash (schema : Schema.t) : string :=
  sha256_hexdigest (json_dumps (JObj (hashed_dict schema))).

(** The document written to [definitions]: [asdict(schema)] with the hash
    and a time stamp under [stamp_key]. *)
Definition schema_document (schema : Schema.t) (stamp_key : string)
    (now : datetime) : json :=
  let schema_hash := _generate_schema_hash schema in
  let schema_data := asdict_Schema schema in
  let schema_data := PyDict.set "schema_hash" (JStr schema_hash) schema_data in
  JObj (PyDict.set stamp_key (JStr now) schema_data).

(** [create_schema]; [utcnow i] is the [i]-th reading of the clock during
    the call.  Returns the boolean and the store after the call. *)
Definition create_schema (utcnow : nat -> datetime) (st : Store)
    (schema : Schema.t) : bool * Store :=
  let validation_result := validate_schema schema in
  if negb (valid validation_result) then (false, st)
  else if schema_exists st (Schema.name schema) then (false, st)
  else
    let definitions1 :=
      <[ definition_file (Schema.name schema)
         := schema_document schema "created_at" (utcnow 0%nat) ]> (definitions st) in
    let version :=
      SchemaVersion.mk (Schema.version schema) (utcnow 1%nat)
        (or_system (Schema.technical_owner schema))
        ("Initial schema creation: " +:+ Schema.description schema)
        ["Initial schema creation"] false None None None in
    let versions1 := _save_version (versions st) (Schema.name schema) version in
    let governance1 := _create_governance_record (governance st) schema (utcnow 2%nat) in
    (true, {| definitions := definitions1; versions := versions1;
              migrations := migrations st; governance := governance1 |}).

(** What [update_schema] leaves behind: its return value, the store, and
    the caller's [version_info] object, which it assigns to. *)
Record UpdateResult := {
  updated : bool;
  store_after : Store;
  version_info_after : SchemaVersion.t
}.

Definition update_schema (utcnow : nat -> datetime) (st : Store)
    (schema : Schema.t) (version_info : SchemaVersion.t) : UpdateResult :=
  if negb (schema_exists st (Schema.name schema)) then
    {| updated := false; store_after := st; version_info_after := version_info |}
  else
    match get_schema st (Schema.name schema) with
    | None =>
        {| updated := false; store_after := st; version_info_after := version_info |}
    | Some current_schema =>
        let validation_result := validate_schema schema in
        if negb (valid validation_result) then
          {| updated := false; store_after := st; version_info_after := version_info |}
        else
          let breaking_changes := _detect_breaking_changes current_schema schema in
          let version_info1 :=
            SchemaVersion.set_breaking_changes (0 <? length breaking_changes)%nat
                                               version_info in
          let definitions1 :=
            <[ definition_file (Schema.name schema)
               := schema_document schema "updated_at" (utcnow 0%nat) ]>
              (definitions st) in
          let versions1 := _save_version (versions st) (Schema.name schema) version_info1 in
          let st1 := {| definitions := definitions1; versions := versions1;
                        migrations := migrations st; governance := governance st |} in
          if SchemaVersion.breaking_changes version_info1 then
            match _generate_migration (migrations st) (Schema.name schema)
                    current_schema schema version_info1 (utcnow 1%nat) with
            | Some migrations1 =>
                {| updated := true;
                   store_after := {| definitions := definitions1; versions := versions1;
                                     migrations := migrations1;
                                     governance := governance st |};
                   version_info_after := version_info1 |}
            | None =>
                (* the exception reaches the handler of update_schema *)
                {| updated := false; store_after := st1;
                   version_info_after := version_info1 |}
            end
          else
            {| updated := true; store_after := st1; version_info_after := version_info1 |}
    end.

End Manager.

(* ===================================================================== *)
(** ** Metadata catalog search ([metadata_manager.py]) *)
(* ===================================================================== *)

Inductive ResourceType :=
| TABLE | VIEW | COLUMN | INDEX | SCHEMA | DATABASE | FILE | API | QUERY
| REPORT | DASHBOARD | TRANSFORMATION.

Definition ResourceType_value (t : ResourceType) : string :=
  match t with
  | TABLE => "table" | VIEW => "view" | COLUMN => "column" | INDEX => "index"
  | SCHEMA => "schema" | DATABASE => "database" | FILE => "file" | API => "api"
  | QUERY => "query" | REPORT => "report" | DASHBOARD => "dashboard"
  | TRANSFORMATION => "transformation"
  end.

Module MetadataAttribute.
(** The [confidence] of an attribute, a float that search never reads, is
    left out. *)
Record t := mk {
  name : string;
  value : json;
  type : string;
  description : option string;
  source : option string;
  last_updated : option datetime;
  tags : option (list string)
}.
End MetadataAttribute.

Module DataResource.
Record t := mk {
  resource_id : string;
  name : string;
  type : ResourceType;
  system : string;
  path : option string;
  description : option string;
  owner : option string;
  steward : option string;
  created_at : option datetime;
  updated_at : option datetime;
  schema_version : option string;
  metadata : option (list (string * MetadataAttribute.t));
  tags : option (list string)
}.
End DataResource.

Module SearchResult.
(** [score] is a float in the source; every value it takes is a sum of some
    of 10.0, 5.0, 3.0, 2.0 and 1.0, which floats add exactly, so it is an
    integer here. *)
Record t := mk {
  resource : DataResource.t;
  score : Z;
  matching_fields : list string;
  snippet : option string
}.
End SearchResult.

(** [l[:n]] for an integer [n] of either sign. *)
Definition slice_to {A} (n : Z) (l : list A) : list A :=
  if (0 <=? n)%Z then take (Z.to_nat n) l
  else take (length l - Z.to_nat (- n)) l.

(** [results.sort(key=lambda r: r.score, reverse=True)]: a stable sort,
    larger scores first, equal scores in their original order. *)
Fixpoint insert_by_score (r : SearchResult.t) (l : list SearchResult.t)
  : list SearchResult.t :=
  match l with
  | [] => [r]
  | r' :: l' =>
      if (SearchResult.score r <? SearchResult.score r')%Z
      then r' :: insert_by_score r l'
      else r :: l
  end.

Definition sort_by_score_desc (l : list SearchResult.t) : list SearchResult.t :=
  foldr insert_by_score [] l.

(** [_generate_snippet] *)
Definition _generate_snippet (resource : DataResource.t) (query : string) : string :=
  match DataResource.description resource with
  | Some d =>
      if PyStr.is_empty d
      then ResourceType_value (DataResource.type resource) +:+ " in "
             +:+ DataResource.system resource
      else if (200 <? String.length d)%nat
           then String.substring 0 200 d +:+ "..." else d
  | None =>
      ResourceType_value (DataResource.type resource) +:+ " in "
        +:+ DataResource.system resource
  end.

(** One test of [_matches_filters]; an unknown key filters nothing. *)
Definition filter_ok (resource : DataResource.t) (item : string * json) : bool :=
  let '(filter_key, filter_value) := item in
  if String.eqb filter_key "type" then
    match filter_value with
    | JStr v => String.eqb (ResourceType_value (DataResource.type resource)) v
    | _ => false
    end
  else if String.eqb filter_key "system" then
    match filter_value with
    | JStr v => String.eqb (DataResource.system resource) v
    | _ => false
    end
  else if String.eqb filter_key "owner" then
    match DataResource.owner resource, filter_value with
    | None, JNull => true
    | Some o, JStr v => String.eqb o v
    | _, _ => false
    end
  else if String.eqb filter_key "tags" then
    match DataResource.tags resource, filter_value with
    | Some tags, JStr v => str_in v tags
    | _, _ => false
    end
  else true.

Definition _matches_filters (resource : DataResource.t)
    (filters : list (string * json)) : bool :=
  forallb (filter_ok resource) filters.

Section Search.

(** [str(v)] of an attribute value. *)
Variable py_str : json -> string.

(** The running [score] and [matching_fields] of [_calculate_search_score]. *)
Definition Scored : Type := Z * list string.

(** [for tag in resource.tags: if ...: score += 3.0; ...; break] *)
Fixpoint tags_loop (query_lower : string) (tags : list string) (acc : Scored)
  : Scored :=
  match tags with
  | [] => acc
  | tag :: rest =>
      if PyStr.contains query_lower (PyStr.lower tag)
      then ((fst acc + 3)%Z, snd acc ++ ["tags"])
      else tags_loop query_lower rest acc
  end.

(** [for key, attr in resource.metadata.items(): if ...: score += 2.0; ...; break] *)
Fixpoint metadata_loop (query_lower : string)
    (items : list (string * MetadataAttribute.t)) (acc : Scored) : Scored :=
  match items with
  | [] => acc
  | (key, attr) :: rest =>
      if PyStr.contains query_lower (PyStr.lower (py_str (MetadataAttribute.value attr)))
      then ((fst acc + 2)%Z, snd acc ++ ["metadata." +:+ key])
      else metadata_loop query_lower rest acc
  end.

Definition _calculate_search_score (resource : DataResource.t) (query : string)
  : Scored :=
  let acc : Scored := (0%Z, []) in
  let query_lower := PyStr.lower query in
  (* Name match (highest weight) *)
  let acc :=
    if PyStr.contains query_lower (PyStr.lower (DataResource.name resource))
    then ((fst acc + 10)%Z, snd acc ++ ["name"]) else acc in
  (* Description match *)
  let acc :=
    match DataResource.description resource with
    | Some d =>
        if negb (PyStr.is_empty d) && PyStr.contains query_lower (PyStr.lower d)
        then ((fst acc + 5)%Z, snd acc ++ ["description"]) else acc
    | None => acc
    end in
  (* Tags match *)
  let acc :=
    match DataResource.tags resource with
    | Some tags => tags_loop query_lower tags acc
    | None => acc
    end in
  (* Metadata match *)
  let acc :=
    match DataResource.metadata resource with
    | Some items => metadata_loop query_lower items acc
    | None => acc
    end in
  (* System match *)
  if PyStr.contains query_lower (PyStr.lower (DataResource.system resource))
  then ((fst acc + 1)%Z, snd acc ++ ["system"]) else acc.

(** The body of the loop over the resource files: the results list after
    one more resource. *)
Definition search_step (query : string) (filters : option (list (string * json)))
    (results : list SearchResult.t) (resource : DataResource.t)
  : list SearchResult.t :=
  let filtering :=
    match filters with
    | Some ((_ :: _) as fs) => negb (_matches_filters resource fs)
    | _ => false
    end in
  if filtering then results
  else
    let '(score, matching_fields) := _calculate_search_score resource query in
    if (0 <? score)%Z
    then results ++ [SearchResult.mk resource score matching_fields
                       (Some (_generate_snippet resource query))]
    else results.

(** [search_resources]; [files] are the resource files in the order the
    directory listing gives them, each as what [_deserialize_resource]
    makes of it, [None] when that raises (the handler then returns the
    empty list). *)
Definition search_resources (files : list (option DataResource.t))
    (query : string) (filters : option (list (string * json))) (limit : Z)
  : list SearchResult.t :=
  match mapM id files with
  | None => []
  | Some resources =>
      let results := foldl (search_step query filters) [] resources in
      slice_to limit (sort_by_score_desc results)
  end.

End Search.

(* ===================================================================== *)
(** ** Notions used in the statements *)
(* ===================================================================== *)

(** The field the detector finds under [n] in a schema: the entry of the
    name-indexed dictionary it builds. *)
Definition field_named (n : string) (s : Schema.t) : option SchemaField.t :=
  PyDict.get n (PyDict.comprehension SchemaField.name (Schema.fields s)).

(** The four kinds of breaking change, as the specification lists them. *)
Inductive breaking (old_schema new_schema : Schema.t) : string -> Prop :=
| field_removed n fo :
    field_named n old_schema = Some fo ->
    field_named n new_schema = None ->
    breaking old_schema new_schema (removed_msg n)
| data_type_changed n fo fn :
    field_named n old_schema = Some fo ->
    field_named n new_schema = Some fn ->
    SchemaField.data_type fo <> SchemaField.data_type fn ->
    breaking old_schema new_schema
      (type_changed_msg n (SchemaField.data_type fo) (SchemaField.data_type fn))
| made_non_nullable n fo fn :
    field_named n old_schema = Some fo ->
    field_named n new_schema = Some fn ->
    SchemaField.nullable fo = true ->
    SchemaField.nullable fn = false ->
    breaking old_schema new_schema (non_nullable_msg n)
| made_primary_key n fo fn :
    field_named n old_schema = Some fo ->
    field_named n new_schema = Some fn ->
    SchemaField.primary_key fo = false ->
    SchemaField.primary_key fn = true ->
    breaking old_schema new_schema (primary_key_msg n).

(** A plain serialiser and the identity as digest, to run the manager on
    examples: instances of [json_dumps] and [sha256_hexdigest]. *)
Definition dquote : string := String (ascii_of_nat 34) EmptyString.

Fixpoint json_text (j : json) : string :=
  match j with
  | JNull => "null"
  | JBool true => "true"
  | JBool false => "false"
  | JNum n => pretty n
  | JStr s => dquote +:+ s +:+ dquote
  | JList l => "[" +:+ PyStr.join ", " (map json_text l) +:+ "]"
  | JObj kvs =>
      "{" +:+ PyStr.join ", "
                (map (fun kv => dquote +:+ fst kv +:+ dquote +:+ ": " +:+ json_text (snd kv))
                     kvs)
          +:+ "}"
  end.

Definition plain_digest (s : string) : string := s.

(** Example schemas. *)
Definition amount_field : SchemaField.t := SchemaField.default "amount" "DECIMAL".

Definition id_field : SchemaField.t :=
  SchemaField.with_primary_key true
    (SchemaField.with_nullable false (SchemaField.default "id" "INTEGER")).

Definition unnamed_field (data_type : string) : SchemaField.t :=
  SchemaField.default "" data_type.

Definition orders_schema (fields : list SchemaField.t) : Schema.t :=
  Schema.mk "orders" "1.0.0" RELATIONAL "Customer orders" fields [] []
            None None INTERNAL None None [] [].

Definition graph_schema (fields : list SchemaField.t) : Schema.t :=
  Schema.mk "links" "1.0.0" GRAPH "Link graph" fields [] []
            None None INTERNAL None None [] [].

Definition empty_store : Store :=
  {| definitions := ∅; versions := ∅; migrations := ∅; governance := ∅ |}.

(** A clock that reads the same text at every call. *)
Definition fixed_clock (now : datetime) : nat -> datetime := fun _ => now.

(** An audit table one of whose columns is called "Removed field", as a
    hand-written schema document, and two later versions of it. *)
Definition events_document : json :=
  JObj [ ("name", JStr "events");
         ("version", JStr "1.0.0");
         ("schema_type", JStr "relational");
         ("description", JStr "Schema audit events");
         ("fields",
           JList [ JObj [ ("name", JStr "id"); ("data_type", JStr "INTEGER");
                          ("nullable", JBool false); ("primary_key", JBool true) ];
                   JObj [ ("name", JStr "Removed field");
                          ("data_type", JStr "TEXT") ] ]) ].

Definition events_store : Store :=
  {| definitions := {[ definition_file "events" := events_document ]};
     versions := ∅; migrations := ∅; governance := ∅ |}.

Definition events_schema (version : string) (fields : list SchemaField.t) : Schema.t :=
  Schema.mk "events" version RELATIONAL "Schema audit events" fields [] []
            None None INTERNAL None None [] [].

Definition events_v1 : Schema.t :=
  events_schema "1.0.0" [id_field; SchemaField.default "Removed field" "TEXT"].

Definition events_v2 : Schema.t :=
  events_schema "1.1.0"
    [id_field; SchemaField.with_nullable false (SchemaField.default "Removed field" "TEXT")].

Definition events_v2_info : SchemaVersion.t :=
  SchemaVersion.mk "1.1.0" "2024-05-01T09:00:00" "dba" "Require the removed field"
                   ["Removed field is now required"] false None None None.

(** Two versions of the orders table: [amount] changes from INTEGER to BIGINT. *)
Definition orders_v1 : Schema.t :=
  orders_schema [id_field; SchemaField.default "amount" "INTEGER"].

Definition orders_v2 : Schema.t :=
  orders_schema [id_field; SchemaField.default "amount" "BIGINT"].

Definition orders_v2_info : SchemaVersion.t :=
  SchemaVersion.mk "2.0.0" "2024-05-01T09:00:00" "dba" "Widen amount"
                   ["amount is now BIGINT"] false None None None.

(** The case-insensitive substring test of the scorer, and the five places
    it is applied to. *)
Definition matches (query text : string) : bool :=
  PyStr.contains (PyStr.lower query) (PyStr.lower text).

Definition name_match (r : DataResource.t) (query : string) : bool :=
  matches query (DataResource.name r).

Definition description_match (r : DataResource.t) (query : string) : bool :=
  match DataResource.description r with
  | Some d => negb (PyStr.is_empty d) && matches query d
  | None => false
  end.

Definition tag_match (r : DataResource.t) (query : string) : bool :=
  match DataResource.tags r with
  | Some tags => existsb (matches query) tags
  | None => false
  end.

Definition metadata_match (py_str : json -> string) (r : DataResource.t)
    (query : string) : bool :=
  match DataResource.metadata r with
  | Some items =>
      existsb (fun kv => matches query (py_str (MetadataAttribute.value (snd kv)))) items
  | None => false
  end.

Definition system_match (r : DataResource.t) (query : string) : bool :=
  matches query (DataResource.system r).

Definition weight (w : Z) (b : bool) : Z := if b then w else 0%Z.

(** The filters that [search_resources] applies: none when [filters] is
    [None] or empty. *)
Definition passes (filters : option (list (string * json))) (r : DataResource.t) : bool :=
  match filters with
  | Some fs => _matches_filters r fs
  | None => true
  end.

(** The search result made of a resource. *)
Definition result_of (py_str : json -> string) (query : string) (r : DataResource.t)
  : SearchResult.t :=
  SearchResult.mk r (fst (_calculate_search_score py_str r query))
                  (snd (_calculate_search_score py_str r query))
                  (Some (_generate_snippet r query)).

(** The resources a search keeps, before ranking: those that pass the
    filters and score above zero. *)
Definition kept (py_str : json -> string) (query : string)
    (filters : option (list (string * json))) (r : DataResource.t) : bool :=
  passes filters r && (0 <? fst (_calculate_search_score py_str r query))%Z.

(** Larger scores first. *)
Definition by_score_desc (a b : SearchResult.t) : Prop :=
  (SearchResult.score b <= SearchResult.score a)%Z.

(** Example catalog entries. *)
Definition user_orders : DataResource.t :=
  DataResource.mk "res-1" "user_orders" TABLE "warehouse" None
                  (Some "Customer order history") None None None None None None None.

Definition shipments : DataResource.t :=
  DataResource.mk "res-2" "shipments" TABLE "warehouse" None
                  (Some "Parcel tracking") None None None None None None
                  (Some ["logistics"; "Orders"]).

Definition invoices : DataResource.t :=
  DataResource.mk "res-3" "invoices" TABLE "billing" None
                  (Some "Issued invoices") None None None None None None
                  (Some ["finance"]).

(** The script generated for the change from [orders_v1] to [orders_v2]. *)
Definition orders_v2_script : list string :=
  [ "-- Migration for orders to version 2.0.0";
    "-- Generated at: 2024-05-01T09:00:00";
    "-- Description: Widen amount";
    "";
    "-- Changed data type for field amount: INTEGER -> BIGINT";
    "ALTER TABLE orders ALTER COLUMN amount: TYPE BIGINT;";
    "";
    "-- End of migration" ].

(** A schema without defects, that is one on which none of the validator's
    error checks fires. *)
Definition well_formed (s : Schema.t) : Prop :=
  Schema.name s <> ""
  /\ Schema.fields s <> []
  /\ Forall (fun f => SchemaField.name f <> ""
                      /\ _is_valid_data_type (SchemaField.data_type f)
                                             (Schema.schema_type s) = true)
            (Schema.fields s)
  /\ NoDup (SchemaField.name <$> Schema.fields s)
  /\ Forall (fun i => Forall (fun n => n ∈ SchemaField.name <$> Schema.fields s)
                             (SchemaIndex.fields i))
            (Schema.indexes s)
  /\ Forall (fun r => SchemaRelationship.source_field r
                        ∈ SchemaField.name <$> Schema.fields s)
            (Schema.relationships s).

(** The error the validator records for a field whose data type is refused. *)
Definition invalid_type_error (f : SchemaField.t) : string :=
  "Invalid data type " +:+ SchemaField.data_type f +:+ " for field "
    +:+ SchemaField.name f.

(** The state of [validate_schema] after its loop over the fields. *)
Definition field_pass (schema : Schema.t) : FieldLoop :=
  field_loop (Schema.schema_type schema)
    {| fl_errors :=
         (if PyStr.is_empty (Schema.name schema)
          then ["Schema name is required"] else [])
         ++ (if is_nil (Schema.fields schema)
             then ["Schema must have at least one field"] else []);
       fl_field_names := ∅;
       fl_primary_keys := [] |}
    (Schema.fields schema).

(** What the two loops of the detector add for one key and for one item. *)
Definition removed_of (new_fields : list (string * SchemaField.t))
    (field_name : string) : list string :=
  removed_step new_fields [] field_name.

Definition changes_of (new_fields : list (string * SchemaField.t))
    (item : string * SchemaField.t) : list string :=
  changed_step new_fields [] item.

(* ===================================================================== *)
(** ** Further functions of [metadata_manager.py] *)
(* ===================================================================== *)

(** [_extract_tags_from_name] *)
Definition _extract_tags_from_name (name : string) : list string :=
  let tags : list string := [] in
  let tags :=
    if PyStr.contains "user" (PyStr.lower name) then tags ++ ["user-data"] else tags in
  let tags :=
    if PyStr.contains "order" (PyStr.lower name) then tags ++ ["transactional"] else tags in
  let tags :=
    if PyStr.contains "log" (PyStr.lower name) then tags ++ ["logging"] else tags in
  if PyStr.contains "temp" (PyStr.lower name) || PyStr.contains "tmp" (PyStr.lower name)
  then tags ++ ["temporary"] else tags.

Module CatalogEntry.
(** An entry of the list under [resources] in the catalog file of a system. *)
Record t := mk {
  id : string;
  name : string;
  type : string;
  path : option string;
  updated_at : datetime
}.
End CatalogEntry.




(* ===================================================================== *)
(** ** Further notions *)
(* ===================================================================== *)

(** The names of the fields that have one, which is what the validator
    enters into its set of field names. *)
Definition named_fields (fields : list SchemaField.t) : list SchemaField.t :=
  filter (fun f => SchemaField.name f <> "") fields.


(** A schema with other relationships. *)
Definition with_relationships (rs : list SchemaRelationship.t) (s : Schema.t) : Schema.t :=
  Schema.mk (Schema.name s) (Schema.version s) (Schema.schema_type s)
            (Schema.description s) (Schema.fields s) (Schema.indexes s) rs
            (Schema.business_owner s) (Schema.technical_owner s)
            (Schema.classification s) (Schema.retention_policy s)
            (Schema.backup_policy s) (Schema.tags s) (Schema.metadata s).

(** The errors for a dangling reference. *)
Definition index_error (index : SchemaIndex.t) (field_name : string) : string :=
  "Index " +:+ SchemaIndex.name index +:+ " references non-existent field: "
    +:+ field_name.

Definition relationship_error (r : SchemaRelationship.t) : string :=
  "Relationship " +:+ SchemaRelationship.name r
    +:+ " references non-existent source field: "
    +:+ SchemaRelationship.source_field r.

(** A schema document with the enum members stored by value (as
    [SchemaType(...)] and [DataClassification(...)] read them), and the schema
    [get_schema] makes of it: the classification of a field comes back as the
    stored JSON value. *)
Definition document_by_value (s : Schema.t) : json :=
  JObj [ ("name", JStr (Schema.name s));
         ("version", JStr (Schema.version s));
         ("schema_type", JStr (SchemaType_value (Schema.schema_type s)));
         ("description", JStr (Schema.description s));
         ("fields", JList (map asdict_SchemaField (Schema.fields s)));
         ("indexes", JList (map asdict_SchemaIndex (Schema.indexes s)));
         ("relationships", JList (map asdict_SchemaRelationship (Schema.relationships s)));
         ("business_owner", json_of_option_str (Schema.business_owner s));
         ("technical_owner", json_of_option_str (Schema.technical_owner s));
         ("classification", JStr (DataClassification_value (Schema.classification s)));
         ("retention_policy", json_of_option_str (Schema.retention_policy s));
         ("backup_policy", json_of_option_str (Schema.backup_policy s));
         ("tags", json_of_strings (Schema.tags s));
         ("metadata", JObj (Schema.metadata s)) ].

Definition as_loaded_field (f : SchemaField.t) : SchemaField.t :=
  SchemaField.mk (SchemaField.name f) (SchemaField.data_type f) (SchemaField.nullable f)
    (SchemaField.primary_key f) (SchemaField.foreign_key f) (SchemaField.unique f)
    (SchemaField.indexed f) (SchemaField.default_value f) (SchemaField.description f)
    (Stored (json_of_FieldClassification (SchemaField.classification f)))
    (SchemaField.validation_rules f) (SchemaField.tags f).

Definition as_loaded (s : Schema.t) : Schema.t :=
  Schema.with_fields (as_loaded_field <$> Schema.fields s) s.

(** The list under [compliance_requirements] in a governance record. *)
Definition compliance_requirements (record : json) : option json :=
  kvs ← as_obj record; PyDict.get "compliance_requirements" kvs.

(** The filter keys that [_matches_filters] knows. *)
Definition known_filter_keys : list string := ["type"; "system"; "owner"; "tags"].

(** The first metadata attribute whose value holds the query. *)
Definition first_metadata_match (py_str : json -> string) (r : DataResource.t)
    (query : string) : option (string * MetadataAttribute.t) :=
  match DataResource.metadata r with
  | Some items =>
      find (fun kv => matches query (py_str (MetadataAttribute.value (snd kv)))) items
  | None => None
  end.

(** The labels of the places that match, in the order the scorer visits them. *)
Definition match_labels (py_str : json -> string) (r : DataResource.t)
    (query : string) : list string :=
  (if name_match r query then ["name"] else [])
  ++ (if description_match r query then ["description"] else [])
  ++ (if tag_match r query then ["tags"] else [])
  ++ (match first_metadata_match py_str r query with
      | Some kv => ["metadata." +:+ fst kv]
      | None => []
      end)
  ++ (if system_match r query then ["system"] else []).

(** *** Names and documents within the conventions of the store *)

(** A name that is one component of a POSIX path: it holds no separator and
    no NUL character, and it is short enough for the file names made of it
    (at most 100 characters, a file name having at most 255).  Then
    [dir / f"{name}.json"] is the file of that name in [dir], which [open]
    can create there, and on a case-sensitive file system two such names
    give the same file only when they are equal. *)
Definition nul : string := String Ascii.zero EmptyString.

Definition plain_name (s : string) : bool :=
  negb (PyStr.contains "/" s) && negb (PyStr.contains nul s)
  && (String.length s <=? 100)%nat.

(** The JSON values of the types the dataclasses annotate: [str], [bool],
    [Optional[str]], [List[str]], and so on. *)
Definition is_str (j : json) : bool := match j with JStr _ => true | _ => false end.
Definition is_bool (j : json) : bool := match j with JBool _ => true | _ => false end.
Definition is_opt_str (j : json) : bool :=
  match j with JNull | JStr _ => true | _ => false end.
Definition is_strings (j : json) : bool :=
  match j with JList l => forallb is_str l | _ => false end.
Definition is_opt_strings (j : json) : bool :=
  match j with JNull => true | _ => is_strings j end.
Definition is_opt_obj (j : json) : bool :=
  match j with JNull | JObj _ => true | _ => false end.
Definition is_list_of (ok : json -> bool) (j : json) : bool :=
  match j with JList l => forallb ok l | _ => false end.

(** The value under [k], if there is one, has the type [ok]. *)
Definition typed_at (k : string) (ok : json -> bool) (kvs : list (string * json)) : bool :=
  match PyDict.get k kvs with Some j => ok j | None => true end.

(** A stored field, index, relationship and schema document whose values
    have the types of the annotations.  The dataclasses do not check them: on
    other documents the code builds objects that the typed records here do
    not represent, and [load_Schema] gives [None].  The classification and
    the default value of a field may be any value. *)
Definition typed_field (j : json) : bool :=
  match j with
  | JObj kvs =>
      typed_at "name" is_str kvs && typed_at "data_type" is_str kvs
      && typed_at "nullable" is_bool kvs && typed_at "primary_key" is_bool kvs
      && typed_at "foreign_key" is_opt_str kvs && typed_at "unique" is_bool kvs
      && typed_at "indexed" is_bool kvs && typed_at "description" is_opt_str kvs
      && typed_at "validation_rules" is_opt_obj kvs
      && typed_at "tags" is_opt_strings kvs
  | _ => false
  end.

Definition typed_index (j : json) : bool :=
  match j with
  | JObj kvs =>
      typed_at "name" is_str kvs && typed_at "fields" is_strings kvs
      && typed_at "unique" is_bool kvs && typed_at "type" is_str kvs
      && typed_at "partial_condition" is_opt_str kvs
      && typed_at "description" is_opt_str kvs
  | _ => false
  end.

Definition typed_relationship (j : json) : bool :=
  match j with
  | JObj kvs =>
      typed_at "name" is_str kvs && typed_at "source_schema" is_str kvs
      && typed_at "target_schema" is_str kvs && typed_at "source_field" is_str kvs
      && typed_at "target_field" is_str kvs
      && typed_at "relationship_type" is_str kvs
      && typed_at "cascade_delete" is_bool kvs
      && typed_at "cascade_update" is_bool kvs
  | _ => false
  end.

Definition typed_document (j : json) : bool :=
  match j with
  | JObj kvs =>
      typed_at "name" is_str kvs && typed_at "version" is_str kvs
      && typed_at "schema_type" is_str kvs && typed_at "description" is_str kvs
      && typed_at "fields" (is_list_of typed_field) kvs
      && typed_at "indexes" (is_list_of typed_index) kvs
      && typed_at "relationships" (is_list_of typed_relationship) kvs
      && typed_at "business_owner" is_opt_str kvs
      && typed_at "technical_owner" is_opt_str kvs
      && typed_at "classification" is_str kvs
      && typed_at "retention_policy" is_opt_str kvs
      && typed_at "backup_policy" is_opt_str kvs
      && typed_at "tags" is_opt_strings kvs
      && typed_at "metadata" is_opt_obj kvs
  | _ => false
  end.

(** The list stored under [k], empty when the key is absent. *)
Definition entries (k : string) (kvs : list (string * json)) : list json :=
  match PyDict.get k kvs with Some (JList l) => l | _ => [] end.

(** What the code needs in order to build the objects: a field, an index and
    a relationship have the required attributes and no key that is not an
    attribute (a [TypeError] of the constructor otherwise); a document has
    [name], [version] and [description] (a [KeyError] otherwise) and values
    of the two enums for [schema_type] and, when present, [classification]
    (a [ValueError] otherwise). *)
Definition field_readable (j : json) : bool :=
  match j with
  | JObj kvs =>
      only_keys ["name"; "data_type"; "nullable"; "primary_key"; "foreign_key";
                 "unique"; "indexed"; "default_value"; "description";
                 "classification"; "validation_rules"; "tags"] kvs
      && PyDict.mem "name" kvs && PyDict.mem "data_type" kvs
  | _ => false
  end.

Definition index_readable (j : json) : bool :=
  match j with
  | JObj kvs =>
      only_keys ["name"; "fields"; "unique"; "type"; "partial_condition";
                 "description"] kvs
      && PyDict.mem "name" kvs && PyDict.mem "fields" kvs
  | _ => false
  end.

Definition relationship_readable (j : json) : bool :=
  match j with
  | JObj kvs =>
      only_keys ["name"; "source_schema"; "target_schema"; "source_field";
                 "target_field"; "relationship_type"; "cascade_delete";
                 "cascade_update"] kvs
      && PyDict.mem "name" kvs && PyDict.mem "source_schema" kvs
      && PyDict.mem "target_schema" kvs && PyDict.mem "source_field" kvs
      && PyDict.mem "target_field" kvs && PyDict.mem "relationship_type" kvs
  | _ => false
  end.

Definition document_readable (j : json) : bool :=
  match j with
  | JObj kvs =>
      forallb field_readable (entries "fields" kvs)
      && forallb index_readable (entries "indexes" kvs)
      && forallb relationship_readable (entries "relationships" kvs)
      && PyDict.mem "name" kvs && PyDict.mem "version" kvs
      && PyDict.mem "description" kvs
      && match PyDict.get "schema_type" kvs with
         | Some (JStr v) => bool_decide (is_Some (SchemaType_of_value v))
         | _ => false
         end
      && match PyDict.get "classification" kvs with
         | Some (JStr v) => bool_decide (is_Some (DataClassification_of_value v))
         | Some _ => false
         | None => true
         end
  | _ => false
  end.

(* ===================================================================== *)
(** * Properties *)
(* ===================================================================== *)

(** ** Facts about ordered dictionaries *)

Section dict_facts.
Context {V : Type}.
Implicit Types (d : list (string * V)) (k : string) (v : V).

Lemma get_set k k' v d :
  PyDict.get k (PyDict.set k' v d)
  = if String.eqb k' k then Some v else PyDict.get k d.
Proof.
  induction d as [|[k0 v0] d IH]; simpl; [done|].
  destruct (String.eqb_spec k0 k') as [->|Hne]; simpl.
  - by destruct (String.eqb k' k).
  - rewrite IH. destruct (String.eqb_spec k0 k) as [->|]; [|done].
    by destruct (String.eqb_spec k' k) as [->|].
Qed.

Lemma get_Some_elem_of k v d : PyDict.get k d = Some v → (k, v) ∈ d.
Proof.
  induction d as [|[k0 v0] d IH]; simpl; [done|].
  destruct (String.eqb_spec k0 k) as [->|].
  - intros [= ->]. left.
  - intros. right. auto.
Qed.

Lemma get_None_keys k d : PyDict.get k d = None ↔ k ∉ PyDict.keys d.
Proof.
  unfold PyDict.keys. induction d as [|[k0 v0] d IH]; csimpl.
  - split; [intros _; apply not_elem_of_nil | done].
  - rewrite not_elem_of_cons, <- IH.
    destruct (String.eqb_spec k0 k) as [->|]; [|by intuition].
    split; [done|]. by intros [].
Qed.

Lemma mem_true_keys k d : PyDict.mem k d = true ↔ k ∈ PyDict.keys d.
Proof.
  unfold PyDict.mem. destruct (PyDict.get k d) eqn:E.
  - split; [intros _|done].
    destruct (decide (k ∈ PyDict.keys d)) as [|Hn]; [done|].
    apply get_None_keys in Hn. congruence.
  - split; [done|]. intros Hin. by apply get_None_keys in E.
Qed.

Lemma keys_set k v d :
  PyDict.keys (PyDict.set k v d)
  = if PyDict.mem k d then PyDict.keys d else PyDict.keys d ++ [k].
Proof.
  unfold PyDict.mem, PyDict.keys.
  induction d as [|[k0 v0] d IH]; csimpl; [done|].
  destruct (String.eqb_spec k0 k) as [->|]; csimpl; [done|].
  rewrite IH. by destruct (PyDict.get k d).
Qed.

Lemma NoDup_keys_set k v d :
  NoDup (PyDict.keys d) → NoDup (PyDict.keys (PyDict.set k v d)).
Proof.
  intros Hd. rewrite keys_set. destruct (PyDict.mem k d) eqn:E; [done|].
  apply NoDup_app. split_and!; [done| |apply NoDup_singleton].
  intros x Hx ->%list_elem_of_singleton.
  apply mem_true_keys in Hx. congruence.
Qed.

(** With distinct keys, the items of a dictionary are its lookups. *)
Lemma elem_of_get k v d :
  NoDup (PyDict.keys d) → (k, v) ∈ d → PyDict.get k d = Some v.
Proof.
  unfold PyDict.keys. induction d as [|[k0 v0] d IH]; csimpl.
  - by intros _ ?%elem_of_nil.
  - intros [Hk0 Hd]%NoDup_cons [[= -> ->]|Hin]%elem_of_cons.
    + by rewrite String.eqb_refl.
    + destruct (String.eqb_spec k0 k) as [->|]; [|by apply IH].
      destruct Hk0. apply list_elem_of_fmap. by exists (k, v).
Qed.

Variable key : V → string.
Abbreviation last_with := (PyDict.last_with key).

Lemma last_with_snoc k xs x :
  last_with k (xs ++ [x])
  = if String.eqb (key x) k then Some x else last_with k xs.
Proof. unfold PyDict.last_with. by rewrite rev_app_distr. Qed.

Lemma foldl_set_get k d0 xs :
  PyDict.get k (foldl (fun d x => PyDict.set (key x) x d) d0 xs)
  = match last_with k xs with Some x => Some x | None => PyDict.get k d0 end.
Proof.
  induction xs as [|x xs IH] using rev_ind; [done|].
  rewrite foldl_app, last_with_snoc. simpl. rewrite get_set.
  by destruct (String.eqb (key x) k).
Qed.

Lemma comprehension_get k xs :
  PyDict.get k (PyDict.comprehension key xs) = last_with k xs.
Proof.
  unfold PyDict.comprehension. rewrite foldl_set_get.
  by destruct (last_with k xs).
Qed.

Lemma comprehension_NoDup xs : NoDup (PyDict.keys (PyDict.comprehension key xs)).
Proof.
  unfold PyDict.comprehension.
  induction xs as [|x xs IH] using rev_ind; [apply NoDup_nil_2|].
  rewrite foldl_app. simpl. by apply NoDup_keys_set.
Qed.

Lemma last_with_Some k xs x :
  last_with k xs = Some x → x ∈ xs ∧ key x = k.
Proof.
  unfold PyDict.last_with. intros [Hin Hk]%find_some.
  apply in_rev, list_elem_of_In in Hin. by apply String.eqb_eq in Hk.
Qed.

Lemma last_with_None k xs :
  last_with k xs = None ↔ k ∉ key <$> xs.
Proof.
  unfold PyDict.last_with. split.
  - intros Hnone (x & -> & Hx)%list_elem_of_fmap.
    apply list_elem_of_In, in_rev in Hx.
    apply (find_none _ _ Hnone) in Hx. simpl in Hx.
    by rewrite String.eqb_refl in Hx.
  - intros Hn. destruct (find _ _) as [x|] eqn:E; [|done].
    apply find_some in E as [Hin Hk]. destruct Hn.
    apply list_elem_of_fmap. exists x. split.
    + symmetry. by apply String.eqb_eq.
    + by apply list_elem_of_In, in_rev.
Qed.

(** With distinct keys in [xs], any element is the one found under its key. *)
Lemma last_with_NoDup xs x :
  NoDup (key <$> xs) → x ∈ xs → last_with (key x) xs = Some x.
Proof.
  induction xs as [|y xs IH] using rev_ind; [by intros _ ?%elem_of_nil|].
  rewrite fmap_app, last_with_snoc. simpl.
  intros (Hxs & Hy & _)%NoDup_app [Hin| ->%list_elem_of_singleton]%elem_of_app.
  - destruct (String.eqb_spec (key y) (key x)) as [Heq|]; [|by apply IH].
    destruct (Hy (key x)).
    + apply list_elem_of_fmap. by exists x.
    + rewrite Heq. apply list_elem_of_singleton. done.
  - by rewrite String.eqb_refl.
Qed.

Lemma last_with_app_cons_ne k pre x post :
  key x ≠ k → last_with k (pre ++ x :: post) = last_with k (pre ++ post).
Proof.
  intros Hne. induction post as [|y post IH] using rev_ind.
  - rewrite app_nil_r, last_with_snoc. by apply String.eqb_neq in Hne as ->.
  - rewrite app_comm_cons, !app_assoc, !last_with_snoc.
    by rewrite IH.
Qed.

Lemma last_with_app_cons_eq pre x post :
  key x ∉ key <$> post → last_with (key x) (pre ++ x :: post) = Some x.
Proof.
  induction post as [|y post IH] using rev_ind.
  - intros _. by rewrite last_with_snoc, String.eqb_refl.
  - rewrite fmap_app, not_elem_of_app. simpl.
    rewrite list_elem_of_singleton. intros [Hpost Hy].
    rewrite app_comm_cons, app_assoc, last_with_snoc.
    destruct (String.eqb_spec (key y) (key x)) as [Heq|]; [congruence|].
    by apply IH.
Qed.
End dict_facts.

(** ** The detector as a concatenation *)

Lemma foldl_snoc_bind {A B} (step : list B → A → list B) (g : A → list B)
    (acc : list B) (xs : list A) :
  (∀ acc x, step acc x = acc ++ g x) →
  foldl step acc xs = acc ++ (xs ≫= g).
Proof.
  intros Hstep. revert acc.
  induction xs as [|x xs IH]; intros acc; csimpl.
  - by rewrite app_nil_r.
  - by rewrite IH, Hstep, <- app_assoc.
Qed.

Lemma removed_step_app nf bc k : removed_step nf bc k = bc ++ removed_of nf k.
Proof.
  unfold removed_of, removed_step.
  destruct (negb _); [done | by rewrite app_nil_r].
Qed.

Lemma changed_step_app nf bc item : changed_step nf bc item = bc ++ changes_of nf item.
Proof.
  unfold changes_of, changed_step. destruct item as [k fo].
  destruct (PyDict.get k nf) as [fn|]; [|by rewrite app_nil_r].
  destruct (negb (String.eqb _ _)), (_ && negb _), (negb _ && _);
    simpl; rewrite <- ?app_assoc, ?app_nil_r; done.
Qed.

Lemma detect_unfold old_schema new_schema :
  _detect_breaking_changes old_schema new_schema
  = let old_fields := PyDict.comprehension SchemaField.name (Schema.fields old_schema) in
    let new_fields := PyDict.comprehension SchemaField.name (Schema.fields new_schema) in
    (PyDict.keys old_fields ≫= removed_of new_fields)
      ++ (old_fields ≫= changes_of new_fields).
Proof.
  unfold _detect_breaking_changes. cbv zeta.
  rewrite (foldl_snoc_bind _ _ _ _ (changed_step_app _)).
  by rewrite (foldl_snoc_bind _ _ _ _ (removed_step_app _)).
Qed.

Lemma bind_nil {A B} (l : list A) (g : A → list B) :
  (∀ x, x ∈ l → g x = []) → l ≫= g = [].
Proof.
  induction l as [|y l IH]; [done|]. intros Hnil. csimpl.
  rewrite (Hnil y), IH; [done| |left]. intros x Hx. apply Hnil. by right.
Qed.

(** A concatenation in which one element only contributes. *)
Lemma bind_only {A B} (l : list A) (a : A) (g : A → list B) :
  NoDup l → a ∈ l → (∀ x, x ∈ l → x ≠ a → g x = []) → l ≫= g = g a.
Proof.
  induction l as [|y l IH]; [by intros _ ?%elem_of_nil|].
  intros [Hy Hl]%NoDup_cons Hin Hnil. csimpl.
  apply elem_of_cons in Hin as [<-|Hin].
  - rewrite (bind_nil l g), app_nil_r; [done|].
    intros x Hx. apply Hnil; [by right|]. by intros ->.
  - rewrite (Hnil y); [|left|by intros ->]. simpl.
    apply IH; [done..|]. intros x Hx. apply Hnil. by right.
Qed.

Lemma changes_of_same nf k f :
  PyDict.get k nf = Some f → changes_of nf (k, f) = [].
Proof.
  unfold changes_of, changed_step. intros ->.
  rewrite String.eqb_refl. simpl.
  by destruct (SchemaField.nullable f), (SchemaField.primary_key f).
Qed.

Lemma changes_of_absent nf k f :
  PyDict.get k nf = None → changes_of nf (k, f) = [].
Proof. unfold changes_of, changed_step. by intros ->. Qed.

Lemma removed_of_present nf k :
  is_Some (PyDict.get k nf) → removed_of nf k = [].
Proof.
  unfold removed_of, removed_step, PyDict.mem. by intros [f ->].
Qed.

Lemma removed_of_absent nf k :
  PyDict.get k nf = None → removed_of nf k = [removed_msg k].
Proof. unfold removed_of, removed_step, PyDict.mem. by intros ->. Qed.

Lemma elem_of_removed_of nf k e :
  e ∈ removed_of nf k ↔ PyDict.get k nf = None ∧ e = removed_msg k.
Proof.
  unfold removed_of, removed_step, PyDict.mem.
  destruct (PyDict.get k nf) as [fn|]; simpl.
  - split; [by intros ?%elem_of_nil | by intros []].
  - rewrite list_elem_of_singleton. naive_solver.
Qed.

Lemma elem_of_changes_of nf k fo e :
  e ∈ changes_of nf (k, fo) ↔
  ∃ fn, PyDict.get k nf = Some fn ∧
    ((SchemaField.data_type fo ≠ SchemaField.data_type fn ∧
      e = type_changed_msg k (SchemaField.data_type fo) (SchemaField.data_type fn))
     ∨ (SchemaField.nullable fo = true ∧ SchemaField.nullable fn = false ∧
        e = non_nullable_msg k)
     ∨ (SchemaField.primary_key fo = false ∧ SchemaField.primary_key fn = true ∧
        e = primary_key_msg k)).
Proof.
  unfold changes_of, changed_step.
  destruct (PyDict.get k nf) as [fn|]; [|split; [by intros ?%elem_of_nil|by intros (?&?&?)]].
  destruct (String.eqb_spec (SchemaField.data_type fo) (SchemaField.data_type fn)) as [Hdt|Hdt],
    (SchemaField.nullable fo), (SchemaField.nullable fn) eqn:Hnn,
    (SchemaField.primary_key fo), (SchemaField.primary_key fn) eqn:Hnp; simpl;
    rewrite ?elem_of_cons, ?elem_of_nil;
    (split; [intros He; exists fn; rewrite ?Hnn, ?Hnp; intuition congruence
            | intros (fn0 & [= <-] & He); rewrite ?Hnn, ?Hnp in He;
              intuition congruence]).
Qed.

Lemma field_named_elem_of n s f :
  field_named n s = Some f ↔
  (n, f) ∈ PyDict.comprehension SchemaField.name (Schema.fields s).
Proof.
  unfold field_named. split; [apply get_Some_elem_of|].
  apply elem_of_get, comprehension_NoDup.
Qed.

Lemma field_named_keys n s :
  is_Some (field_named n s) ↔
  n ∈ PyDict.keys (PyDict.comprehension SchemaField.name (Schema.fields s)).
Proof.
  unfold field_named.
  destruct (PyDict.get n _) as [f|] eqn:E.
  - split; [intros _|by eauto].
    destruct (decide (n ∈ PyDict.keys
      (PyDict.comprehension SchemaField.name (Schema.fields s)))) as [|Hn]; [done|].
    apply get_None_keys in Hn. congruence.
  - split; [by intros [? [=]]|]. intros Hin. by apply get_None_keys in E.
Qed.

(** The field found under a name is a field of the schema with that name,
    and with distinct field names every field is found under its name. *)
Lemma field_named_sound n s f :
  field_named n s = Some f → f ∈ Schema.fields s ∧ SchemaField.name f = n.
Proof.
  unfold field_named. rewrite comprehension_get. apply last_with_Some.
Qed.

Lemma field_named_complete s f :
  NoDup (SchemaField.name <$> Schema.fields s) → f ∈ Schema.fields s →
  field_named (SchemaField.name f) s = Some f.
Proof.
  unfold field_named. rewrite comprehension_get. apply last_with_NoDup.
Qed.

Lemma field_named_None n s :
  field_named n s = None ↔ n ∉ SchemaField.name <$> Schema.fields s.
Proof. unfold field_named. rewrite comprehension_get. apply last_with_None. Qed.

Lemma elem_of_detect old_schema new_schema e :
  e ∈ _detect_breaking_changes old_schema new_schema ↔ breaking old_schema new_schema e.
Proof.
  rewrite detect_unfold. cbv zeta.
  rewrite elem_of_app, !list_elem_of_bind. split.
  - intros [(k & [Hnew ->]%elem_of_removed_of & Hk) | ([k fo] & He & Hitem)].
    + apply field_named_keys in Hk as [fo Hfo]. by eapply field_removed.
    + apply field_named_elem_of in Hitem.
      apply elem_of_changes_of in He
        as (fn & Hfn & [[? ->] | [(? & ? & ->) | (? & ? & ->)]]).
      * by eapply data_type_changed.
      * by eapply made_non_nullable.
      * by eapply made_primary_key.
  - intros [n fo Hold Hnew | n fo fn Hold Hnew Hdt | n fo fn Hold Hnew Ho Hn
           | n fo fn Hold Hnew Ho Hn].
    + left. exists n. split; [by apply elem_of_removed_of|].
      apply field_named_keys. by eauto.
    + right. exists (n, fo). split; [|by apply field_named_elem_of].
      apply elem_of_changes_of. exists fn. by eauto.
    + right. exists (n, fo). split; [|by apply field_named_elem_of].
      apply elem_of_changes_of. exists fn. by eauto 6.
    + right. exists (n, fo). split; [|by apply field_named_elem_of].
      apply elem_of_changes_of. exists fn. by eauto 6.
Qed.

(** C2. The detector's output consists of the four kinds of change and of
    nothing else: an entry is in the list exactly when it is a removal, a
    change of data type, a change from nullable to non-nullable or a promotion
    to primary key of a field of the old schema.  Hence a pair of schemas in
    which every old field survives with its data type, is not made
    non-nullable and is not promoted (whatever fields are added, made nullable
    or demoted from primary key) has no entry.  Data types are compared as
    they are written: DECIMAL against decimal is a change. *)
Theorem detect_breaking_changes_kinds :
  (∀ old_schema new_schema e,
      e ∈ _detect_breaking_changes old_schema new_schema
      ↔ breaking old_schema new_schema e)
  ∧ (∀ old_schema new_schema,
      (∀ n fo, field_named n old_schema = Some fo →
         ∃ fn, field_named n new_schema = Some fn
               ∧ SchemaField.data_type fo = SchemaField.data_type fn
               ∧ (SchemaField.nullable fo = true → SchemaField.nullable fn = true)
               ∧ (SchemaField.primary_key fn = true → SchemaField.primary_key fo = true)) →
      _detect_breaking_changes old_schema new_schema = [])
  ∧ _detect_breaking_changes
      (orders_schema [SchemaField.default "amount" "DECIMAL"])
      (orders_schema [SchemaField.default "amount" "decimal"])
    = ["Changed data type for field amount: DECIMAL -> decimal"].
Proof.
  split_and!; [apply elem_of_detect| |done].
  intros old_schema new_schema Hsame.
  destruct (_detect_breaking_changes old_schema new_schema) as [|e l] eqn:E; [done|].
  assert (breaking old_schema new_schema e) as Hb.
  { apply elem_of_detect. rewrite E. left. }
  exfalso.
  destruct Hb as [n fo Hold Hnew | n fo fn Hold Hnew Hdt | n fo fn Hold Hnew Ho Hn
                 | n fo fn Hold Hnew Ho Hn];
    destruct (Hsame n fo Hold) as (fn' & Hnew' & Hdt' & Hnull & Hpk);
    rewrite Hnew' in Hnew; simplify_eq.
  - apply Hnull in Ho. congruence.
  - apply Hpk in Hn. congruence.
Qed.

Lemma detect_breaking_changes_kinds_witness :
  _detect_breaking_changes
    (orders_schema [id_field])
    (orders_schema [SchemaField.with_primary_key false
                      (SchemaField.with_nullable true id_field); amount_field])
  = [].
Proof.
  apply (proj1 (proj2 detect_breaking_changes_kinds)).
  intros n fo [Hin <-]%field_named_sound.
  apply list_elem_of_singleton in Hin as ->.
  exists (SchemaField.with_primary_key false (SchemaField.with_nullable true id_field)).
  split_and!; [reflexivity|reflexivity|intros _; reflexivity|].
  intros Hpk. vm_compute in Hpk. discriminate Hpk.
Defined.

(** ** Schemas that differ in one field *)

Section one_field.
Variables (pre post : list SchemaField.t) (f : SchemaField.t).
Variables (old_schema : Schema.t).
Hypothesis Hold : Schema.fields old_schema = pre ++ f :: post.

Let old_fields := PyDict.comprehension SchemaField.name (Schema.fields old_schema).

Lemma old_field_found :
  SchemaField.name f ∉ SchemaField.name <$> post →
  field_named (SchemaField.name f) old_schema = Some f.
Proof.
  intros Hpost. unfold field_named.
  rewrite comprehension_get, Hold. by apply last_with_app_cons_eq.
Qed.

(** An item of the old dictionary other than the one of [f] has another key. *)
Lemma old_item_other k fo :
  SchemaField.name f ∉ SchemaField.name <$> post →
  (k, fo) ∈ old_fields → (k, fo) ≠ (SchemaField.name f, f) →
  k ≠ SchemaField.name f.
Proof.
  intros Hpost Hin Hne ->. apply Hne. f_equal.
  apply field_named_elem_of in Hin.
  rewrite (old_field_found Hpost) in Hin. congruence.
Qed.

(** The field replaced by one of the same name. *)
Lemma detect_one_field_changed (f' : SchemaField.t) (new_schema : Schema.t) :
  SchemaField.name f' = SchemaField.name f →
  SchemaField.name f ∉ SchemaField.name <$> post →
  Schema.fields new_schema = pre ++ f' :: post →
  _detect_breaking_changes old_schema new_schema
  = changes_of [(SchemaField.name f, f')] (SchemaField.name f, f).
Proof.
  intros Hname Hpost Hnew. rewrite detect_unfold. cbv zeta.
  fold old_fields.
  set (new_fields := PyDict.comprehension SchemaField.name (Schema.fields new_schema)).
  assert (PyDict.get (SchemaField.name f) new_fields = Some f') as Hf'.
  { unfold new_fields. rewrite comprehension_get, Hnew, <- Hname.
    apply last_with_app_cons_eq. by rewrite Hname. }
  assert (∀ k, k ≠ SchemaField.name f →
               PyDict.get k new_fields = PyDict.get k old_fields) as Hother.
  { intros k Hk. unfold new_fields, old_fields.
    rewrite !comprehension_get, Hnew, Hold.
    rewrite !last_with_app_cons_ne; [done|done|by rewrite Hname]. }
  rewrite bind_nil, (bind_only old_fields (SchemaField.name f, f)); simpl.
  - unfold changes_of, changed_step. rewrite Hf'. simpl.
    by rewrite String.eqb_refl.
  - eapply NoDup_fmap_1, comprehension_NoDup.
  - by apply field_named_elem_of, old_field_found.
  - intros [k fo] Hin Hne. apply changes_of_same.
    rewrite Hother by (by eapply old_item_other).
    by apply field_named_elem_of.
  - intros k Hk. apply removed_of_present.
    destruct (decide (k = SchemaField.name f)) as [->|Hne]; [by rewrite Hf'|].
    rewrite Hother by done. by apply field_named_keys.
Qed.

(** The field dropped. *)
Lemma detect_one_field_removed (new_schema : Schema.t) :
  SchemaField.name f ∉ SchemaField.name <$> (pre ++ post) →
  Schema.fields new_schema = pre ++ post →
  _detect_breaking_changes old_schema new_schema
  = [removed_msg (SchemaField.name f)].
Proof.
  intros Hnotin Hnew. rewrite detect_unfold. cbv zeta.
  fold old_fields.
  set (new_fields := PyDict.comprehension SchemaField.name (Schema.fields new_schema)).
  assert (SchemaField.name f ∉ SchemaField.name <$> post) as Hpost.
  { rewrite fmap_app, not_elem_of_app in Hnotin. by destruct Hnotin. }
  assert (PyDict.get (SchemaField.name f) new_fields = None) as Hgone.
  { unfold new_fields. rewrite comprehension_get, Hnew. by apply last_with_None. }
  assert (∀ k, k ≠ SchemaField.name f →
               PyDict.get k new_fields = PyDict.get k old_fields) as Hother.
  { intros k Hk. unfold new_fields, old_fields.
    rewrite !comprehension_get, Hnew, Hold.
    by rewrite last_with_app_cons_ne. }
  rewrite (bind_only (PyDict.keys old_fields) (SchemaField.name f)), bind_nil.
  - rewrite app_nil_r. by apply removed_of_absent.
  - intros [k fo] Hin.
    destruct (decide (k = SchemaField.name f)) as [->|Hne].
    + by apply changes_of_absent.
    + apply changes_of_same. rewrite Hother by done.
      by apply field_named_elem_of.
  - apply comprehension_NoDup.
  - apply field_named_keys. rewrite (old_field_found Hpost). by eauto.
  - intros k Hk Hne. apply removed_of_present. rewrite Hother by done.
    by apply field_named_keys.
Qed.
End one_field.

(** C1. An old schema holding a nullable field [amount] (of data type DECIMAL
    or of any other) against the same schema with that field made non-nullable
    gives exactly the list of the one entry "Field amount changed from
    nullable to non-nullable"; against the same schema without the field it
    gives exactly the list of the one entry "Removed field: amount".  The
    other fields, [pre] before and [post] after it, are any fields not named
    [amount]. *)
Theorem detect_amount_nullable_and_removed
    (pre post : list SchemaField.t) (f : SchemaField.t)
    (old_schema tightened removed : Schema.t) :
  SchemaField.name f = "amount" →
  SchemaField.nullable f = true →
  "amount" ∉ SchemaField.name <$> (pre ++ post) →
  Schema.fields old_schema = pre ++ f :: post →
  Schema.fields tightened = pre ++ SchemaField.with_nullable false f :: post →
  Schema.fields removed = pre ++ post →
  _detect_breaking_changes old_schema tightened
    = ["Field amount changed from nullable to non-nullable"]
  ∧ _detect_breaking_changes old_schema removed = ["Removed field: amount"].
Proof.
  intros Hname Hnull Hnotin Hold Htight Hrem. rewrite <- Hname in Hnotin. split.
  - rewrite (detect_one_field_changed pre post f old_schema Hold
               (SchemaField.with_nullable false f) tightened); [|done| |done].
    + unfold changes_of, changed_step. simpl.
      rewrite !String.eqb_refl, Hnull, Hname. simpl.
      by destruct (SchemaField.primary_key f).
    + rewrite fmap_app, not_elem_of_app in Hnotin. by destruct Hnotin.
  - rewrite (detect_one_field_removed pre post f old_schema Hold removed);
      [by rewrite Hname|done|done].
Qed.

Lemma detect_amount_nullable_and_removed_witness :
  _detect_breaking_changes
      (orders_schema [id_field; amount_field])
      (orders_schema [id_field; SchemaField.with_nullable false amount_field])
    = ["Field amount changed from nullable to non-nullable"]
  ∧ _detect_breaking_changes
      (orders_schema [id_field; amount_field]) (orders_schema [id_field])
    = ["Removed field: amount"].
Proof.
  apply (detect_amount_nullable_and_removed [id_field] [] amount_field);
    try reflexivity.
  vm_compute. intros Hin. inversion Hin as [|? ? ? Hin']; subst. inversion Hin'.
Defined.

(** ** The validator's loops *)

Lemma field_loop_snoc schema_type st fields field :
  field_loop schema_type st (fields ++ [field])
  = field_step schema_type (field_loop schema_type st fields) field.
Proof. unfold field_loop. by rewrite foldl_app. Qed.

Lemma field_loop_app schema_type st fields1 fields2 :
  field_loop schema_type st (fields1 ++ fields2)
  = field_loop schema_type (field_loop schema_type st fields1) fields2.
Proof. unfold field_loop. by rewrite foldl_app. Qed.

Lemma field_loop_cons schema_type st field fields :
  field_loop schema_type st (field :: fields)
  = field_loop schema_type (field_step schema_type st field) fields.
Proof. done. Qed.

(** Errors are only ever appended, names only ever added. *)
Lemma field_step_errors_mono schema_type st field e :
  e ∈ fl_errors st → e ∈ fl_errors (field_step schema_type st field).
Proof.
  intros He. unfold field_step.
  destruct (PyStr.is_empty _); simpl; [set_solver|].
  destruct (bool_decide _), (negb _); set_solver.
Qed.

Lemma field_step_names_mono schema_type st field n :
  n ∈ fl_field_names st → n ∈ fl_field_names (field_step schema_type st field).
Proof.
  intros Hn. unfold field_step.
  destruct (PyStr.is_empty _); simpl; set_solver.
Qed.

Lemma field_loop_errors_mono schema_type st fields e :
  e ∈ fl_errors st → e ∈ fl_errors (field_loop schema_type st fields).
Proof.
  revert st. induction fields as [|f fields IH]; intros st He; [done|].
  rewrite field_loop_cons. by apply IH, field_step_errors_mono.
Qed.

Lemma field_loop_names_mono schema_type st fields n :
  n ∈ fl_field_names st → n ∈ fl_field_names (field_loop schema_type st fields).
Proof.
  revert st. induction fields as [|f fields IH]; intros st Hn; [done|].
  rewrite field_loop_cons. by apply IH, field_step_names_mono.
Qed.

Lemma index_step_mono names errs index e :
  e ∈ errs → e ∈ index_step names errs index.
Proof.
  unfold index_step. revert errs.
  induction (SchemaIndex.fields index) as [|n l IH]; intros errs He; [done|].
  simpl. apply IH. destruct (bool_decide _); set_solver.
Qed.

Lemma index_loop_mono names errs indexes e :
  e ∈ errs → e ∈ foldl (index_step names) errs indexes.
Proof.
  revert errs. induction indexes as [|i l IH]; intros errs He; [done|].
  simpl. by apply IH, index_step_mono.
Qed.

Lemma relationship_loop_mono names errs rels e :
  e ∈ errs → e ∈ foldl (relationship_step names) errs rels.
Proof.
  revert errs. induction rels as [|r l IH]; intros errs He; [done|].
  simpl. apply IH. unfold relationship_step. destruct (bool_decide _); set_solver.
Qed.

(** An error recorded by the field loop is an error of the result. *)
Lemma validate_schema_field_error schema e :
  (∀ st, e ∈ fl_errors (field_loop (Schema.schema_type schema) st (Schema.fields schema))) →
  e ∈ errors (validate_schema schema).
Proof.
  intros He. unfold validate_schema. simpl.
  apply relationship_loop_mono, index_loop_mono, He.
Qed.

Lemma is_empty_true s : PyStr.is_empty s = true ↔ s = "".
Proof. by destruct s. Qed.

Lemma is_empty_false s : PyStr.is_empty s = false ↔ s ≠ "".
Proof. by destruct s. Qed.

(** A named field adds its name. *)
Lemma field_step_adds_name schema_type st field :
  SchemaField.name field ≠ "" →
  SchemaField.name field ∈ fl_field_names (field_step schema_type st field).
Proof.
  intros Hn%is_empty_false. unfold field_step. rewrite Hn. simpl. set_solver.
Qed.

(** A named field whose data type is not accepted adds its error. *)
Lemma field_step_invalid_type schema_type st field :
  SchemaField.name field ≠ "" →
  _is_valid_data_type (SchemaField.data_type field) schema_type = false →
  ("Invalid data type " +:+ SchemaField.data_type field +:+ " for field "
     +:+ SchemaField.name field) ∈ fl_errors (field_step schema_type st field).
Proof.
  intros Hn%is_empty_false Hdt. unfold field_step. rewrite Hn, Hdt. simpl.
  set_solver.
Qed.

(** A named field whose name was seen adds the duplicate error. *)
Lemma field_step_duplicate schema_type st field :
  SchemaField.name field ≠ "" →
  SchemaField.name field ∈ fl_field_names st →
  ("Duplicate field name: " +:+ SchemaField.name field)
    ∈ fl_errors (field_step schema_type st field).
Proof.
  intros Hn%is_empty_false Hseen. unfold field_step. rewrite Hn.
  rewrite bool_decide_eq_true_2 by done. simpl.
  destruct (negb _); set_solver.
Qed.

(** The loop over fields without defects: nothing is recorded. *)
Lemma field_loop_clean schema_type st fields :
  Forall (fun f => SchemaField.name f ≠ ""
                   ∧ _is_valid_data_type (SchemaField.data_type f) schema_type = true
                   ∧ SchemaField.primary_key f = false) fields →
  NoDup (SchemaField.name <$> fields) →
  (∀ f, f ∈ fields → SchemaField.name f ∉ fl_field_names st) →
  field_loop schema_type st fields
  = {| fl_errors := fl_errors st;
       fl_field_names := fl_field_names st ∪ list_to_set (SchemaField.name <$> fields);
       fl_primary_keys := fl_primary_keys st |}.
Proof.
  revert st. induction fields as [|f fields IH]; intros st Hall Hnd Hfresh.
  - simpl. destruct st. simpl. f_equal. set_solver.
  - apply Forall_cons in Hall as [(Hn%is_empty_false & Hdt & Hpk) Hall].
    rewrite fmap_cons in Hnd. apply NoDup_cons in Hnd as [Hf Hnd].
    rewrite field_loop_cons, IH; [| done | done |].
    + unfold field_step. rewrite Hn, Hdt, Hpk.
      rewrite bool_decide_eq_false_2 by (apply Hfresh; left). simpl.
      f_equal. set_solver.
    + intros g Hg. unfold field_step. rewrite Hn. simpl.
      apply not_elem_of_union. split; [apply Hfresh; by right|].
      intros Heq%elem_of_singleton. apply Hf. rewrite <- Heq.
      apply list_elem_of_fmap. by exists g.
Qed.

(** The loop over unnamed fields: one missing-name error each, nothing else. *)
Lemma field_loop_unnamed schema_type st fields :
  Forall (fun f => SchemaField.name f = "") fields →
  field_loop schema_type st fields
  = {| fl_errors := fl_errors st ++ replicate (length fields) missing_name_error;
       fl_field_names := fl_field_names st;
       fl_primary_keys := fl_primary_keys st |}.
Proof.
  revert st. induction fields as [|f fields IH]; intros st Hall.
  - simpl. destruct st. simpl. by rewrite app_nil_r.
  - apply Forall_cons in Hall as [Hn%is_empty_true Hall].
    rewrite field_loop_cons, IH by done.
    unfold field_step. rewrite Hn. simpl. by rewrite <- app_assoc.
Qed.

Lemma index_loop_clean names errs indexes :
  Forall (fun i => Forall (fun n => n ∈ names) (SchemaIndex.fields i)) indexes →
  foldl (index_step names) errs indexes = errs.
Proof.
  induction 1 as [|i l Hi _ IH]; [done|]. simpl. rewrite <- IH at 2. f_equal.
  unfold index_step. clear IH. revert errs.
  induction Hi as [|n ns Hn _ IHn]; intros errs; [done|]. simpl.
  by rewrite bool_decide_eq_true_2.
Qed.

Lemma relationship_loop_clean names errs rels :
  Forall (fun r => SchemaRelationship.source_field r ∈ names) rels →
  foldl (relationship_step names) errs rels = errs.
Proof.
  induction 1 as [|r l Hr _ IH]; [done|]. simpl. rewrite <- IH at 2. f_equal.
  unfold relationship_step. by rewrite bool_decide_eq_true_2.
Qed.

Lemma validate_schema_valid schema :
  valid (validate_schema schema)
  = (length (errors (validate_schema schema)) =? 0)%nat.
Proof. done. Qed.

Lemma valid_false_iff schema :
  valid (validate_schema schema) = false ↔ errors (validate_schema schema) ≠ [].
Proof.
  rewrite validate_schema_valid.
  destruct (errors (validate_schema schema)); simpl; split; congruence.
Qed.

Lemma valid_false_of_error schema e :
  e ∈ errors (validate_schema schema) → valid (validate_schema schema) = false.
Proof. intros He. apply valid_false_iff. by intros Heq; rewrite Heq in He; inversion He. Qed.

(** The result of validating a relational schema without defects and without
    a primary key. *)
Lemma validate_well_formed_no_key schema :
  Schema.schema_type schema = RELATIONAL →
  well_formed schema →
  Forall (fun f => SchemaField.primary_key f = false) (Schema.fields schema) →
  errors (validate_schema schema) = []
  ∧ "Relational schema should have a primary key" ∈ warnings (validate_schema schema).
Proof.
  intros Hrel (Hname%is_empty_false & Hfields & Hall & Hnd & Hidx & Hrels) Hpk.
  unfold validate_schema. rewrite Hname, Hrel.
  assert (is_nil (Schema.fields schema) = false) as ->
      by (by destruct (Schema.fields schema)).
  rewrite field_loop_clean; [| |done|set_solver].
  - simpl. rewrite union_empty_l_L.
    rewrite index_loop_clean, relationship_loop_clean.
    + split; [done|]. destruct (_ && _); set_solver.
    + eapply Forall_impl; [exact Hrels|]. intros r Hr. simpl in Hr. set_solver.
    + eapply Forall_impl; [exact Hidx|]. intros i Hi. simpl in Hi.
      eapply Forall_impl; [exact Hi|]. intros n Hn. simpl in Hn. set_solver.
  - rewrite Hrel in Hall. rewrite Forall_forall in *. naive_solver.
Qed.

(** The second of two fields of one name is reported. *)
Lemma validate_duplicate schema pre mid post f1 f2 :
  SchemaField.name f1 ≠ "" →
  SchemaField.name f2 = SchemaField.name f1 →
  Schema.fields schema = pre ++ f1 :: mid ++ f2 :: post →
  ("Duplicate field name: " +:+ SchemaField.name f1) ∈ errors (validate_schema schema).
Proof.
  intros Hn Heq Hfields. apply validate_schema_field_error. intros st.
  rewrite Hfields, field_loop_app, field_loop_cons, field_loop_app, field_loop_cons.
  apply field_loop_errors_mono. rewrite <- Heq.
  apply field_step_duplicate; [by rewrite Heq|]. rewrite Heq.
  by apply field_loop_names_mono, field_step_adds_name.
Qed.

(** C6. [valid] is false exactly when an error was recorded, so warnings
    never affect it.  A relational schema with no defects and no field marked
    as primary key gets the primary-key warning and is valid; a schema with
    two fields named [id] gets the error "Duplicate field name: id" and is not
    valid. *)
Theorem validate_schema_validity :
  (∀ schema,
      valid (validate_schema schema) = false ↔ errors (validate_schema schema) ≠ [])
  ∧ (∀ schema,
      Schema.schema_type schema = RELATIONAL →
      well_formed schema →
      Forall (fun f => SchemaField.primary_key f = false) (Schema.fields schema) →
      "Relational schema should have a primary key" ∈ warnings (validate_schema schema)
      ∧ errors (validate_schema schema) = []
      ∧ valid (validate_schema schema) = true)
  ∧ (∀ schema pre mid post f1 f2,
      SchemaField.name f1 = "id" →
      SchemaField.name f2 = "id" →
      Schema.fields schema = pre ++ f1 :: mid ++ f2 :: post →
      "Duplicate field name: id" ∈ errors (validate_schema schema)
      ∧ valid (validate_schema schema) = false).
Proof.
  split_and!.
  - apply valid_false_iff.
  - intros schema Hrel Hwf Hpk.
    destruct (validate_well_formed_no_key schema Hrel Hwf Hpk) as [Herr Hwarn].
    split_and!; [done..|]. by rewrite validate_schema_valid, Herr.
  - intros schema pre mid post f1 f2 H1 H2 Hfields.
    assert ("Duplicate field name: id" ∈ errors (validate_schema schema)) as He.
    { change "Duplicate field name: id" with ("Duplicate field name: " +:+ "id").
      rewrite <- H1.
      apply (validate_duplicate schema pre mid post f1 f2); [|congruence|done].
      by rewrite H1. }
    split; [done|]. by eapply valid_false_of_error.
Qed.

Lemma validate_schema_validity_witness :
  ("Relational schema should have a primary key"
     ∈ warnings (validate_schema (orders_schema [amount_field]))
   ∧ errors (validate_schema (orders_schema [amount_field])) = []
   ∧ valid (validate_schema (orders_schema [amount_field])) = true)
  ∧ ("Duplicate field name: id"
       ∈ errors (validate_schema (orders_schema [id_field; amount_field; id_field]))
     ∧ valid (validate_schema (orders_schema [id_field; amount_field; id_field])) = false).
Proof.
  destruct validate_schema_validity as (_ & Hnokey & Hdup). split.
  - apply Hnokey; [reflexivity| |by repeat constructor].
    unfold well_formed. simpl. split_and!; try done.
    + by repeat constructor.
    + apply NoDup_singleton.
  - by apply (Hdup _ [] [amount_field] [] id_field id_field).
Defined.

(** ** Data types and unnamed fields *)

Lemma str_in_elem_of x l : str_in x l = true ↔ x ∈ l.
Proof.
  unfold str_in. rewrite existsb_exists. split.
  - intros (y & Hy%list_elem_of_In & ->%String.eqb_eq). done.
  - intros Hx. exists x. split; [by apply list_elem_of_In|apply String.eqb_refl].
Qed.

Lemma graph_rejects_all data_type : _is_valid_data_type data_type GRAPH = false.
Proof. done. Qed.

(** In a schema of a type without a whitelist every named field is reported. *)
Lemma validate_graph_field schema f :
  Schema.schema_type schema = GRAPH →
  f ∈ Schema.fields schema →
  SchemaField.name f ≠ "" →
  invalid_type_error f ∈ errors (validate_schema schema).
Proof.
  intros Hty Hin Hn. apply validate_schema_field_error. intros st.
  apply list_elem_of_split in Hin as (pre & post & ->).
  rewrite field_loop_app, field_loop_cons.
  apply field_loop_errors_mono, field_step_invalid_type; [done|].
  rewrite Hty. apply graph_rejects_all.
Qed.

(** C7, as stated, fails: in a GRAPH schema a field without a name is not
    checked for its data type, so no invalid-data-type error is produced for
    it, although its data type is in no whitelist. *)
Lemma graph_unnamed_field_not_type_checked :
  let f := unnamed_field "INTEGER" in
  let schema := graph_schema [f] in
  Schema.schema_type schema = GRAPH
  ∧ f ∈ Schema.fields schema
  ∧ _is_valid_data_type (SchemaField.data_type f) (Schema.schema_type schema) = false
  ∧ errors (validate_schema schema) = ["All fields must have a name"]
  ∧ invalid_type_error f ∉ errors (validate_schema schema).
Proof.
  cbv zeta. split_and!; try done.
  - left.
  - vm_compute. intros Hin. inversion Hin as [|? ? ? Hin']. inversion Hin'.
Qed.

Lemma prefix_append p s : String.prefix p (p +:+ s) = true.
Proof.
  induction p as [|c p IH]; simpl; [by destruct s|].
  by destruct (Ascii.ascii_dec c c).
Qed.

(** Two prefixes of one string are prefixes of one another. *)
Lemma prefix_comparable p q e :
  String.prefix p e = true → String.prefix q e = true →
  String.prefix p q = true ∨ String.prefix q p = true.
Proof.
  revert p q. induction e as [|a e IH]; intros [|c p] [|d q]; simpl;
    try (by auto); try (by left; destruct p); try (by right; destruct q).
  destruct (Ascii.ascii_dec c a) as [->|]; [|done].
  destruct (Ascii.ascii_dec d a) as [->|]; [|done].
  destruct (Ascii.ascii_dec a a); [|done]. apply IH.
Qed.

Lemma prefix_excludes p q e :
  String.prefix p q = false → String.prefix q p = false →
  String.prefix p e = true → String.prefix q e = false.
Proof.
  intros Hpq Hqp Hp. destruct (String.prefix q e) eqn:Hq; [|done].
  destruct (prefix_comparable p q e Hp Hq); congruence.
Qed.

Lemma index_step_errors names errs index e :
  e ∈ index_step names errs index →
  e ∈ errs ∨ String.prefix "Index " e = true.
Proof.
  unfold index_step. revert errs.
  induction (SchemaIndex.fields index) as [|n l IH]; intros errs; [by left|].
  simpl. intros [He|He]%IH; [|by right].
  destruct (bool_decide _); [by left|].
  apply elem_of_app in He as [He| ->%list_elem_of_singleton]; [by left|].
  right. apply prefix_append.
Qed.

Lemma index_loop_errors names errs indexes e :
  e ∈ foldl (index_step names) errs indexes →
  e ∈ errs ∨ String.prefix "Index " e = true.
Proof.
  revert errs. induction indexes as [|i l IH]; intros errs; [by left|].
  simpl. intros [He|He]%IH; [|by right]. by apply index_step_errors in He.
Qed.

Lemma relationship_loop_errors names errs rels e :
  e ∈ foldl (relationship_step names) errs rels →
  e ∈ errs ∨ String.prefix "Relationship " e = true.
Proof.
  revert errs. induction rels as [|r l IH]; intros errs; [by left|].
  simpl. intros [He|He]%IH; [|by right].
  unfold relationship_step in He. destruct (bool_decide _); [by left|].
  apply elem_of_app in He as [He| ->%list_elem_of_singleton]; [by left|].
  right. apply prefix_append.
Qed.

Lemma validate_schema_errors schema :
  errors (validate_schema schema)
  = foldl (relationship_step (fl_field_names (field_pass schema)))
      (foldl (index_step (fl_field_names (field_pass schema)))
             (fl_errors (field_pass schema)) (Schema.indexes schema))
      (Schema.relationships schema).
Proof.
  unfold validate_schema, field_pass. cbn [errors].
  by destruct (PyStr.is_empty _), (is_nil _).
Qed.

(** The errors of a schema all of whose fields are unnamed. *)
Lemma validate_unnamed_errors schema e :
  Forall (fun f => SchemaField.name f = "") (Schema.fields schema) →
  e ∈ errors (validate_schema schema) →
  e = "Schema name is required" ∨ e = "Schema must have at least one field"
  ∨ e = missing_name_error
  ∨ String.prefix "Index " e = true ∨ String.prefix "Relationship " e = true.
Proof.
  intros Hall. rewrite validate_schema_errors.
  intros [[He|He]%index_loop_errors|He]%relationship_loop_errors; [|by eauto..].
  unfold field_pass in He. rewrite field_loop_unnamed in He by done.
  cbn [fl_errors] in He.
  apply elem_of_app in He as [He|[-> _]%elem_of_replicate]; [|by eauto].
  destruct (PyStr.is_empty _), (is_nil _); set_solver.
Qed.

(** ** The whitelist of data types *)

Lemma upper_lower_char c : PyStr.upper_char (PyStr.lower_char c) = PyStr.upper_char c.
Proof. by destruct c as [[] [] [] [] [] [] [] []]. Qed.

Lemma upper_lower s : PyStr.upper (PyStr.lower s) = PyStr.upper s.
Proof.
  unfold PyStr.lower, PyStr.upper.
  induction s as [|c s IH]; [done|]. cbn [PyStr.map_chars].
  by rewrite upper_lower_char, IH.
Qed.

(** Every listed type is written in upper case. *)
Lemma valid_types_upper schema_type data_type :
  data_type ∈ valid_types_get schema_type → PyStr.upper data_type = data_type.
Proof.
  assert (∀ l : list string,
             forallb (fun t => String.eqb (PyStr.upper t) t) l = true →
             data_type ∈ l → PyStr.upper data_type = data_type) as Hall.
  { intros l Hl Hin. rewrite forallb_forall in Hl.
    by apply String.eqb_eq, Hl, list_elem_of_In. }
  destruct schema_type; apply Hall; reflexivity.
Qed.

(** The errors the loop over the fields adds. *)
Lemma field_step_errors schema_type st field e :
  e ∈ fl_errors (field_step schema_type st field) →
  e ∈ fl_errors st ∨ e = missing_name_error
  ∨ String.prefix "Duplicate field name: " e = true
  ∨ (SchemaField.name field ≠ ""
     ∧ _is_valid_data_type (SchemaField.data_type field) schema_type = false
     ∧ e = invalid_type_error field).
Proof.
  unfold field_step.
  destruct (PyStr.is_empty (SchemaField.name field)) eqn:Hn; cbn [fl_errors].
  - intros [He| ->%list_elem_of_singleton]%elem_of_app; by eauto.
  - apply is_empty_false in Hn.
    destruct (_is_valid_data_type _ _) eqn:Hdt; cbn [negb].
    + destruct (bool_decide _); [|by left].
      intros [He| ->%list_elem_of_singleton]%elem_of_app; [by left|].
      right; right; left. apply prefix_append.
    + intros [He| ->%list_elem_of_singleton]%elem_of_app; [|by eauto 10].
      destruct (bool_decide _); [|by left].
      apply elem_of_app in He as [He| ->%list_elem_of_singleton]; [by left|].
      right; right; left. apply prefix_append.
Qed.

Lemma field_loop_errors schema_type st fields e :
  e ∈ fl_errors (field_loop schema_type st fields) →
  e ∈ fl_errors st ∨ e = missing_name_error
  ∨ String.prefix "Duplicate field name: " e = true
  ∨ ∃ f, f ∈ fields ∧ SchemaField.name f ≠ ""
         ∧ _is_valid_data_type (SchemaField.data_type f) schema_type = false
         ∧ e = invalid_type_error f.
Proof.
  revert st. induction fields as [|f fields IH]; intros st; [by left|].
  rewrite field_loop_cons.
  intros [He|[He|[He|(g & Hg & Hrest)]]]%IH; [|by eauto..|].
  - apply field_step_errors in He as [He|[He|[He|He]]]; [by eauto..|].
    right; right; right. exists f. split; [left|done].
  - right; right; right. exists g. split; [by right|done].
Qed.

(** A named field whose data type is refused is reported. *)
Lemma validate_refused_field schema f :
  f ∈ Schema.fields schema →
  SchemaField.name f ≠ "" →
  _is_valid_data_type (SchemaField.data_type f) (Schema.schema_type schema) = false →
  invalid_type_error f ∈ errors (validate_schema schema).
Proof.
  intros Hin Hn Hdt. apply validate_schema_field_error. intros st.
  apply list_elem_of_split in Hin as (pre & post & ->).
  rewrite field_loop_app, field_loop_cons.
  by apply field_loop_errors_mono, field_step_invalid_type.
Qed.

(** An error about a data type is that of a named field whose data type is
    refused. *)
Lemma validate_type_error_origin schema e :
  String.prefix "Invalid data type " e = true →
  e ∈ errors (validate_schema schema) →
  ∃ f, f ∈ Schema.fields schema ∧ SchemaField.name f ≠ ""
       ∧ _is_valid_data_type (SchemaField.data_type f) (Schema.schema_type schema) = false
       ∧ e = invalid_type_error f.
Proof.
  intros Hpre. rewrite validate_schema_errors.
  intros [[He|He]%index_loop_errors|He]%relationship_loop_errors.
  - unfold field_pass in He.
    apply field_loop_errors in He as [He|[->|[He|He]]]; [| done | | done].
    + cbn [fl_errors] in He.
      destruct (PyStr.is_empty _), (is_nil _); cbn in He;
        repeat (apply elem_of_cons in He as [->|He]; [done|]);
        by apply elem_of_nil in He.
    + by rewrite (prefix_excludes "Invalid data type " "Duplicate field name: " e)
        in He.
  - by rewrite (prefix_excludes "Invalid data type " "Index " e) in He.
  - by rewrite (prefix_excludes "Invalid data type " "Relationship " e) in He.
Qed.

(** C7, amended.  A data type is accepted exactly when its upper-cased form
    is in the whitelist of the schema type.  The table has the five keys
    RELATIONAL, DOCUMENT, KEY_VALUE, TIME_SERIES and COLUMNAR, with the lists
    below; every listed type is accepted, written in upper or in lower case.
    For a schema type outside the five keys (GRAPH) the whitelist is empty
    and every data type is refused.  In the validation of a schema, a field
    that has a name gets an invalid-data-type error exactly when its data
    type is refused, so every named field of a schema outside the five keys
    gets one; a field without a name gets none. *)
Theorem data_type_whitelist :
  (∀ data_type schema_type,
      _is_valid_data_type data_type schema_type = true
      ↔ PyStr.upper data_type ∈ valid_types_get schema_type)
  ∧ valid_types.*1 = [RELATIONAL; DOCUMENT; KEY_VALUE; TIME_SERIES; COLUMNAR]
  ∧ valid_types_get RELATIONAL
    = ["INTEGER"; "BIGINT"; "SMALLINT"; "DECIMAL"; "NUMERIC"; "REAL"; "DOUBLE";
       "VARCHAR"; "CHAR"; "TEXT"; "BOOLEAN"; "DATE"; "TIME"; "TIMESTAMP";
       "UUID"; "JSON"; "JSONB"; "ARRAY"]
  ∧ valid_types_get DOCUMENT
    = ["STRING"; "NUMBER"; "BOOLEAN"; "DATE"; "OBJECT"; "ARRAY"; "NULL"]
  ∧ valid_types_get KEY_VALUE
    = ["STRING"; "HASH"; "LIST"; "SET"; "SORTED_SET"; "BITMAP"; "HYPERLOGLOG"]
  ∧ valid_types_get TIME_SERIES
    = ["TIMESTAMP"; "DOUBLE"; "INTEGER"; "STRING"; "BOOLEAN"; "TAG"]
  ∧ valid_types_get COLUMNAR
    = ["INT32"; "INT64"; "FLOAT"; "DOUBLE"; "STRING"; "BOOLEAN"; "DATE"; "TIMESTAMP"]
  ∧ (∀ schema_type data_type,
      data_type ∈ valid_types_get schema_type →
      _is_valid_data_type data_type schema_type = true
      ∧ _is_valid_data_type (PyStr.lower data_type) schema_type = true)
  ∧ (∀ schema_type,
      schema_type ∉ [RELATIONAL; DOCUMENT; KEY_VALUE; TIME_SERIES; COLUMNAR] →
      valid_types_get schema_type = []
      ∧ ∀ data_type, _is_valid_data_type data_type schema_type = false)
  ∧ (∀ schema f,
      f ∈ Schema.fields schema →
      SchemaField.name f ≠ "" →
      _is_valid_data_type (SchemaField.data_type f) (Schema.schema_type schema) = false →
      invalid_type_error f ∈ errors (validate_schema schema))
  ∧ (∀ schema e,
      String.prefix "Invalid data type " e = true →
      e ∈ errors (validate_schema schema) →
      ∃ f, f ∈ Schema.fields schema ∧ SchemaField.name f ≠ ""
           ∧ _is_valid_data_type (SchemaField.data_type f)
                                 (Schema.schema_type schema) = false
           ∧ e = invalid_type_error f)
  ∧ (∀ schema f,
      Schema.schema_type schema
        ∉ [RELATIONAL; DOCUMENT; KEY_VALUE; TIME_SERIES; COLUMNAR] →
      f ∈ Schema.fields schema →
      SchemaField.name f ≠ "" →
      invalid_type_error f ∈ errors (validate_schema schema)).
Proof.
  do 7 (split; [first [done | intros; apply str_in_elem_of]|]).
  split; [|split; [|split; [|split]]].
  - intros schema_type data_type Hin.
    unfold _is_valid_data_type.
    rewrite upper_lower, (valid_types_upper _ _ Hin).
    split; by apply str_in_elem_of.
  - intros [] Hout; try (by destruct Hout; set_solver). done.
  - apply validate_refused_field.
  - apply validate_type_error_origin.
  - intros schema f Hout. apply validate_graph_field.
    destruct (Schema.schema_type schema); try (by destruct Hout; set_solver). done.
Qed.

Lemma data_type_whitelist_witness :
  (_is_valid_data_type "BIGINT" RELATIONAL = true
   ∧ _is_valid_data_type "bigint" RELATIONAL = true)
  ∧ (valid_types_get GRAPH = []
     ∧ ∀ data_type, _is_valid_data_type data_type GRAPH = false)
  ∧ invalid_type_error (SchemaField.default "total" "MONEY")
      ∈ errors (validate_schema (orders_schema [SchemaField.default "total" "MONEY"]))
  ∧ invalid_type_error (SchemaField.default "src" "INTEGER")
      ∈ errors (validate_schema (graph_schema [SchemaField.default "src" "INTEGER"])).
Proof.
  destruct data_type_whitelist
    as (_ & _ & Hrel & _ & _ & _ & _ & Hlisted & Hgraph & Hrefused & _ & Hfield).
  assert (GRAPH ∉ [RELATIONAL; DOCUMENT; KEY_VALUE; TIME_SERIES; COLUMNAR]) as Hout.
  { intros Hin. repeat (inversion Hin as [|? ? ? Hin']; clear Hin; rename Hin' into Hin). }
  split; [|split; [|split]].
  - apply Hlisted. rewrite Hrel. right. left.
  - by apply Hgraph.
  - apply Hrefused; [left|discriminate|reflexivity].
  - apply Hfield; [exact Hout|left|discriminate].
Defined.

(** C10. A field with an empty name adds the error "All fields must have a
    name" and nothing else happens for it: the set of field names and the
    list of primary keys are as before and no other error is added, whatever
    its data type.  So a run of unnamed fields adds one such error each, two
    unnamed fields give two missing-name errors, and a schema whose fields
    are all unnamed has no duplicate-name error and no invalid-data-type
    error. *)
Theorem unnamed_field_only_missing_name :
  (∀ schema_type st field,
      SchemaField.name field = "" →
      field_step schema_type st field
      = {| fl_errors := fl_errors st ++ ["All fields must have a name"];
           fl_field_names := fl_field_names st;
           fl_primary_keys := fl_primary_keys st |})
  ∧ (∀ schema_type st fields,
      Forall (fun f => SchemaField.name f = "") fields →
      field_loop schema_type st fields
      = {| fl_errors := fl_errors st
                          ++ replicate (length fields) "All fields must have a name";
           fl_field_names := fl_field_names st;
           fl_primary_keys := fl_primary_keys st |})
  ∧ (∀ schema f1 f2,
      SchemaField.name f1 = "" → SchemaField.name f2 = "" →
      Schema.fields schema = [f1; f2] →
      Schema.name schema ≠ "" →
      Schema.indexes schema = [] → Schema.relationships schema = [] →
      errors (validate_schema schema)
      = ["All fields must have a name"; "All fields must have a name"])
  ∧ (∀ schema e,
      Forall (fun f => SchemaField.name f = "") (Schema.fields schema) →
      e ∈ errors (validate_schema schema) →
      String.prefix "Duplicate field name: " e = false
      ∧ String.prefix "Invalid data type " e = false).
Proof.
  split_and!.
  - intros schema_type st field Hn%is_empty_true. unfold field_step. by rewrite Hn.
  - apply field_loop_unnamed.
  - intros schema f1 f2 H1 H2 Hfields Hname%is_empty_false Hidx Hrel.
    rewrite validate_schema_errors, Hidx, Hrel. cbn [foldl].
    unfold field_pass. rewrite Hname, Hfields.
    rewrite (field_loop_unnamed _ _ [f1; f2]) by (by repeat constructor). done.
  - intros schema e Hall He.
    destruct (validate_unnamed_errors schema e Hall He)
      as [-> | [-> | [-> | [Hp | Hp]]]]; try done.
    + split; by apply (prefix_excludes "Index ").
    + split; by apply (prefix_excludes "Relationship ").
Qed.

Lemma unnamed_field_only_missing_name_witness :
  errors (validate_schema
            (orders_schema [unnamed_field "INTEGER"; unnamed_field "no such type"]))
  = ["All fields must have a name"; "All fields must have a name"].
Proof.
  destruct unnamed_field_only_missing_name as (_ & _ & Htwo & _).
  by apply (Htwo _ (unnamed_field "INTEGER") (unnamed_field "no such type")).
Defined.

(** ** The content hash *)

Lemma hashed_dict_unfold schema :
  hashed_dict schema
  = [ ("name", JStr (Schema.name schema));
      ("version", JStr (Schema.version schema));
      ("schema_type", JStr (SchemaType_str (Schema.schema_type schema)));
      ("description", JStr (Schema.description schema));
      ("fields", JList (map asdict_SchemaField (Schema.fields schema)));
      ("indexes", JList (map asdict_SchemaIndex (Schema.indexes schema)));
      ("relationships",
        JList (map asdict_SchemaRelationship (Schema.relationships schema)));
      ("business_owner", json_of_option_str (Schema.business_owner schema));
      ("technical_owner", json_of_option_str (Schema.technical_owner schema));
      ("classification", JStr (DataClassification_str (Schema.classification schema)));
      ("retention_policy", json_of_option_str (Schema.retention_policy schema));
      ("backup_policy", json_of_option_str (Schema.backup_policy schema));
      ("tags", json_of_strings (Schema.tags schema)) ].
Proof. done. Qed.

Lemma SchemaType_str_inj t1 t2 : SchemaType_str t1 = SchemaType_str t2 → t1 = t2.
Proof. by destruct t1, t2. Qed.

Lemma DataClassification_str_inj c1 c2 :
  DataClassification_str c1 = DataClassification_str c2 → c1 = c2.
Proof. by destruct c1, c2. Qed.

Lemma json_of_option_str_inj o1 o2 :
  json_of_option_str o1 = json_of_option_str o2 → o1 = o2.
Proof. destruct o1, o2; simpl; congruence. Qed.

Lemma map_inj {A B} (f : A → B) (l1 l2 : list A) :
  (∀ x y, f x = f y → x = y) → map f l1 = map f l2 → l1 = l2.
Proof.
  intros Hf. revert l2. induction l1 as [|x l1 IH]; intros [|y l2]; simpl; try done.
  intros [= Hxy Heq]. f_equal; [by apply Hf|by apply IH].
Qed.

Lemma map_JStr_inj l1 l2 : map JStr l1 = map JStr l2 → l1 = l2.
Proof. apply map_inj. congruence. Qed.

Lemma asdict_SchemaIndex_inj i1 i2 :
  asdict_SchemaIndex i1 = asdict_SchemaIndex i2 → i1 = i2.
Proof.
  destruct i1, i2. unfold asdict_SchemaIndex. cbn [SchemaIndex.name SchemaIndex.fields
    SchemaIndex.unique SchemaIndex.type SchemaIndex.partial_condition
    SchemaIndex.description].
  intros Heq. injection Heq as -> Hf -> -> Hp Hd.
  apply map_JStr_inj in Hf as ->.
  apply json_of_option_str_inj in Hp as ->.
  by apply json_of_option_str_inj in Hd as ->.
Qed.

Lemma asdict_SchemaRelationship_inj r1 r2 :
  asdict_SchemaRelationship r1 = asdict_SchemaRelationship r2 → r1 = r2.
Proof.
  destruct r1, r2. unfold asdict_SchemaRelationship. simpl.
  by intros [= -> -> -> -> -> -> -> ->].
Qed.

(** C9. The hash is the digest of the serialised dictionary of every
    attribute of the schema but [metadata]: the hashed dictionary has the
    thirteen other keys, each with the value of its attribute, and no
    [metadata] key.  That dictionary is the same for two schemas exactly when
    they agree on the thirteen attributes (on the fields as they are
    serialised), so every one of them reaches the hash; and two schemas that
    agree on the thirteen attributes have the same hash, whatever their
    metadata. *)
Theorem schema_hash_ignores_metadata
    (json_dumps : json → string) (sha256_hexdigest : string → string) :
  (∀ schema,
      PyDict.keys (hashed_dict schema)
      = ["name"; "version"; "schema_type"; "description"; "fields"; "indexes";
         "relationships"; "business_owner"; "technical_owner"; "classification";
         "retention_policy"; "backup_policy"; "tags"])
  ∧ (∀ schema,
      _generate_schema_hash json_dumps sha256_hexdigest schema
      = sha256_hexdigest (json_dumps (JObj (hashed_dict schema)))
      ∧ hashed_dict schema
        = [ ("name", JStr (Schema.name schema));
            ("version", JStr (Schema.version schema));
            ("schema_type", JStr (SchemaType_str (Schema.schema_type schema)));
            ("description", JStr (Schema.description schema));
            ("fields", JList (map asdict_SchemaField (Schema.fields schema)));
            ("indexes", JList (map asdict_SchemaIndex (Schema.indexes schema)));
            ("relationships",
              JList (map asdict_SchemaRelationship (Schema.relationships schema)));
            ("business_owner", json_of_option_str (Schema.business_owner schema));
            ("technical_owner", json_of_option_str (Schema.technical_owner schema));
            ("classification",
              JStr (DataClassification_str (Schema.classification schema)));
            ("retention_policy", json_of_option_str (Schema.retention_policy schema));
            ("backup_policy", json_of_option_str (Schema.backup_policy schema));
            ("tags", json_of_strings (Schema.tags schema)) ])
  ∧ (∀ s1 s2,
      hashed_dict s1 = hashed_dict s2
      ↔ Schema.name s1 = Schema.name s2
        ∧ Schema.version s1 = Schema.version s2
        ∧ Schema.schema_type s1 = Schema.schema_type s2
        ∧ Schema.description s1 = Schema.description s2
        ∧ map asdict_SchemaField (Schema.fields s1)
          = map asdict_SchemaField (Schema.fields s2)
        ∧ Schema.indexes s1 = Schema.indexes s2
        ∧ Schema.relationships s1 = Schema.relationships s2
        ∧ Schema.business_owner s1 = Schema.business_owner s2
        ∧ Schema.technical_owner s1 = Schema.technical_owner s2
        ∧ Schema.classification s1 = Schema.classification s2
        ∧ Schema.retention_policy s1 = Schema.retention_policy s2
        ∧ Schema.backup_policy s1 = Schema.backup_policy s2
        ∧ Schema.tags s1 = Schema.tags s2)
  ∧ (∀ s1 s2,
      Schema.name s1 = Schema.name s2 →
      Schema.version s1 = Schema.version s2 →
      Schema.schema_type s1 = Schema.schema_type s2 →
      Schema.description s1 = Schema.description s2 →
      Schema.fields s1 = Schema.fields s2 →
      Schema.indexes s1 = Schema.indexes s2 →
      Schema.relationships s1 = Schema.relationships s2 →
      Schema.business_owner s1 = Schema.business_owner s2 →
      Schema.technical_owner s1 = Schema.technical_owner s2 →
      Schema.classification s1 = Schema.classification s2 →
      Schema.retention_policy s1 = Schema.retention_policy s2 →
      Schema.backup_policy s1 = Schema.backup_policy s2 →
      Schema.tags s1 = Schema.tags s2 →
      _generate_schema_hash json_dumps sha256_hexdigest s1
      = _generate_schema_hash json_dumps sha256_hexdigest s2).
Proof.
  split; [done|]. split; [done|]. split.
  - intros s1 s2. rewrite !hashed_dict_unfold. split.
    + intros [= Hn Hv Hty%SchemaType_str_inj Hd Hf
                 Hi%(map_inj _ _ _ asdict_SchemaIndex_inj)
                 Hr%(map_inj _ _ _ asdict_SchemaRelationship_inj)
                 Hbo%json_of_option_str_inj Hto%json_of_option_str_inj
                 Hc%DataClassification_str_inj
                 Hrp%json_of_option_str_inj Hbp%json_of_option_str_inj
                 Ht%map_JStr_inj].
      done.
    + intros (Hn & Hv & Hty & Hd & Hf & Hi & Hr & Hbo & Hto & Hc & Hrp & Hbp & Ht).
      by rewrite Hn, Hv, Hty, Hd, Hf, Hi, Hr, Hbo, Hto, Hc, Hrp, Hbp, Ht.
  - intros s1 s2 Hn Hv Hty Hd Hf Hi Hr Hbo Hto Hc Hrp Hbp Ht.
    unfold _generate_schema_hash. rewrite !hashed_dict_unfold.
    by rewrite Hn, Hv, Hty, Hd, Hf, Hi, Hr, Hbo, Hto, Hc, Hrp, Hbp, Ht.
Qed.

Lemma schema_hash_ignores_metadata_witness :
  _generate_schema_hash json_text plain_digest
    (Schema.with_metadata [("team", JStr "billing")] (orders_schema [id_field]))
  = _generate_schema_hash json_text plain_digest
    (Schema.with_metadata [("team", JStr "payments"); ("tier", JNum 1)]
                          (orders_schema [id_field])).
Proof.
  by apply (proj2 (proj2 (proj2 (schema_hash_ignores_metadata json_text plain_digest)))).
Defined.

(** ** Creating a schema *)

Section Lifecycle.
Variable json_dumps : json → string.
Variable sha256_hexdigest : string → string.

Abbreviation create_schema' := (create_schema json_dumps sha256_hexdigest).
Abbreviation update_schema' := (update_schema json_dumps sha256_hexdigest).
Abbreviation schema_document' := (schema_document json_dumps sha256_hexdigest).

Lemma create_schema_invalid utcnow st schema :
  valid (validate_schema schema) = false →
  create_schema' utcnow st schema = (false, st).
Proof. intros Hv. unfold create_schema. by rewrite Hv. Qed.

Lemma create_schema_exists utcnow st schema :
  schema_exists st (Schema.name schema) = true →
  create_schema' utcnow st schema = (false, st).
Proof.
  intros He. unfold create_schema. rewrite He.
  by destruct (negb (valid (validate_schema schema))).
Qed.

(** A successful creation stores the document under the schema's name. *)
Lemma create_schema_stored utcnow st schema st1 :
  create_schema' utcnow st schema = (true, st1) →
  definitions st1 !! definition_file (Schema.name schema)
  = Some (schema_document' schema "created_at" (utcnow 0%nat)).
Proof.
  unfold create_schema.
  destruct (negb (valid (validate_schema schema))); [done|].
  destruct (schema_exists st (Schema.name schema)); [done|].
  intros [= <-]. simpl. apply lookup_insert_eq.
Qed.

Lemma schema_exists_lookup st schema_name doc :
  definitions st !! definition_file schema_name = Some doc →
  schema_exists st schema_name = true.
Proof.
  intros Hdoc. unfold schema_exists. apply bool_decide_eq_true_2. by eauto.
Qed.

(** A document written by the manager itself is not read back: an enum
    member is stored as [str(member)], which [SchemaType(...)] does not
    accept.  Stores in the examples of updates therefore hold hand-written
    documents. *)
Lemma written_document_unreadable schema now :
  load_Schema (schema_document' schema "created_at" now) = None
  ∧ load_Schema (schema_document' schema "updated_at" now) = None.
Proof.
  unfold load_Schema, schema_document. split; cbn;
    destruct (mapM load_SchemaField _); cbn; try done;
    destruct (mapM load_SchemaIndex _); cbn; try done;
    destruct (mapM load_SchemaRelationship _); cbn; try done;
    by destruct (Schema.schema_type schema).
Qed.

Lemma get_schema_after_create utcnow st schema st1 :
  create_schema' utcnow st schema = (true, st1) →
  get_schema st1 (Schema.name schema) = None.
Proof.
  intros Hcreated%create_schema_stored. unfold get_schema. rewrite Hcreated.
  apply written_document_unreadable.
Qed.

(** ** Updating a schema *)

Lemma update_schema_absent utcnow st schema version_info :
  schema_exists st (Schema.name schema) = false →
  update_schema' utcnow st schema version_info
  = {| updated := false; store_after := st; version_info_after := version_info |}.
Proof. intros He. unfold update_schema. by rewrite He. Qed.

Lemma update_schema_invalid utcnow st schema version_info :
  valid (validate_schema schema) = false →
  update_schema' utcnow st schema version_info
  = {| updated := false; store_after := st; version_info_after := version_info |}.
Proof.
  intros Hv. unfold update_schema. rewrite Hv.
  destruct (negb (schema_exists st (Schema.name schema))); [done|].
  by destruct (get_schema st (Schema.name schema)).
Qed.

(** What a successful update has done. *)
Lemma update_schema_success utcnow st schema version_info :
  updated (update_schema' utcnow st schema version_info) = true →
  ∃ current_schema,
    get_schema st (Schema.name schema) = Some current_schema
    ∧ valid (validate_schema schema) = true
    ∧ let r := update_schema' utcnow st schema version_info in
      let breaking_changes := _detect_breaking_changes current_schema schema in
      let flagged :=
        SchemaVersion.set_breaking_changes (negb (is_nil breaking_changes))
                                           version_info in
      version_info_after r = flagged
      ∧ definitions (store_after r)
        = <[ definition_file (Schema.name schema)
             := schema_document' schema "updated_at" (utcnow 0%nat) ]> (definitions st)
      ∧ versions (store_after r)
        = _save_version (versions st) (Schema.name schema) flagged
      ∧ governance (store_after r) = governance st
      ∧ (breaking_changes = [] → migrations (store_after r) = migrations st)
      ∧ (breaking_changes ≠ [] →
           ∃ migration_sql,
             migration_lines (Schema.name schema) current_schema schema flagged
                             (utcnow 1%nat) = Some migration_sql
             ∧ migrations (store_after r)
               = <[ migration_file (Schema.name schema) (SchemaVersion.version flagged)
                    := PyStr.join newline migration_sql ]> (migrations st)).
Proof.
  cbv zeta. unfold update_schema.
  destruct (negb (schema_exists st (Schema.name schema))); [done|].
  destruct (get_schema st (Schema.name schema)) as [current_schema|]; [|done].
  destruct (valid (validate_schema schema)) eqn:Hv; [|done]. simpl.
  intros Hup. exists current_schema. do 2 (split; [done|]).
  destruct (_detect_breaking_changes current_schema schema) as [|c cs] eqn:Hbc.
  - simpl. simpl in Hup. by split_and!.
  - simpl. simpl in Hup. unfold _generate_migration in *.
    destruct (migration_lines _ _ _ _ _) as [migration_sql|] eqn:Hm; [|done].
    simpl. do 5 (split; [done|]). intros _. by exists migration_sql.
Qed.

(** Whatever the detector finds, an update of an existing, readable schema
    by a valid one writes the document and the version record. *)
Lemma update_schema_written utcnow st schema version_info current_schema :
  get_schema st (Schema.name schema) = Some current_schema →
  valid (validate_schema schema) = true →
  let r := update_schema' utcnow st schema version_info in
  definitions (store_after r) !! definition_file (Schema.name schema)
  = Some (schema_document' schema "updated_at" (utcnow 0%nat))
  ∧ versions (store_after r)
    = _save_version (versions st) (Schema.name schema) (version_info_after r)
  ∧ SchemaVersion.breaking_changes (version_info_after r)
    = negb (is_nil (_detect_breaking_changes current_schema schema)).
Proof.
  intros Hget Hv. cbv zeta. unfold update_schema.
  assert (schema_exists st (Schema.name schema) = true) as ->.
  { unfold get_schema in Hget.
    destruct (definitions st !! _) as [doc|] eqn:Hdoc; [|done].
    by eapply schema_exists_lookup. }
  rewrite Hget, Hv. simpl.
  destruct (_detect_breaking_changes current_schema schema) as [|c cs]; simpl.
  - split_and!; [apply lookup_insert_eq|done..].
  - destruct (_generate_migration _ _ _ _ _ _); simpl;
      (split_and!; [apply lookup_insert_eq|done..]).
Qed.

End Lifecycle.

(** C5. [create_schema] returns false and leaves the store as it was (no
    schema, version or governance document is written) when the schema fails
    validation or when a schema of that name exists.  So after a successful
    creation of a schema named [orders], a second creation under that name
    returns false and the document stored by the first is still there. *)
Theorem create_schema_rejects
    (json_dumps : json → string) (sha256_hexdigest : string → string) :
  (∀ utcnow st schema,
      valid (validate_schema schema) = false →
      create_schema json_dumps sha256_hexdigest utcnow st schema = (false, st))
  ∧ (∀ utcnow st schema,
      schema_exists st (Schema.name schema) = true →
      create_schema json_dumps sha256_hexdigest utcnow st schema = (false, st))
  ∧ (∀ utcnow1 utcnow2 st st1 first second,
      Schema.name first = "orders" →
      Schema.name second = "orders" →
      create_schema json_dumps sha256_hexdigest utcnow1 st first = (true, st1) →
      create_schema json_dumps sha256_hexdigest utcnow2 st1 second = (false, st1)
      ∧ definitions st1 !! definition_file "orders"
        = Some (schema_document json_dumps sha256_hexdigest first "created_at"
                                (utcnow1 0%nat))).
Proof.
  split_and!.
  - apply create_schema_invalid.
  - apply create_schema_exists.
  - intros utcnow1 utcnow2 st st1 first second Hfirst Hsecond Hcreated.
    apply create_schema_stored in Hcreated. rewrite Hfirst in Hcreated.
    split; [|done]. apply create_schema_exists. rewrite Hsecond.
    by eapply schema_exists_lookup.
Qed.

Lemma create_schema_rejects_witness :
  let first := orders_schema [id_field; amount_field] in
  let second := orders_schema [id_field] in
  let st1 := snd (create_schema json_text plain_digest (fixed_clock "2024-05-01T09:00:00")
                                empty_store first) in
  create_schema json_text plain_digest (fixed_clock "2024-06-01T09:00:00") st1 second
    = (false, st1)
  ∧ definitions st1 !! definition_file "orders"
    = Some (schema_document json_text plain_digest first "created_at" "2024-05-01T09:00:00").
Proof.
  cbv zeta.
  apply (proj2 (proj2 (create_schema_rejects json_text plain_digest))
           (fixed_clock "2024-05-01T09:00:00") (fixed_clock "2024-06-01T09:00:00")
           empty_store); reflexivity.
Defined.

(** ** The migration text *)

(** C3, at a change of data type.  For [amount] going from INTEGER to BIGINT
    the detector reports "Changed data type for field amount: INTEGER ->
    BIGINT", and the script has, for that entry, the statement with the column
    written [amount:], the sixth blank-separated token of the entry; the
    statement [ALTER TABLE orders ALTER COLUMN amount TYPE BIGINT;] is not in
    the script. *)
Theorem migration_type_change_keeps_colon :
  _detect_breaking_changes orders_v1 orders_v2
    = ["Changed data type for field amount: INTEGER -> BIGINT"]
  ∧ migration_lines "orders" orders_v1 orders_v2 orders_v2_info "2024-05-01T09:00:00"
    = Some orders_v2_script
  ∧ ("ALTER TABLE orders ALTER COLUMN amount: TYPE BIGINT;" ∈ orders_v2_script)
  ∧ alter_type_sql "orders" "amount" "BIGINT"
    = "ALTER TABLE orders ALTER COLUMN amount TYPE BIGINT;"
  ∧ (alter_type_sql "orders" "amount" "BIGINT" ∉ orders_v2_script)
  ∧ PyStr.contains (alter_type_sql "orders" "amount" "BIGINT")
                   (PyStr.join newline orders_v2_script) = false.
Proof.
  split_and!; try reflexivity.
  - unfold orders_v2_script. do 5 right. left.
  - intros Hin.
    repeat (inversion Hin as [|? ? ? Hin']; clear Hin; rename Hin' into Hin).
Qed.

(** C4, at a breaking change whose description the generator cannot read.
    The stored schema [events] has a nullable column called "Removed field";
    the new version, which is valid, makes it non-nullable.  The detector
    reports one breaking change, the document is overwritten and the version
    record appended with the flag set, but the generator raises on the entry
    (it takes it for a removal and finds no ": " in it), no migration is
    written and [update_schema] returns false.  The same update without the
    change of nullability returns true. *)
Theorem update_schema_breaking_change_reported_as_failure
    (json_dumps : json → string) (sha256_hexdigest : string → string)
    (utcnow : nat → datetime) :
  let r := update_schema json_dumps sha256_hexdigest utcnow
                         events_store events_v2 events_v2_info in
  schema_exists events_store "events" = true
  ∧ get_schema events_store "events" = Some events_v1
  ∧ valid (validate_schema events_v2) = true
  ∧ _detect_breaking_changes events_v1 events_v2
    = ["Field Removed field changed from nullable to non-nullable"]
  ∧ change_sql "events" "Field Removed field changed from nullable to non-nullable"
    = None
  ∧ updated r = false
  ∧ definitions (store_after r) !! definition_file "events"
    = Some (schema_document json_dumps sha256_hexdigest events_v2 "updated_at"
                            (utcnow 0%nat))
  ∧ versions (store_after r) !! version_file "events"
    = Some [SchemaVersion.set_breaking_changes true events_v2_info]
  ∧ migrations (store_after r) = ∅
  ∧ updated (update_schema json_dumps sha256_hexdigest utcnow events_store
                           (events_schema "1.1.0" (Schema.fields events_v1))
                           events_v2_info) = true.
Proof. cbv zeta. split_and!; reflexivity. Qed.

(** ** Search *)

Lemma insert_by_score_perm r l : insert_by_score r l ≡ₚ r :: l.
Proof.
  induction l as [|r' l IH]; simpl; [done|].
  destruct (_ <? _)%Z; [|done]. rewrite IH. apply Permutation_swap.
Qed.

Lemma sort_by_score_desc_perm l : sort_by_score_desc l ≡ₚ l.
Proof.
  induction l as [|r l IH]; simpl; [done|].
  by rewrite insert_by_score_perm, IH.
Qed.

Lemma insert_by_score_sorted r l :
  StronglySorted by_score_desc l → StronglySorted by_score_desc (insert_by_score r l).
Proof.
  induction 1 as [|r' l Hsorted IH Hall]; simpl.
  - by repeat constructor.
  - destruct (Z.ltb_spec (SearchResult.score r) (SearchResult.score r')) as [Hlt|Hge].
    + constructor; [done|].
      rewrite insert_by_score_perm. constructor; [unfold by_score_desc; lia|done].
    + constructor; [by constructor|].
      constructor; [done|].
      eapply Forall_impl; [exact Hall|]. unfold by_score_desc. intros x Hx. lia.
Qed.

Lemma sort_by_score_desc_sorted l : StronglySorted by_score_desc (sort_by_score_desc l).
Proof.
  induction l as [|r l IH]; simpl; [constructor|].
  by apply insert_by_score_sorted.
Qed.

Lemma slice_to_nonneg {A} (n : Z) (l : list A) :
  (0 ≤ n)%Z → slice_to n l = take (Z.to_nat n) l.
Proof. intros Hn. unfold slice_to. by rewrite (proj2 (Z.leb_le 0 n) Hn). Qed.

Lemma mapM_id_Some {A} (l : list A) : mapM id (Some <$> l) = Some l.
Proof. by apply mapM_fmap_Some. Qed.

Section search_facts.
Variable py_str : json → string.

Abbreviation score_of r query := (fst (_calculate_search_score py_str r query)).

Lemma tags_loop_score query tags acc :
  fst (tags_loop (PyStr.lower query) tags acc)
  = (fst acc + weight 3 (existsb (matches query) tags))%Z.
Proof.
  induction tags as [|tag tags IH]; simpl; [unfold weight; lia|].
  unfold matches at 1. destruct (PyStr.contains _ _); simpl; [done|apply IH].
Qed.

Lemma metadata_loop_score query items acc :
  fst (metadata_loop py_str (PyStr.lower query) items acc)
  = (fst acc + weight 2
       (existsb (fun kv => matches query (py_str (MetadataAttribute.value (snd kv))))
                items))%Z.
Proof.
  induction items as [|[key attr] items IH]; simpl; [unfold weight; lia|].
  unfold matches at 1. destruct (PyStr.contains _ _); simpl; [done|apply IH].
Qed.

(** The score is the sum of the weights of the places that match. *)
Lemma score_additive r query :
  score_of r query
  = (weight 10 (name_match r query) + weight 5 (description_match r query)
     + weight 3 (tag_match r query) + weight 2 (metadata_match py_str r query)
     + weight 1 (system_match r query))%Z.
Proof.
  unfold _calculate_search_score, name_match, description_match, tag_match,
    metadata_match, system_match.
  fold (matches query (DataResource.name r)).
  fold (matches query (DataResource.system r)).
  set (acc1 := if matches query (DataResource.name r) then _ else _).
  set (acc2 := match DataResource.description r with Some _ => _ | None => _ end).
  set (acc3 := match DataResource.tags r with Some _ => _ | None => _ end).
  set (acc4 := match DataResource.metadata r with Some _ => _ | None => _ end).
  assert (fst acc1 = weight 10 (matches query (DataResource.name r))) as H1.
  { unfold acc1. by destruct (matches _ _). }
  assert (fst acc2 = (fst acc1 + weight 5
            match DataResource.description r with
            | Some d => negb (PyStr.is_empty d) && matches query d
            | None => false
            end)%Z) as H2.
  { unfold acc2. destruct (DataResource.description r) as [d|]; [|unfold weight; lia].
    fold (matches query d).
    destruct (negb (PyStr.is_empty d) && matches query d); unfold weight; simpl; lia. }
  assert (fst acc3 = (fst acc2 + weight 3
            match DataResource.tags r with
            | Some tags => existsb (matches query) tags
            | None => false
            end)%Z) as H3.
  { unfold acc3. destruct (DataResource.tags r) as [tags|]; [|unfold weight; lia].
    apply tags_loop_score. }
  assert (fst acc4 = (fst acc3 + weight 2
            match DataResource.metadata r with
            | Some items =>
                existsb (fun kv => matches query
                                     (py_str (MetadataAttribute.value (snd kv)))) items
            | None => false
            end)%Z) as H4.
  { unfold acc4. destruct (DataResource.metadata r) as [items|]; [|unfold weight; lia].
    apply metadata_loop_score. }
  destruct (matches query (DataResource.system r)); unfold weight at 5; simpl; lia.
Qed.

Abbreviation keeps := (kept py_str).

Lemma search_step_app query filters results r :
  search_step py_str query filters results r
  = results ++ (if keeps query filters r then [result_of py_str query r] else []).
Proof.
  unfold search_step, kept, passes, result_of.
  destruct (_calculate_search_score py_str r query) as [score fields] eqn:E.
  cbn [fst snd]. destruct filters as [[|f fs]|]; cbn [negb andb].
  - change (_matches_filters r []) with true. cbn [andb].
    destruct (0 <? score)%Z; [done|by rewrite app_nil_r].
  - destruct (_matches_filters r (f :: fs)); cbn [negb andb];
      [|by rewrite app_nil_r].
    destruct (0 <? score)%Z; [done|by rewrite app_nil_r].
  - destruct (0 <? score)%Z; [done|by rewrite app_nil_r].
Qed.

Lemma search_loop query filters resources :
  foldl (search_step py_str query filters) [] resources
  = result_of py_str query <$> filter (fun r => keeps query filters r = true) resources.
Proof.
  rewrite (foldl_snoc_bind _ _ _ _ (search_step_app query filters)). simpl.
  induction resources as [|r rs IH]; [done|]. csimpl. rewrite IH.
  destruct (keeps query filters r) eqn:Hk.
  - by rewrite filter_cons_True.
  - rewrite filter_cons_False; [done|]. by rewrite Hk.
Qed.
End search_facts.

(** C8. The score of a resource is the sum of the weights of the places
    where the query occurs, case-insensitively, as a substring: 10 for the
    name, 5 for the description, 3 once for the tags, 2 once for the metadata
    values, 1 for the system.  A search returns the resources that pass the
    filters and score above zero, larger scores first, cut to [limit].  A
    resource matching in name and description only scores 15, one matching in
    a tag only scores 3, and the first is ranked above the second. *)
Theorem search_scoring (py_str : json → string) :
  (∀ r query,
      fst (_calculate_search_score py_str r query)
      = (weight 10 (name_match r query) + weight 5 (description_match r query)
         + weight 3 (tag_match r query) + weight 2 (metadata_match py_str r query)
         + weight 1 (system_match r query))%Z)
  ∧ (∀ resources query filters limit,
      ∃ ranked,
        search_resources py_str (Some <$> resources) query filters limit
          = slice_to limit ranked
        ∧ ranked ≡ₚ result_of py_str query
                      <$> filter (fun r => kept py_str query filters r = true) resources
        ∧ StronglySorted by_score_desc ranked
        ∧ Forall (fun x => (0 < SearchResult.score x)%Z) ranked
        ∧ ((0 ≤ limit)%Z →
           slice_to limit ranked = take (Z.to_nat limit) ranked
           ∧ (Z.of_nat (length (slice_to limit ranked)) ≤ limit)%Z))
  ∧ (∀ r query,
      name_match r query = true → description_match r query = true →
      tag_match r query = false → metadata_match py_str r query = false →
      system_match r query = false →
      fst (_calculate_search_score py_str r query) = 15%Z)
  ∧ (∀ r query,
      name_match r query = false → description_match r query = false →
      tag_match r query = true → metadata_match py_str r query = false →
      system_match r query = false →
      fst (_calculate_search_score py_str r query) = 3%Z)
  ∧ fst (_calculate_search_score py_str user_orders "order") = 15%Z
  ∧ fst (_calculate_search_score py_str shipments "order") = 3%Z
  ∧ SearchResult.resource
      <$> search_resources py_str [Some invoices; Some shipments; Some user_orders]
                           "order" None 20
    = [user_orders; shipments].
Proof.
  split_and!; [apply score_additive| | | |done..].
  - intros resources query filters limit.
    exists (sort_by_score_desc
              (foldl (search_step py_str query filters) [] resources)).
    split_and!.
    + unfold search_resources. by rewrite mapM_id_Some.
    + by rewrite sort_by_score_desc_perm, search_loop.
    + apply sort_by_score_desc_sorted.
    + rewrite sort_by_score_desc_perm, search_loop.
      apply Forall_fmap, Forall_forall. intros r [Hk _]%list_elem_of_filter.
      apply andb_prop in Hk as [_ Hpos]. simpl. by apply Z.ltb_lt.
    + intros Hlimit. rewrite slice_to_nonneg by done. split; [done|].
      rewrite length_take. lia.
  - intros r query H1 H2 H3 H4 H5. by rewrite score_additive, H1, H2, H3, H4, H5.
  - intros r query H1 H2 H3 H4 H5. by rewrite score_additive, H1, H2, H3, H4, H5.
Qed.

Lemma search_scoring_witness :
  ∃ ranked,
    search_resources (fun _ => "") [Some invoices; Some shipments; Some user_orders]
                     "ORDER" (Some [("system", JStr "warehouse")]) 1
      = slice_to 1 ranked
    ∧ slice_to 1 ranked = take 1 ranked
    ∧ (Z.of_nat (length (slice_to 1 ranked)) ≤ 1)%Z
    ∧ fst (_calculate_search_score (fun _ => "") user_orders "ORDER") = 15%Z.
Proof.
  destruct (search_scoring (fun _ => "")) as (_ & Hsearch & Hfifteen & _).
  destruct (Hsearch [invoices; shipments; user_orders] "ORDER"
                    (Some [("system", JStr "warehouse")]) 1%Z)
    as (ranked & Heq & _ & _ & _ & Hcut).
  exists ranked. destruct (Hcut ltac:(lia)) as [Htake Hlen].
  split_and!; [exact Heq|exact Htake|exact Hlen|].
  apply Hfifteen; reflexivity.
Defined.

(* ===================================================================== *)
(** * Further properties *)
(* ===================================================================== *)

(** ** Which schemas the validator accepts *)

Lemma field_step_names schema_type st field :
  fl_field_names (field_step schema_type st field)
  = if PyStr.is_empty (SchemaField.name field) then fl_field_names st
    else fl_field_names st ∪ {[ SchemaField.name field ]}.
Proof. unfold field_step. by destruct (PyStr.is_empty _). Qed.

Lemma field_step_length schema_type st field :
  (length (fl_errors st) ≤ length (fl_errors (field_step schema_type st field)))%nat
  ∧ (length (fl_errors (field_step schema_type st field)) = length (fl_errors st)
     ↔ SchemaField.name field ≠ ""
       ∧ (SchemaField.name field ∉ fl_field_names st)
       ∧ _is_valid_data_type (SchemaField.data_type field) schema_type = true).
Proof.
  unfold field_step.
  destruct (PyStr.is_empty (SchemaField.name field)) eqn:Hn; simpl.
  - apply is_empty_true in Hn. rewrite length_app. simpl.
    split; [lia|]. split; [lia|]. by intros [? _].
  - apply is_empty_false in Hn. case_bool_decide as Hseen;
      destruct (_is_valid_data_type _ _); simpl; rewrite ?length_app; simpl;
      (split; [lia|]); (split; [try lia; done|]); try (by intros (_ & ? & ?)); lia.
Qed.

Lemma field_loop_length_mono schema_type st fields :
  (length (fl_errors st) ≤ length (fl_errors (field_loop schema_type st fields)))%nat.
Proof.
  revert st. induction fields as [|f fields IH]; intros st; [done|].
  rewrite field_loop_cons. etrans; [|apply IH]. apply field_step_length.
Qed.

(** The field loop adds no error exactly when every field has a name that is
    new and a data type of the whitelist. *)
Lemma field_loop_adds_nothing schema_type st fields :
  length (fl_errors (field_loop schema_type st fields)) = length (fl_errors st)
  ↔ Forall (fun f => SchemaField.name f ≠ ""
                     ∧ _is_valid_data_type (SchemaField.data_type f) schema_type = true)
           fields
    ∧ NoDup (SchemaField.name <$> fields)
    ∧ (∀ f, f ∈ fields → SchemaField.name f ∉ fl_field_names st).
Proof.
  revert st. induction fields as [|f fields IH]; intros st.
  - split; [intros _|done]. split_and!; [constructor|constructor|].
    by intros f ?%elem_of_nil.
  - rewrite field_loop_cons. csimpl.
    pose proof (field_step_length schema_type st f) as [Hle Hstep].
    pose proof (field_loop_length_mono schema_type (field_step schema_type st f) fields)
      as Hmono.
    split.
    + intros Heq.
      assert (length (fl_errors (field_step schema_type st f)) = length (fl_errors st))
        as Hf by lia.
      apply Hstep in Hf as (Hn & Hnew & Hdt).
      assert (length (fl_errors (field_loop schema_type (field_step schema_type st f) fields))
              = length (fl_errors (field_step schema_type st f))) as Hrest by lia.
      apply IH in Hrest as (Hall & Hnd & Hfresh).
      rewrite field_step_names in Hfresh.
      apply is_empty_false in Hn as Hn'. rewrite Hn' in Hfresh.
      split_and!.
      * by constructor.
      * constructor; [|done]. intros (g & Hg & Hin)%list_elem_of_fmap.
        apply (Hfresh g Hin). rewrite <- Hg. set_solver.
      * intros g [->|Hin]%elem_of_cons; [done|].
        specialize (Hfresh g Hin). set_solver.
    + intros (Hall & Hnd & Hfresh).
      apply Forall_cons in Hall as [[Hn Hdt] Hall].
      apply NoDup_cons in Hnd as [Hf Hnd].
      assert (length (fl_errors (field_step schema_type st f)) = length (fl_errors st))
        as Hf'.
      { apply Hstep. split_and!; [done| |done]. apply Hfresh. left. }
      rewrite <- Hf'. apply IH. split_and!; [done..|].
      intros g Hin. rewrite field_step_names.
      apply is_empty_false in Hn as ->.
      apply not_elem_of_union. split; [apply Hfresh; by right|].
      intros Heq%elem_of_singleton. apply Hf. rewrite <- Heq.
      apply list_elem_of_fmap. by exists g.
Qed.

(** The set of names after the loop: the names of the named fields. *)
Lemma field_loop_names schema_type st fields :
  fl_field_names (field_loop schema_type st fields)
  = fl_field_names st ∪ list_to_set (SchemaField.name <$> named_fields fields).
Proof.
  revert st. induction fields as [|f fields IH]; intros st.
  - simpl. set_solver.
  - rewrite field_loop_cons, IH, field_step_names. unfold named_fields.
    destruct (PyStr.is_empty (SchemaField.name f)) eqn:Hn.
    + apply is_empty_true in Hn. rewrite filter_cons_False by (by intros ?). done.
    + apply is_empty_false in Hn. rewrite filter_cons_True by done. csimpl. set_solver.
Qed.


Lemma field_pass_names schema :
  fl_field_names (field_pass schema)
  = list_to_set (SchemaField.name <$> named_fields (Schema.fields schema)).
Proof. unfold field_pass. rewrite field_loop_names. simpl. set_solver. Qed.


Lemma foldl_length_iff {A} (step : list string → A → list string) (P : A → Prop)
    (errs : list string) (l : list A) :
  (∀ errs x, (length errs ≤ length (step errs x))%nat
             ∧ (length (step errs x) = length errs ↔ P x)) →
  (length errs ≤ length (foldl step errs l))%nat
  ∧ (length (foldl step errs l) = length errs ↔ Forall P l).
Proof.
  intros Hstep. revert errs. induction l as [|x l IH]; intros errs; simpl.
  - split; [done|]. split; [constructor|done].
  - destruct (Hstep errs x) as [Hle Hx]. destruct (IH (step errs x)) as [Hle' Hl].
    split; [lia|]. rewrite Forall_cons. split.
    + intros Heq. split; [apply Hx|apply Hl]; lia.
    + intros [HPx HPl]. apply Hx in HPx. apply Hl in HPl. lia.
Qed.

Lemma index_step_length names errs index :
  (length errs ≤ length (index_step names errs index))%nat
  ∧ (length (index_step names errs index) = length errs
     ↔ Forall (fun n => n ∈ names) (SchemaIndex.fields index)).
Proof.
  unfold index_step. apply foldl_length_iff. clear. intros errs n.
  case_bool_decide; rewrite ?length_app; simpl; split; try lia; try done.
  split; [lia|done].
Qed.

Lemma relationship_step_length names errs r :
  (length errs ≤ length (relationship_step names errs r))%nat
  ∧ (length (relationship_step names errs r) = length errs
     ↔ SchemaRelationship.source_field r ∈ names).
Proof.
  unfold relationship_step.
  case_bool_decide; rewrite ?length_app; simpl; split; try lia; try done.
  split; [lia|done].
Qed.

Lemma named_fields_all fields :
  Forall (fun f => SchemaField.name f ≠ "") fields → named_fields fields = fields.
Proof.
  unfold named_fields. induction 1 as [|f l Hf _ IH]; [done|].
  by rewrite filter_cons_True, IH.
Qed.

(** X1. [validate_schema] accepts exactly the schemas without defects: the
    result is valid if and only if the schema has a name and at least one
    field, every field has a name and a data type of the whitelist of the
    schema type, no two fields share a name, every index refers to fields of
    the schema only and every relationship has a field of the schema as its
    source field. *)
Theorem validate_schema_accepts_well_formed schema :
  valid (validate_schema schema) = true ↔ well_formed schema.
Proof.
  rewrite validate_schema_valid, Nat.eqb_eq, validate_schema_errors.
  set (names := fl_field_names (field_pass schema)).
  set (base := {| fl_errors :=
                    (if PyStr.is_empty (Schema.name schema)
                     then ["Schema name is required"] else [])
                    ++ (if is_nil (Schema.fields schema)
                        then ["Schema must have at least one field"] else []);
                  fl_field_names := ∅; fl_primary_keys := [] |}).
  assert (field_pass schema
          = field_loop (Schema.schema_type schema) base (Schema.fields schema))
    as Hpass by done.
  pose proof (field_loop_length_mono (Schema.schema_type schema) base
                (Schema.fields schema)) as Hfl.
  pose proof (field_loop_adds_nothing (Schema.schema_type schema) base
                (Schema.fields schema)) as Hfields.
  rewrite <- Hpass in Hfl, Hfields.
  destruct (foldl_length_iff (index_step names) _ (fl_errors (field_pass schema))
              (Schema.indexes schema) (index_step_length names)) as [Hil Hidx].
  destruct (foldl_length_iff (relationship_step names) _
              (foldl (index_step names) (fl_errors (field_pass schema))
                     (Schema.indexes schema))
              (Schema.relationships schema) (relationship_step_length names))
    as [Hrl Hrel].
  assert (length (fl_errors base) = 0%nat
          ↔ Schema.name schema ≠ "" ∧ Schema.fields schema ≠ []) as Hbase.
  { unfold base. simpl. rewrite <- is_empty_false.
    destruct (PyStr.is_empty _), (Schema.fields schema); simpl;
      split; try done; try lia; by intros []. }
  assert (Forall (fun f => SchemaField.name f ≠ "") (Schema.fields schema) →
          ∀ n, n ∈ names ↔ n ∈ SchemaField.name <$> Schema.fields schema) as Hnames.
  { intros Hall n. unfold names. rewrite field_pass_names, named_fields_all by done.
    apply elem_of_list_to_set. }
  unfold well_formed. split.
  - intros Hzero.
    assert (length (fl_errors base) = 0%nat) as Hb by lia.
    apply Hbase in Hb as [Hname Hne].
    assert (length (fl_errors (field_pass schema)) = length (fl_errors base)) as Hf by lia.
    apply Hfields in Hf as (Hall & Hnd & _).
    assert (Forall (fun f => SchemaField.name f ≠ "") (Schema.fields schema)) as Hnamed.
    { eapply Forall_impl; [exact Hall|]. by intros f [? _]. }
    split_and!; [done..| |].
    + assert (length (foldl (index_step names) (fl_errors (field_pass schema))
                            (Schema.indexes schema))
              = length (fl_errors (field_pass schema))) as Hi by lia.
      apply Hidx in Hi. eapply Forall_impl; [exact Hi|]. intros i Hi'. simpl in Hi'.
      eapply Forall_impl; [exact Hi'|]. intros n. apply Hnames, Hnamed.
    + assert (length (foldl (relationship_step names)
                        (foldl (index_step names) (fl_errors (field_pass schema))
                               (Schema.indexes schema))
                        (Schema.relationships schema))
              = length (foldl (index_step names) (fl_errors (field_pass schema))
                              (Schema.indexes schema))) as Hr by lia.
      apply Hrel in Hr. eapply Forall_impl; [exact Hr|]. intros r. apply Hnames, Hnamed.
  - intros (Hname & Hne & Hall & Hnd & Hi & Hr).
    assert (Forall (fun f => SchemaField.name f ≠ "") (Schema.fields schema)) as Hnamed.
    { eapply Forall_impl; [exact Hall|]. by intros f [? _]. }
    assert (length (fl_errors base) = 0%nat) as Hb by (by apply Hbase).
    assert (length (fl_errors (field_pass schema)) = length (fl_errors base)) as Hf.
    { apply Hfields. split_and!; [done..|]. intros f _. unfold base. simpl. set_solver. }
    assert (length (foldl (index_step names) (fl_errors (field_pass schema))
                          (Schema.indexes schema))
            = length (fl_errors (field_pass schema))) as Hi'.
    { apply Hidx. eapply Forall_impl; [exact Hi|]. intros i Hi'. simpl in Hi'.
      eapply Forall_impl; [exact Hi'|]. intros n. apply Hnames, Hnamed. }
    assert (length (foldl (relationship_step names)
                      (foldl (index_step names) (fl_errors (field_pass schema))
                             (Schema.indexes schema))
                      (Schema.relationships schema))
            = length (foldl (index_step names) (fl_errors (field_pass schema))
                            (Schema.indexes schema))) as Hr'.
    { apply Hrel. eapply Forall_impl; [exact Hr|]. intros r. apply Hnames, Hnamed. }
    lia.
Qed.



(** ** Dangling references *)

Lemma index_fields_report (names : gset string) index (l : list string) errs n :
  (n ∈ l ∧ n ∉ names) ∨ index_error index n ∈ errs →
  index_error index n
    ∈ foldl (fun errs field_name =>
               if bool_decide (field_name ∈ names) then errs
               else errs ++ [index_error index field_name]) errs l.
Proof.
  revert errs. induction l as [|m l IH]; intros errs.
  - intros [[Hin _]|He]; [by apply elem_of_nil in Hin|done].
  - simpl. intros [[Hin Hn]|He]; apply IH.
    + apply elem_of_cons in Hin as [<-|Hin]; [|by left].
      right. rewrite bool_decide_eq_false_2 by done. set_solver.
    + right. destruct (bool_decide _); set_solver.
Qed.

Lemma index_step_reports names errs index n :
  n ∈ SchemaIndex.fields index → n ∉ names →
  index_error index n ∈ index_step names errs index.
Proof. intros Hin Hn. apply index_fields_report. by left. Qed.

Lemma index_loop_reports names errs indexes index n :
  index ∈ indexes → n ∈ SchemaIndex.fields index → n ∉ names →
  index_error index n ∈ foldl (index_step names) errs indexes.
Proof.
  intros Hi Hn Hnot. revert errs.
  induction indexes as [|i l IH]; intros errs; [by apply elem_of_nil in Hi|].
  simpl. apply elem_of_cons in Hi as [<-|Hi]; [|by apply IH].
  by apply index_loop_mono, index_step_reports.
Qed.

Lemma relationship_loop_reports names errs rels r :
  r ∈ rels → SchemaRelationship.source_field r ∉ names →
  relationship_error r ∈ foldl (relationship_step names) errs rels.
Proof.
  intros Hr Hnot. revert errs.
  induction rels as [|r' l IH]; intros errs; [by apply elem_of_nil in Hr|].
  simpl. apply elem_of_cons in Hr as [<-|Hr]; [|by apply IH].
  apply relationship_loop_mono. unfold relationship_step.
  rewrite bool_decide_eq_false_2 by done. set_solver.
Qed.

Lemma elem_of_field_pass_names schema n :
  n ∈ fl_field_names (field_pass schema)
  ↔ n ≠ "" ∧ n ∈ SchemaField.name <$> Schema.fields schema.
Proof.
  rewrite field_pass_names, elem_of_list_to_set, !list_elem_of_fmap.
  unfold named_fields. split.
  - intros (f & -> & [Hn Hin]%list_elem_of_filter). eauto.
  - intros (Hn & f & -> & Hin). exists f. split; [done|].
    by apply list_elem_of_filter.
Qed.

(** X3. A reference to a field that the schema does not have is an error: an
    index that lists a name which is empty or is not the name of a field, and
    a relationship whose source field is empty or is not the name of a field,
    each get their error, and the schema is not valid. *)
Theorem validate_schema_dangling_references schema :
  (∀ index n,
      index ∈ Schema.indexes schema → n ∈ SchemaIndex.fields index →
      n = "" ∨ n ∉ SchemaField.name <$> Schema.fields schema →
      index_error index n ∈ errors (validate_schema schema)
      ∧ valid (validate_schema schema) = false)
  ∧ (∀ r,
      r ∈ Schema.relationships schema →
      SchemaRelationship.source_field r = ""
      ∨ SchemaRelationship.source_field r ∉ SchemaField.name <$> Schema.fields schema →
      relationship_error r ∈ errors (validate_schema schema)
      ∧ valid (validate_schema schema) = false).
Proof.
  split.
  - intros index n Hi Hn Hdangling.
    assert (index_error index n ∈ errors (validate_schema schema)) as He.
    { rewrite validate_schema_errors.
      apply relationship_loop_mono, index_loop_reports; [done..|].
      rewrite elem_of_field_pass_names. intros [? ?]. by destruct Hdangling. }
    split; [done|]. by eapply valid_false_of_error.
  - intros r Hr Hdangling.
    assert (relationship_error r ∈ errors (validate_schema schema)) as He.
    { rewrite validate_schema_errors.
      apply relationship_loop_reports; [done|].
      rewrite elem_of_field_pass_names. intros [? ?]. by destruct Hdangling. }
    split; [done|]. by eapply valid_false_of_error.
Qed.

Lemma validate_schema_dangling_references_witness :
  let index := SchemaIndex.mk "idx_total" ["total"] false "btree" None None in
  let schema :=
    Schema.mk "orders" "1.0.0" RELATIONAL "Customer orders" [id_field; amount_field]
              [index] [] None None INTERNAL None None [] [] in
  index_error index "total" ∈ errors (validate_schema schema)
  ∧ valid (validate_schema schema) = false.
Proof.
  cbv zeta.
  apply (proj1 (validate_schema_dangling_references _)); [left|left|].
  right. intros Hin.
  repeat (inversion Hin as [|? ? ? Hin']; clear Hin; rename Hin' into Hin).
Defined.

(** ** What the validator does not look at *)

Lemma relationship_loop_ext names errs rs rs' :
  Forall2 (fun r r' => SchemaRelationship.name r = SchemaRelationship.name r'
                       ∧ SchemaRelationship.source_field r
                         = SchemaRelationship.source_field r') rs rs' →
  foldl (relationship_step names) errs rs = foldl (relationship_step names) errs rs'.
Proof.
  intros H. revert errs. induction H as [|r r' rs rs' [Hn Hs] _ IH]; intros errs; [done|].
  simpl. rewrite IH. f_equal. unfold relationship_step. by rewrite Hn, Hs.
Qed.

(** X4. Of a relationship the validator reads the name and the source field
    only: replacing the target schema, the target field, the relationship
    type and the cascade flags of the relationships of a schema changes
    nothing in the validation result. *)
Theorem validate_schema_ignores_relationship_targets schema rs' :
  Forall2 (fun r r' => SchemaRelationship.name r = SchemaRelationship.name r'
                       ∧ SchemaRelationship.source_field r
                         = SchemaRelationship.source_field r')
          (Schema.relationships schema) rs' →
  validate_schema (with_relationships rs' schema) = validate_schema schema.
Proof.
  intros Hrs. unfold validate_schema, with_relationships.
  cbn [Schema.name Schema.fields Schema.schema_type Schema.indexes
       Schema.relationships Schema.retention_policy].
  by rewrite (relationship_loop_ext _ _ _ _ Hrs).
Qed.

Lemma validate_schema_ignores_relationship_targets_witness :
  let r := SchemaRelationship.mk "customer" "orders" "customers" "id" "id"
                                 "one_to_many" false false in
  let r' := SchemaRelationship.mk "customer" "orders" "no such schema" "id"
                                  "no such field" "whatever" true true in
  let schema :=
    Schema.mk "orders" "1.0.0" RELATIONAL "Customer orders" [id_field]
              [] [r] None None INTERNAL None None [] [] in
  validate_schema (with_relationships [r'] schema) = validate_schema schema.
Proof.
  cbv zeta. apply validate_schema_ignores_relationship_targets.
  by repeat constructor.
Defined.

(** ** More on the detector *)

Lemma comprehension_snoc {V} (key : V → string) xs x :
  PyDict.comprehension key (xs ++ [x])
  = PyDict.set (key x) x (PyDict.comprehension key xs).
Proof. unfold PyDict.comprehension. by rewrite foldl_app. Qed.

Lemma set_length {V} k (v : V) d :
  (length (PyDict.set k v d) ≤ S (length d))%nat.
Proof.
  induction d as [|[k0 v0] d IH]; simpl; [done|].
  destruct (String.eqb k0 k); simpl; lia.
Qed.

Lemma comprehension_length {V} (key : V → string) xs :
  (length (PyDict.comprehension key xs) ≤ length xs)%nat.
Proof.
  induction xs as [|x xs IH] using rev_ind; [done|].
  rewrite comprehension_snoc, length_app. simpl.
  pose proof (set_length (key x) x (PyDict.comprehension key xs)). lia.
Qed.

(** With distinct keys the dictionary lists them in the order of the list. *)
Lemma comprehension_keys {V} (key : V → string) xs :
  NoDup (key <$> xs) → PyDict.keys (PyDict.comprehension key xs) = key <$> xs.
Proof.
  induction xs as [|x xs IH] using rev_ind; [done|].
  rewrite fmap_app. intros (Hxs & Hx & _)%NoDup_app.
  rewrite comprehension_snoc, keys_set, IH by done.
  destruct (PyDict.mem (key x) (PyDict.comprehension key xs)) eqn:Hmem; [|done].
  apply mem_true_keys in Hmem. rewrite IH in Hmem by done.
  destruct (Hx (key x) Hmem). simpl. left.
Qed.

Lemma bind_singleton {A B} (f : A → B) (l : list A) :
  l ≫= (fun x => [f x]) = f <$> l.
Proof. induction l as [|x l IH]; [done|]. csimpl. by rewrite IH. Qed.

Lemma bind_ext_in {A B} (f g : A → list B) (l : list A) :
  (∀ x, x ∈ l → f x = g x) → l ≫= f = l ≫= g.
Proof.
  induction l as [|x l IH]; [done|]. intros Hfg. csimpl.
  rewrite (Hfg x), IH; [done| |left]. intros y Hy. apply Hfg. by right.
Qed.

(** X5. The detector reads the fields only, and a schema compared with a
    schema of the same fields has no breaking change; in particular a schema
    compared with itself has none. *)
Theorem detect_same_fields old_schema new_schema :
  Schema.fields old_schema = Schema.fields new_schema →
  _detect_breaking_changes old_schema new_schema = [].
Proof.
  intros Hfields. rewrite detect_unfold. cbv zeta. rewrite <- Hfields.
  rewrite !bind_nil; [done| |].
  - intros [k f] Hin. by apply changes_of_same, field_named_elem_of.
  - intros k Hk. apply removed_of_present. by apply field_named_keys.
Qed.

Lemma detect_same_fields_witness :
  _detect_breaking_changes (orders_schema [id_field; amount_field])
                           (Schema.with_metadata [("team", JStr "billing")]
                              (orders_schema [id_field; amount_field]))
  = [].
Proof. by apply detect_same_fields. Defined.

(** X6. Against a new schema without fields every field of the old schema
    is reported as removed, once, in the order of the fields, and nothing
    else is reported (for an old schema whose field names are distinct);
    an old schema without fields gives no entry, whatever the new one is. *)
Theorem detect_empty_sides :
  (∀ old_schema new_schema,
      Schema.fields new_schema = [] →
      NoDup (SchemaField.name <$> Schema.fields old_schema) →
      _detect_breaking_changes old_schema new_schema
      = removed_msg <$> (SchemaField.name <$> Schema.fields old_schema))
  ∧ (∀ old_schema new_schema,
      Schema.fields old_schema = [] →
      _detect_breaking_changes old_schema new_schema = []).
Proof.
  split.
  - intros old_schema new_schema Hnew Hnd. rewrite detect_unfold. cbv zeta.
    rewrite Hnew, comprehension_keys by done.
    change (PyDict.comprehension SchemaField.name []) with (@nil (string * SchemaField.t)).
    rewrite (bind_nil (PyDict.comprehension _ _)), app_nil_r.
    + rewrite <- (bind_singleton removed_msg). apply bind_ext_in. intros k _.
      by apply removed_of_absent.
    + intros [k f] _. by apply changes_of_absent.
  - intros old_schema new_schema Hold. rewrite detect_unfold. cbv zeta.
    by rewrite Hold.
Qed.

Lemma detect_empty_sides_witness :
  _detect_breaking_changes (orders_schema [id_field; amount_field]) (orders_schema [])
  = ["Removed field: id"; "Removed field: amount"].
Proof.
  apply (proj1 detect_empty_sides); [reflexivity|].
  apply NoDup_cons. split; [|apply NoDup_singleton].
  intros Hin. inversion Hin as [|? ? ? Hin']. inversion Hin'.
Defined.

Lemma entries_per_item nf k f :
  (length (removed_of nf k) + length (changes_of nf (k, f)) ≤ 3)%nat.
Proof.
  unfold removed_of, removed_step, changes_of, changed_step, PyDict.mem.
  destruct (PyDict.get k nf) as [fn|]; simpl; [|lia].
  destruct (String.eqb _ _), (SchemaField.nullable f), (SchemaField.nullable fn),
    (SchemaField.primary_key f), (SchemaField.primary_key fn); simpl; lia.
Qed.

Lemma entries_per_dict nf (d : list (string * SchemaField.t)) :
  (length (PyDict.keys d ≫= removed_of nf) + length (d ≫= changes_of nf)
   ≤ 3 * length d)%nat.
Proof.
  unfold PyDict.keys. induction d as [|[k f] d IH]; [done|].
  rewrite fmap_cons, !bind_cons, !length_app, length_cons.
  pose proof (entries_per_item nf k f). simpl fst. lia.
Qed.

(** X7. The detector reports at most three entries for each field of the old
    schema, so at most three times as many entries as the old schema has
    fields; the fields of the new schema add none. *)
Theorem detect_length_bound old_schema new_schema :
  (length (_detect_breaking_changes old_schema new_schema)
   ≤ 3 * length (Schema.fields old_schema))%nat.
Proof.
  rewrite detect_unfold. cbv zeta. rewrite length_app.
  pose proof (entries_per_dict
                (PyDict.comprehension SchemaField.name (Schema.fields new_schema))
                (PyDict.comprehension SchemaField.name (Schema.fields old_schema))).
  pose proof (comprehension_length SchemaField.name (Schema.fields old_schema)). lia.
Qed.

(** ** More on the migration text *)

Lemma append_cons c s t : String c s +:+ t = String c (s +:+ t).
Proof. reflexivity. Qed.

Lemma append_empty_r s : s +:+ "" = s.
Proof. induction s as [|c s IH]; [reflexivity|]. by rewrite append_cons, IH. Qed.

Lemma append_snoc cur c s : (cur +:+ String c "") +:+ s = cur +:+ String c s.
Proof.
  induction cur as [|d cur IH]; [reflexivity|]. by rewrite !append_cons, IH.
Qed.

Lemma prefix_empty s : String.prefix "" s = true.
Proof. by destruct s. Qed.

(** A string without the separator is one piece. *)
Lemma split_go_no_sep sep cur s :
  PyStr.contains sep s = false →
  PyStr.split_go sep 0 cur s = [cur +:+ s].
Proof.
  revert cur. induction s as [|c s IH]; intros cur Hno; cbn [PyStr.split_go].
  - by rewrite append_empty_r.
  - cbn [PyStr.contains] in Hno. apply orb_false_elim in Hno as [Hp Hs].
    rewrite Hp, IH by done. by rewrite append_snoc.
Qed.

(** Skipping the rest of a separator that was found. *)
Lemma split_go_skip sep p cur s :
  PyStr.split_go sep (String.length p) cur (p +:+ s) = PyStr.split_go sep 0 cur s.
Proof.
  induction p as [|c p IH]; [reflexivity|].
  rewrite append_cons. cbn [String.length PyStr.split_go]. exact IH.
Qed.

(** Cutting at a separator. *)
Lemma split_go_at_sep c sep cur s :
  PyStr.split_go (String c sep) 0 cur (String c sep +:+ s)
  = cur :: PyStr.split_go (String c sep) 0 "" s.
Proof.
  change (String c sep +:+ s) with (String c (sep +:+ s)).
  cbn [PyStr.split_go].
  change (String c (sep +:+ s)) with (String c sep +:+ s).
  rewrite prefix_append. f_equal.
  change (String.length (String c sep) - 1)%nat with (String.length sep - 0)%nat.
  rewrite Nat.sub_0_r. apply split_go_skip.
Qed.

Lemma split_removed_msg field_name :
  PyStr.contains ": " field_name = false →
  PyStr.split ": " (removed_msg field_name) = ["Removed field"; field_name].
Proof.
  intros Hno. unfold PyStr.split, removed_msg.
  change (PyStr.split_go ": " 0 "" ("Removed field: " +:+ field_name))
    with (PyStr.split_go ": " 0 "Removed field" (": " +:+ field_name)).
  rewrite split_go_at_sep. by rewrite split_go_no_sep.
Qed.

Lemma contains_prefix p s : PyStr.contains p (p +:+ s) = true.
Proof.
  destruct p as [|c p].
  - destruct s; reflexivity.
  - rewrite append_cons. cbn [PyStr.contains]. rewrite <- append_cons.
    by rewrite prefix_append.
Qed.

Lemma change_sql_removed schema_name field_name :
  PyStr.contains ": " field_name = false →
  change_sql schema_name (removed_msg field_name)
  = Some ["-- Removed field: " +:+ field_name;
          drop_column_sql schema_name field_name].
Proof.
  intros Hno. unfold change_sql.
  assert (PyStr.contains "Removed field" (removed_msg field_name) = true) as ->.
  { change (removed_msg field_name) with ("Removed field" +:+ (": " +:+ field_name)).
    apply contains_prefix. }
  by rewrite split_removed_msg.
Qed.

(** X8. When one field is dropped from a schema and its name holds no colon
    followed by a blank, the migration script is the three header lines, a
    blank line, the comment "-- Removed field: X", the statement
    "ALTER TABLE <schema> DROP COLUMN X;", a blank line and the closing
    comment, and nothing else. *)
Theorem migration_for_removed_field
    (pre post : list SchemaField.t) (f : SchemaField.t)
    (old_schema new_schema : Schema.t) (schema_name : string)
    (version : SchemaVersion.t) (now : datetime) :
  Schema.fields old_schema = pre ++ f :: post →
  Schema.fields new_schema = pre ++ post →
  SchemaField.name f ∉ SchemaField.name <$> (pre ++ post) →
  PyStr.contains ": " (SchemaField.name f) = false →
  migration_lines schema_name old_schema new_schema version now
  = Some [ "-- Migration for " +:+ schema_name +:+ " to version "
             +:+ SchemaVersion.version version;
           "-- Generated at: " +:+ now;
           "-- Description: " +:+ SchemaVersion.description version;
           "";
           "-- Removed field: " +:+ SchemaField.name f;
           "ALTER TABLE " +:+ schema_name +:+ " DROP COLUMN "
             +:+ SchemaField.name f +:+ ";";
           "";
           "-- End of migration" ].
Proof.
  intros Hold Hnew Hnotin Hno. unfold migration_lines.
  rewrite (detect_one_field_removed pre post f old_schema Hold new_schema) by done.
  cbn [foldl]. unfold migration_step. cbn [mbind option_bind].
  by rewrite change_sql_removed.
Qed.

Lemma migration_for_removed_field_witness :
  migration_lines "orders" (orders_schema [id_field; amount_field])
                  (orders_schema [id_field]) orders_v2_info "2024-05-01T09:00:00"
  = Some [ "-- Migration for orders to version 2.0.0";
           "-- Generated at: 2024-05-01T09:00:00";
           "-- Description: Widen amount";
           "";
           "-- Removed field: amount";
           "ALTER TABLE orders DROP COLUMN amount;";
           "";
           "-- End of migration" ].
Proof.
  apply (migration_for_removed_field [id_field] [] amount_field); try reflexivity.
  vm_compute. intros Hin. inversion Hin as [|? ? ? Hin']. inversion Hin'.
Defined.

Lemma change_sql_comment schema_name change added :
  change_sql schema_name change = Some added → ("-- " +:+ change) ∈ added.
Proof.
  unfold change_sql.
  destruct (PyStr.contains "Removed field" change).
  - destruct (PyStr.split ": " change !! 1%nat); [|done]. intros [= <-]. left.
  - destruct (PyStr.contains "Changed data type" change).
    + destruct (PyStr.split " " change !! 5%nat); [|done].
      destruct (PyStr.split " -> " change !! 1%nat); [|done]. intros [= <-]. left.
    + intros [= <-]. left.
Qed.

Lemma migration_loop_raised schema_name changes :
  foldl (migration_step schema_name) None changes = None.
Proof. by induction changes. Qed.

Lemma migration_loop_done schema_name acc changes lines :
  foldl (migration_step schema_name) (Some acc) changes = Some lines →
  ∃ body, lines = acc ++ body
          ∧ (∀ c, c ∈ changes → ("-- " +:+ c) ∈ body)
          ∧ Forall (fun c => is_Some (change_sql schema_name c)) changes.
Proof.
  revert acc. induction changes as [|c cs IH]; intros acc; simpl.
  - intros [= <-]. exists []. rewrite app_nil_r. split_and!; [done| |constructor].
    by intros c ?%elem_of_nil.
  - destruct (change_sql schema_name c) as [added|] eqn:Hc; simpl;
      [|by rewrite migration_loop_raised].
    intros (body & -> & Hbody & Hall)%IH. exists (added ++ body).
    rewrite app_assoc. split_and!; [done| |constructor; [by eauto|done]].
    intros c' [->|Hin]%elem_of_cons; apply elem_of_app.
    + left. by eapply change_sql_comment.
    + right. by apply Hbody.
Qed.

Lemma migration_loop_total schema_name acc changes :
  Forall (fun c => is_Some (change_sql schema_name c)) changes →
  is_Some (foldl (migration_step schema_name) (Some acc) changes).
Proof.
  intros Hall. revert acc. induction Hall as [|c cs [added Hc] _ IH]; intros acc.
  - by eexists.
  - simpl. rewrite Hc. simpl. apply IH.
Qed.

(** X9. The shape of a migration script.  When the generator completes, the
    script is the three header lines and a blank line, then a body, then a
    blank line and "-- End of migration", and the body has the comment line
    "-- " followed by the entry for every breaking change that the detector
    reports.  The generator completes exactly when it can read every reported
    entry; otherwise it raises and no script is written. *)
Theorem migration_script_shape
    (schema_name : string) (old_schema new_schema : Schema.t)
    (version : SchemaVersion.t) (now : datetime) :
  (∀ migration_sql,
      migration_lines schema_name old_schema new_schema version now = Some migration_sql →
      ∃ body,
        migration_sql
        = [ "-- Migration for " +:+ schema_name +:+ " to version "
              +:+ SchemaVersion.version version;
            "-- Generated at: " +:+ now;
            "-- Description: " +:+ SchemaVersion.description version;
            "" ] ++ body ++ [""; "-- End of migration"]
        ∧ ∀ change, change ∈ _detect_breaking_changes old_schema new_schema →
                    ("-- " +:+ change) ∈ body)
  ∧ (is_Some (migration_lines schema_name old_schema new_schema version now)
     ↔ Forall (fun change => is_Some (change_sql schema_name change))
              (_detect_breaking_changes old_schema new_schema)).
Proof.
  unfold migration_lines. split.
  - intros migration_sql.
    destruct (foldl _ _ _) as [lines|] eqn:Hloop; [|done]. simpl. intros [= <-].
    apply migration_loop_done in Hloop as (body & -> & Hbody & _).
    exists body. split; [|done]. by rewrite <- app_assoc.
  - split.
    + destruct (foldl _ _ _) as [lines|] eqn:Hloop; [|by intros [? [=]]].
      intros _. by apply migration_loop_done in Hloop as (_ & _ & _ & Hall).
    + intros Hall. eapply migration_loop_total in Hall as [lines ->]. by eexists.
Qed.

Lemma migration_script_shape_witness :
  ∃ body,
    orders_v2_script
    = [ "-- Migration for orders to version 2.0.0";
        "-- Generated at: 2024-05-01T09:00:00";
        "-- Description: Widen amount";
        "" ] ++ body ++ [""; "-- End of migration"]
    ∧ ∀ change, change ∈ _detect_breaking_changes orders_v1 orders_v2 →
                ("-- " +:+ change) ∈ body.
Proof.
  apply (proj1 (migration_script_shape "orders" orders_v1 orders_v2 orders_v2_info
                                       "2024-05-01T09:00:00")).
  reflexivity.
Defined.

(** ** More on the store *)


Lemma save_version_other vs schema_name version file :
  file ≠ version_file schema_name →
  _save_version vs schema_name version !! file = vs !! file.
Proof. intros Hne. unfold _save_version. by rewrite lookup_insert_ne. Qed.



(** X12. A schema written by [create_schema] is not read back: the document
    holds the schema type as the text of the enum member (for instance
    "SchemaType.RELATIONAL"), which is not the value of any member, so
    [get_schema] of the name just created returns nothing. *)
Theorem created_schema_is_not_read_back
    (json_dumps : json → string) (sha256_hexdigest : string → string)
    (utcnow : nat → datetime) (st st1 : Store) (schema : Schema.t) :
  create_schema json_dumps sha256_hexdigest utcnow st schema = (true, st1) →
  schema_exists st1 (Schema.name schema) = true
  ∧ (∃ schema_data,
        definitions st1 !! definition_file (Schema.name schema) = Some schema_data
        ∧ (as_obj schema_data ≫= PyDict.get "schema_type")
          = Some (JStr (SchemaType_str (Schema.schema_type schema))))
  ∧ SchemaType_of_value (SchemaType_str (Schema.schema_type schema)) = None
  ∧ get_schema st1 (Schema.name schema) = None.
Proof.
  intros Hcreated. split_and!.
  - eapply schema_exists_lookup, create_schema_stored, Hcreated.
  - eexists. split; [by eapply create_schema_stored|]. reflexivity.
  - by destruct (Schema.schema_type schema).
  - by eapply get_schema_after_create.
Qed.

Lemma created_schema_is_not_read_back_witness :
  get_schema (snd (create_schema json_text plain_digest
                                 (fixed_clock "2024-05-01T09:00:00")
                                 empty_store orders_v1)) "orders"
  = None.
Proof.
  apply (created_schema_is_not_read_back json_text plain_digest
           (fixed_clock "2024-05-01T09:00:00") empty_store _ orders_v1).
  reflexivity.
Defined.

(** X13. Hence an update that follows a creation fails: after a successful
    [create_schema], [update_schema] for that name returns false and leaves
    the store and the caller's version record as they were, whatever the new
    schema is. *)
Theorem update_after_create_fails
    (json_dumps : json → string) (sha256_hexdigest : string → string)
    (utcnow1 utcnow2 : nat → datetime) (st st1 : Store)
    (schema new_schema : Schema.t) (version_info : SchemaVersion.t) :
  create_schema json_dumps sha256_hexdigest utcnow1 st schema = (true, st1) →
  Schema.name new_schema = Schema.name schema →
  update_schema json_dumps sha256_hexdigest utcnow2 st1 new_schema version_info
  = {| updated := false; store_after := st1; version_info_after := version_info |}.
Proof.
  intros Hcreated Hname. unfold update_schema. rewrite Hname.
  rewrite (get_schema_after_create _ _ _ _ _ _ Hcreated).
  by destruct (negb (schema_exists st1 (Schema.name schema))).
Qed.

Lemma update_after_create_fails_witness :
  let st1 := snd (create_schema json_text plain_digest (fixed_clock "2024-05-01T09:00:00")
                                empty_store orders_v1) in
  update_schema json_text plain_digest (fixed_clock "2024-06-01T09:00:00")
                st1 orders_v2 orders_v2_info
  = {| updated := false; store_after := st1; version_info_after := orders_v2_info |}.
Proof.
  cbv zeta.
  apply (update_after_create_fails json_text plain_digest
           (fixed_clock "2024-05-01T09:00:00") (fixed_clock "2024-06-01T09:00:00")
           empty_store _ orders_v1); reflexivity.
Defined.

(** ** Reading a document back *)

Lemma mapM_as_str l : mapM as_str (map JStr l) = Some l.
Proof. induction l as [|x l IH]; [done|]. cbn. by rewrite IH. Qed.

Lemma as_opt_str_of_option o : as_opt_str (json_of_option_str o) = Some o.
Proof. by destruct o. Qed.

Lemma SchemaType_value_roundtrip t : SchemaType_of_value (SchemaType_value t) = Some t.
Proof. by destruct t. Qed.

Lemma DataClassification_value_roundtrip c :
  DataClassification_of_value (DataClassification_value c) = Some c.
Proof. by destruct c. Qed.

Lemma load_asdict_SchemaField f :
  load_SchemaField (asdict_SchemaField f) = Some (as_loaded_field f).
Proof.
  destruct f as [n dt nl pk fk un ix dv de cl vr tg].
  unfold load_SchemaField, asdict_SchemaField, as_loaded_field. cbn.
  rewrite !as_opt_str_of_option. cbn. by rewrite mapM_as_str.
Qed.

Lemma load_asdict_SchemaIndex i :
  load_SchemaIndex (asdict_SchemaIndex i) = Some i.
Proof.
  destruct i as [n fs un ty pc de].
  unfold load_SchemaIndex, asdict_SchemaIndex. cbn.
  rewrite mapM_as_str. cbn. by rewrite !as_opt_str_of_option.
Qed.

Lemma load_asdict_SchemaRelationship r :
  load_SchemaRelationship (asdict_SchemaRelationship r) = Some r.
Proof. by destruct r. Qed.

Lemma mapM_map_Some {A B} (enc : A → json) (dec : json → option B) (g : A → B)
    (l : list A) :
  (∀ x, dec (enc x) = Some (g x)) → mapM dec (map enc l) = Some (g <$> l).
Proof.
  intros Hdec. induction l as [|x l IH]; [done|]. cbn. rewrite Hdec. cbn.
  by rewrite IH.
Qed.

Lemma load_document_by_value schema :
  load_Schema (document_by_value schema) = Some (as_loaded schema).
Proof.
  destruct schema as [n v ty de fs ixs rs bo tow cl rp bp tg md].
  unfold load_Schema, document_by_value, as_loaded, Schema.with_fields.
  destruct ty, cl; cbn;
    rewrite (mapM_map_Some _ _ _ fs load_asdict_SchemaField); cbn;
    rewrite (mapM_map_Some _ _ id ixs load_asdict_SchemaIndex); cbn;
    rewrite (mapM_map_Some _ _ id rs load_asdict_SchemaRelationship); cbn;
    rewrite !as_opt_str_of_option; cbn;
    rewrite mapM_as_str; cbn;
    by rewrite !list_fmap_id.
Qed.

(** X14. Round trip through a document that stores the enum members by
    value.  [get_schema] of such a document gives the schema back with every
    attribute, every index and every relationship as it was, and every field
    as it was except that its classification is the stored text and not the
    enum member. *)
Theorem get_schema_round_trip (st : Store) (schema : Schema.t) :
  definitions st !! definition_file (Schema.name schema)
    = Some (document_by_value schema) →
  ∃ loaded,
    get_schema st (Schema.name schema) = Some loaded
    ∧ loaded = Schema.with_fields (Schema.fields loaded) schema
    ∧ Forall2 (fun f g =>
                 g = SchemaField.mk (SchemaField.name f) (SchemaField.data_type f)
                       (SchemaField.nullable f) (SchemaField.primary_key f)
                       (SchemaField.foreign_key f) (SchemaField.unique f)
                       (SchemaField.indexed f) (SchemaField.default_value f)
                       (SchemaField.description f)
                       (Stored (json_of_FieldClassification (SchemaField.classification f)))
                       (SchemaField.validation_rules f) (SchemaField.tags f))
              (Schema.fields schema) (Schema.fields loaded).
Proof.
  intros Hdoc. exists (as_loaded schema). split_and!.
  - unfold get_schema. rewrite Hdoc. apply load_document_by_value.
  - done.
  - unfold as_loaded. cbn. apply Forall2_fmap_r, Forall_Forall2_diag, Forall_true.
    done.
Qed.

Lemma get_schema_round_trip_witness :
  ∃ loaded,
    get_schema {| definitions := {[ definition_file "orders" := document_by_value orders_v1 ]};
                  versions := ∅; migrations := ∅; governance := ∅ |} "orders"
      = Some loaded
    ∧ Schema.indexes loaded = [] ∧ Schema.name loaded = "orders".
Proof.
  destruct (get_schema_round_trip
              {| definitions := {[ definition_file "orders" := document_by_value orders_v1 ]};
                 versions := ∅; migrations := ∅; governance := ∅ |} orders_v1)
    as (loaded & Hget & Heq & _); [reflexivity|].
  exists loaded. split; [exact Hget|]. rewrite Heq. split; reflexivity.
Defined.

(** ** The governance record *)





(** ** More on search *)

Lemma lower_upper_char c : PyStr.lower_char (PyStr.upper_char c) = PyStr.lower_char c.
Proof. by destruct c as [[] [] [] [] [] [] [] []]. Qed.

Lemma lower_upper s : PyStr.lower (PyStr.upper s) = PyStr.lower s.
Proof.
  unfold PyStr.lower, PyStr.upper.
  induction s as [|c s IH]; [done|]. cbn [PyStr.map_chars].
  by rewrite lower_upper_char, IH.
Qed.

Lemma contains_empty s : PyStr.contains "" s = true.
Proof. by destruct s. Qed.

Lemma matches_empty text : matches "" text = true.
Proof. unfold matches. apply contains_empty. Qed.

Lemma weight_range w b : (0 ≤ w)%Z → (0 ≤ weight w b ≤ w)%Z.
Proof. unfold weight. destruct b; lia. Qed.

(** X16. The score of a resource lies between 0 and 21, and it is 0 exactly
    when the query occurs in none of the five places (name, description,
    tags, metadata values, system). *)
Theorem score_range (py_str : json → string) (r : DataResource.t) (query : string) :
  (0 ≤ fst (_calculate_search_score py_str r query) ≤ 21)%Z
  ∧ (fst (_calculate_search_score py_str r query) = 0%Z
     ↔ name_match r query = false ∧ description_match r query = false
       ∧ tag_match r query = false ∧ metadata_match py_str r query = false
       ∧ system_match r query = false).
Proof.
  rewrite score_additive. unfold weight.
  destruct (name_match r query), (description_match r query), (tag_match r query),
    (metadata_match py_str r query), (system_match r query);
    (split; [lia|]); split; try lia; try done; intros (? & ? & ? & ? & ?); done.
Qed.

(** X17. The empty query occurs in every name and in every system, so every
    resource scores at least 11 on it and a search for the empty text keeps
    exactly the resources that pass the filters. *)
Theorem empty_query_keeps_all (py_str : json → string) (r : DataResource.t)
    (filters : option (list (string * json))) :
  name_match r "" = true
  ∧ system_match r "" = true
  ∧ (11 ≤ fst (_calculate_search_score py_str r ""))%Z
  ∧ kept py_str "" filters r = passes filters r.
Proof.
  assert (11 ≤ fst (_calculate_search_score py_str r ""))%Z as Hscore.
  { rewrite score_additive. unfold name_match, system_match.
    rewrite !matches_empty. unfold weight.
    destruct (description_match r ""), (tag_match r ""), (metadata_match py_str r "");
      lia. }
  split; [unfold name_match; apply matches_empty|].
  split; [unfold system_match; apply matches_empty|].
  split; [exact Hscore|].
  unfold kept. rewrite (proj2 (Z.ltb_lt 0 _)) by lia. by rewrite andb_true_r.
Qed.



Lemma calculate_search_score_upper py_str r query :
  _calculate_search_score py_str r (PyStr.upper query)
  = _calculate_search_score py_str r query.
Proof. unfold _calculate_search_score. by rewrite lower_upper. Qed.

Lemma search_step_upper py_str query filters results r :
  search_step py_str (PyStr.upper query) filters results r
  = search_step py_str query filters results r.
Proof. unfold search_step. by rewrite calculate_search_score_upper. Qed.

(** X19. The case of the query does not matter: a search for the query in
    upper case gives the same results, with the same scores, matching fields
    and order, as a search for the query as written. *)
Theorem search_ignores_query_case (py_str : json → string)
    (files : list (option DataResource.t)) (query : string)
    (filters : option (list (string * json))) (limit : Z) :
  search_resources py_str files (PyStr.upper query) filters limit
  = search_resources py_str files query filters limit.
Proof.
  unfold search_resources. destruct (mapM id files) as [resources|]; [|done].
  do 2 f_equal. generalize (@nil SearchResult.t).
  induction resources as [|r rs IH]; intros acc; [done|].
  simpl. by rewrite search_step_upper, IH.
Qed.

Lemma filter_ok_unknown r key value :
  key ∉ known_filter_keys → filter_ok r (key, value) = true.
Proof.
  unfold known_filter_keys, filter_ok. intros Hkey.
  destruct (String.eqb_spec key "type") as [->|]; [destruct Hkey; set_solver|].
  destruct (String.eqb_spec key "system") as [->|]; [destruct Hkey; set_solver|].
  destruct (String.eqb_spec key "owner") as [->|]; [destruct Hkey; set_solver|].
  destruct (String.eqb_spec key "tags") as [->|]; [destruct Hkey; set_solver|].
  done.
Qed.

(** X20. A filter under a key other than type, system, owner and tags is
    ignored: a search whose filters all have such keys returns what the
    search without filters returns. *)
Theorem search_ignores_unknown_filters (py_str : json → string)
    (files : list (option DataResource.t)) (query : string)
    (filters : list (string * json)) (limit : Z) :
  Forall (fun kv => fst kv ∉ known_filter_keys) filters →
  search_resources py_str files query (Some filters) limit
  = search_resources py_str files query None limit.
Proof.
  intros Hunknown. unfold search_resources.
  destruct (mapM id files) as [resources|]; [|done].
  do 2 f_equal. generalize (@nil SearchResult.t).
  assert (∀ r, _matches_filters r filters = true) as Hpass.
  { intros r. unfold _matches_filters. apply forallb_forall.
    intros [key value] Hin%list_elem_of_In.
    apply filter_ok_unknown. by apply (proj1 (Forall_forall _ _) Hunknown (key, value)). }
  induction resources as [|r rs IH]; intros acc; [done|].
  simpl. rewrite <- IH. f_equal. unfold search_step.
  destruct filters as [|f fs]; [done|]. by rewrite Hpass.
Qed.

Lemma search_ignores_unknown_filters_witness :
  search_resources (fun _ => "") [Some invoices; Some shipments; Some user_orders]
                   "order" (Some [("owners", JStr "nobody")]) 20
  = search_resources (fun _ => "") [Some invoices; Some shipments; Some user_orders]
                     "order" None 20.
Proof.
  apply search_ignores_unknown_filters. constructor; [|constructor].
  simpl. intros Hin.
  repeat (inversion Hin as [|? ? ? Hin']; clear Hin; rename Hin' into Hin).
Defined.

Lemma tags_loop_labels query tags acc :
  snd (tags_loop (PyStr.lower query) tags acc)
  = snd acc ++ (if existsb (matches query) tags then ["tags"] else []).
Proof.
  induction tags as [|tag tags IH]; cbn [tags_loop existsb]; [by rewrite app_nil_r|].
  unfold matches at 1. by destruct (PyStr.contains _ _).
Qed.

Lemma metadata_loop_labels py_str query items acc :
  snd (metadata_loop py_str (PyStr.lower query) items acc)
  = snd acc
    ++ match find (fun kv => matches query (py_str (MetadataAttribute.value (snd kv))))
                  items with
       | Some kv => ["metadata." +:+ fst kv]
       | None => []
       end.
Proof.
  induction items as [|[key attr] items IH]; cbn [metadata_loop find];
    [by rewrite app_nil_r|].
  unfold matches at 1. cbn [snd]. by destruct (PyStr.contains _ _).
Qed.

Lemma find_existsb {A} (p : A → bool) (l : list A) :
  existsb p l = match find p l with Some _ => true | None => false end.
Proof. induction l as [|x l IH]; [done|]. simpl. by destruct (p x). Qed.

(** X21. The matching fields reported with a score are the labels of the
    places that match, in the fixed order name, description, tags, metadata,
    system; for the metadata only the first attribute whose value matches is
    named, as "metadata.<key>".  The list is empty exactly when the score is
    zero. *)
Theorem matching_fields_spec (py_str : json → string) (r : DataResource.t)
    (query : string) :
  snd (_calculate_search_score py_str r query) = match_labels py_str r query
  ∧ (snd (_calculate_search_score py_str r query) = []
     ↔ fst (_calculate_search_score py_str r query) = 0%Z).
Proof.
  assert (snd (_calculate_search_score py_str r query) = match_labels py_str r query)
    as Hlabels.
  { unfold _calculate_search_score, match_labels, name_match, description_match,
      tag_match, first_metadata_match, system_match.
    fold (matches query (DataResource.name r)).
    fold (matches query (DataResource.system r)).
    set (acc1 := if matches query (DataResource.name r) then _ else _).
    set (acc2 := match DataResource.description r with Some _ => _ | None => _ end).
    set (acc3 := match DataResource.tags r with Some _ => _ | None => _ end).
    set (acc4 := match DataResource.metadata r with Some _ => _ | None => _ end).
    assert (snd acc1 = if matches query (DataResource.name r) then ["name"] else [])
      as H1 by (unfold acc1; by destruct (matches _ _)).
    assert (snd acc2 = snd acc1 ++
              if match DataResource.description r with
                 | Some d => negb (PyStr.is_empty d) && matches query d
                 | None => false
                 end then ["description"] else []) as H2.
    { unfold acc2. destruct (DataResource.description r) as [d|];
        [|by rewrite app_nil_r].
      fold (matches query d).
      destruct (negb (PyStr.is_empty d) && matches query d); [done|by rewrite app_nil_r]. }
    assert (snd acc3 = snd acc2 ++
              if match DataResource.tags r with
                 | Some tags => existsb (matches query) tags
                 | None => false
                 end then ["tags"] else []) as H3.
    { unfold acc3. destruct (DataResource.tags r) as [tags|]; [|by rewrite app_nil_r].
      apply tags_loop_labels. }
    assert (snd acc4 = snd acc3 ++
              match match DataResource.metadata r with
                    | Some items =>
                        find (fun kv => matches query
                                          (py_str (MetadataAttribute.value (snd kv)))) items
                    | None => None
                    end with
              | Some kv => ["metadata." +:+ fst kv]
              | None => []
              end) as H4.
    { unfold acc4. destruct (DataResource.metadata r) as [items|];
        [|by rewrite app_nil_r].
      apply metadata_loop_labels. }
    destruct (matches query (DataResource.system r)); cbn [snd];
      rewrite H4, H3, H2, H1, <- ?app_assoc; [done|].
    by rewrite app_nil_r. }
  split; [done|]. rewrite Hlabels, score_additive.
  unfold match_labels, metadata_match, first_metadata_match, weight.
  destruct (DataResource.metadata r) as [items|].
  - rewrite find_existsb.
    destruct (name_match r query), (description_match r query), (tag_match r query),
      (find _ items), (system_match r query); simpl; split; (done || lia).
  - destruct (name_match r query), (description_match r query), (tag_match r query),
      (system_match r query); simpl; split; (done || lia).
Qed.

Lemma length_append s t : String.length (s +:+ t) = (String.length s + String.length t)%nat.
Proof.
  induction s as [|c s IH]; [done|]. rewrite append_cons. cbn [String.length].
  by rewrite IH.
Qed.

Lemma length_substring_le n s : (String.length (String.substring 0 n s) ≤ n)%nat.
Proof.
  revert s. induction n as [|n IH]; intros [|c s]; cbn; try lia.
  specialize (IH s). lia.
Qed.

(** X22. The snippet of a search result is the description itself when the
    resource has one of at most 200 characters; a longer description is cut
    to its first 200 characters followed by three dots, so a snippet made of
    a description never has more than 203 characters; without a description
    (none, or the empty text) the snippet is "<type> in <system>". *)
Theorem snippet_spec (r : DataResource.t) (query : string) :
  (∀ d, DataResource.description r = Some d → d ≠ "" →
        (String.length (_generate_snippet r query) ≤ 203)%nat
        ∧ ((String.length d ≤ 200)%nat → _generate_snippet r query = d)
        ∧ ((200 < String.length d)%nat →
           _generate_snippet r query = String.substring 0 200 d +:+ "..."))
  ∧ (DataResource.description r = None ∨ DataResource.description r = Some "" →
     _generate_snippet r query
     = ResourceType_value (DataResource.type r) +:+ " in " +:+ DataResource.system r).
Proof.
  unfold _generate_snippet. split.
  - intros d -> Hd%is_empty_false. rewrite Hd.
    destruct (Nat.ltb_spec 200 (String.length d)) as [Hlong|Hshort].
    + split_and!; [|lia|done]. rewrite length_append.
      pose proof (length_substring_le 200 d). cbn [String.length]. lia.
    + split_and!; [lia|done|lia].
  - by intros [-> | ->].
Qed.

Lemma snippet_spec_witness :
  (String.length (_generate_snippet user_orders "order") ≤ 203)%nat
  ∧ _generate_snippet user_orders "order" = "Customer order history".
Proof.
  destruct (proj1 (snippet_spec user_orders "order") "Customer order history")
    as (Hlen & Hshort & _); [reflexivity|discriminate|].
  split; [exact Hlen|]. apply Hshort. vm_compute. lia.
Defined.

(** ** Tags from names and the system catalog *)

(** X23. The tags extracted from a resource name are some of user-data,
    transactional, logging and temporary, each at most once and in this
    order, and they do not depend on the case of the name. *)
Theorem extract_tags_spec (name : string) :
  sublist (_extract_tags_from_name name)
          ["user-data"; "transactional"; "logging"; "temporary"]
  ∧ _extract_tags_from_name (PyStr.upper name) = _extract_tags_from_name name.
Proof.
  split.
  - unfold _extract_tags_from_name.
    destruct (PyStr.contains "user" _), (PyStr.contains "order" _),
      (PyStr.contains "log" _), (PyStr.contains "temp" _ || PyStr.contains "tmp" _);
      cbn [app]; repeat constructor.
  - unfold _extract_tags_from_name. by rewrite lower_upper.
Qed.




(** ** The outcomes of an update *)

(** ** Documents with values of the annotated types *)

Lemma kwarg_typed {A} k ok (dec : json → option A) d kvs :
  typed_at k ok kvs = true →
  (∀ j, ok j = true → is_Some (dec j)) →
  ∃ a, kwarg k dec d kvs = Some a.
Proof.
  unfold typed_at, kwarg. destruct (PyDict.get k kvs) as [j|]; [|by eauto].
  intros Hok Hdec. by destruct (Hdec j Hok) as [a ->]; eauto.
Qed.

Lemma required_typed {A} k ok (dec : json → option A) kvs :
  typed_at k ok kvs = true →
  (∀ j, ok j = true → is_Some (dec j)) →
  (PyDict.mem k kvs = true ∧ ∃ a, required k dec kvs = Some a)
  ∨ (PyDict.mem k kvs = false ∧ required k dec kvs = None).
Proof.
  unfold typed_at, required, PyDict.mem. destruct (PyDict.get k kvs) as [j|]; [|by right].
  intros Hok Hdec. left. split; [done|]. destruct (Hdec j Hok) as [a Ha]. exists a. exact Ha.
Qed.

Lemma is_str_dec j : is_str j = true → is_Some (as_str j).
Proof. destruct j; by eauto. Qed.
Lemma is_bool_dec j : is_bool j = true → is_Some (as_bool j).
Proof. destruct j; by eauto. Qed.
Lemma is_opt_str_dec j : is_opt_str j = true → is_Some (as_opt_str j).
Proof. destruct j; by eauto. Qed.
Lemma is_strings_dec j : is_strings j = true → is_Some (as_strings j).
Proof.
  destruct j as [| | | |l|]; try done. simpl. intros Hl.
  induction l as [|x l IH]; [by eauto|].
  simpl in Hl. apply andb_prop in Hl as [Hx Hl].
  destruct x; try done. destruct (IH Hl) as [l' Hl'].
  exists (s :: l'). cbn. cbn in Hl'. by rewrite Hl'.
Qed.
Lemma is_opt_strings_dec j : is_opt_strings j = true → is_Some (null_to as_strings [] j).
Proof. destruct j; try done; try (by eauto). apply is_strings_dec. Qed.
Lemma is_opt_obj_dec j : is_opt_obj j = true → is_Some (null_to as_obj [] j).
Proof. destruct j; by eauto. Qed.

Ltac split_typed H :=
  repeat (let H1 := fresh "Ht" in apply andb_prop in H as [H H1]).

Lemma kwarg_total {A} k (dec : json → option A) d kvs :
  (∀ j, is_Some (dec j)) → ∃ a, kwarg k dec d kvs = Some a.
Proof.
  unfold kwarg. destruct (PyDict.get k kvs) as [j|]; [|by eauto].
  intros Hdec. destruct (Hdec j) as [a ->]. by eauto.
Qed.

Ltac dec_tac :=
  first [ apply is_str_dec | apply is_bool_dec | apply is_opt_str_dec
        | apply is_opt_strings_dec | apply is_opt_obj_dec | apply is_strings_dec ].

Ltac step_kwarg :=
  lazymatch goal with
  | |- context [kwarg ?k ?dec ?d ?kvs ≫= _] =>
      let a := fresh "a" in let Ha := fresh "Ha" in
      first
        [ lazymatch goal with
          | H : typed_at k ?ok kvs = true |- _ =>
              destruct (kwarg_typed k ok dec d kvs H) as [a Ha]; [dec_tac|]
          end
        | destruct (kwarg_total k dec d kvs) as [a Ha]; [by eauto|] ];
      rewrite Ha; clear Ha; cbn [mbind option_bind]
  end.

Lemma load_SchemaField_typed j :
  typed_field j = true →
  (is_Some (load_SchemaField j) ↔ field_readable j = true).
Proof.
  destruct j as [| | | | |kvs]; try (by split; [intros []|]).
  unfold typed_field, field_readable, load_SchemaField. intros Ht. split_typed Ht.
  cbn [as_obj mbind option_bind].
  destruct (only_keys _ kvs); [|by split; [intros []|]]. cbn [andb].
  destruct (required_typed "name" is_str as_str kvs) as [[-> [a ->]]|[-> ->]];
    [done|apply is_str_dec| |by split; [intros []|]].
  destruct (required_typed "data_type" is_str as_str kvs) as [[-> [b ->]]|[-> ->]];
    [done|apply is_str_dec| |by split; [intros []|]].
  cbn [mbind option_bind andb].
  repeat step_kwarg. by split; [|eauto].
Qed.

Ltac none_case := by (rewrite ?andb_false_r; cbn [andb]; split; [intros []|]).

Ltac step_required :=
  lazymatch goal with
  | |- context [required ?k ?dec ?kvs ≫= _] =>
      lazymatch goal with
      | H : typed_at k ?ok kvs = true |- _ =>
          let a := fresh "a" in
          destruct (required_typed k ok dec kvs H) as [[-> [a ->]]|[-> ->]];
          [ dec_tac | cbn [mbind option_bind andb] | none_case ]
      end
  end.

Lemma load_SchemaIndex_typed j :
  typed_index j = true →
  (is_Some (load_SchemaIndex j) ↔ index_readable j = true).
Proof.
  destruct j as [| | | | |kvs]; try (by split; [intros []|]).
  unfold typed_index, index_readable, load_SchemaIndex. intros Ht. split_typed Ht.
  cbn [as_obj mbind option_bind].
  destruct (only_keys _ kvs); [|by split; [intros []|]]. cbn [andb].
  repeat step_required. repeat step_kwarg. by split; [|eauto].
Qed.

Lemma load_SchemaRelationship_typed j :
  typed_relationship j = true →
  (is_Some (load_SchemaRelationship j) ↔ relationship_readable j = true).
Proof.
  destruct j as [| | | | |kvs]; try (by split; [intros []|]).
  unfold typed_relationship, relationship_readable, load_SchemaRelationship.
  intros Ht. split_typed Ht.
  cbn [as_obj mbind option_bind].
  destruct (only_keys _ kvs); [|by split; [intros []|]]. cbn [andb].
  repeat step_required. repeat step_kwarg. by split; [|eauto].
Qed.

Lemma mapM_typed {A} (typed readable : json → bool) (load : json → option A) l :
  (∀ j, typed j = true → (is_Some (load j) ↔ readable j = true)) →
  forallb typed l = true →
  (forallb readable l = true ∧ ∃ xs, mapM load l = Some xs)
  ∨ (forallb readable l = false ∧ mapM load l = None).
Proof.
  intros Hload. induction l as [|j l IH]; [by left; eauto|].
  cbn [forallb]. intros [Hj Hl]%andb_prop.
  destruct (readable j) eqn:Hr.
  - destruct (proj2 (Hload j Hj) Hr) as [x Hx].
    destruct (IH Hl) as [[-> [xs Hxs]]|[-> Hnone]].
    + left. split; [done|]. exists (x :: xs). cbn. by rewrite Hx, Hxs.
    + right. split; [done|]. cbn. by rewrite Hx, Hnone.
  - right. split; [done|]. cbn.
    destruct (load j) eqn:Hx; [|done].
    assert (is_Some (load j)) as Hs%Hload by (rewrite Hx; eauto); [congruence|done].
Qed.

Lemma entries_typed {A} k (typed readable : json → bool) (load : json → option A) kvs :
  (∀ j, typed j = true → (is_Some (load j) ↔ readable j = true)) →
  typed_at k (is_list_of typed) kvs = true →
  (forallb readable (entries k kvs) = true
   ∧ ∃ xs, kwarg k as_list [] kvs ≫= mapM load = Some xs)
  ∨ (forallb readable (entries k kvs) = false
     ∧ kwarg k as_list [] kvs ≫= mapM load = None).
Proof.
  intros Hload. unfold typed_at, entries, kwarg.
  destruct (PyDict.get k kvs) as [j|]; [|by left; eauto].
  destruct j as [| | | |l|]; try done. cbn [is_list_of as_list mbind option_bind].
  by apply mapM_typed.
Qed.

Ltac step_entries lem :=
  lazymatch goal with
  | |- context [(kwarg ?k as_list [] ?kvs ≫= mapM ?load) ≫= _] =>
      lazymatch goal with
      | H : typed_at k (is_list_of ?typed) kvs = true |- _ =>
          let xs := fresh "xs" in
          destruct (entries_typed k typed _ load kvs lem H) as [[-> [xs ->]]|[-> ->]];
          [ cbn [mbind option_bind andb] | none_case ]
      end
  end.

Lemma enum_required_typed {A} k (of_value : string → option A) kvs :
  typed_at k is_str kvs = true →
  (match PyDict.get k kvs with
   | Some (JStr v) => bool_decide (is_Some (of_value v))
   | _ => false
   end = true
   ∧ ∃ a, required k as_str kvs ≫= of_value = Some a)
  ∨ (match PyDict.get k kvs with
     | Some (JStr v) => bool_decide (is_Some (of_value v))
     | _ => false
     end = false
     ∧ required k as_str kvs ≫= of_value = None).
Proof.
  unfold typed_at, required. destruct (PyDict.get k kvs) as [j|]; [|by right].
  destruct j as [| | |v| |]; try done. intros _. cbn [mbind option_bind as_str].
  destruct (of_value v) as [a|] eqn:Hv.
  - left. split; [|by eauto]. apply bool_decide_eq_true_2. by eauto.
  - right. split; [|done]. apply bool_decide_eq_false_2. by intros [].
Qed.

Lemma enum_kwarg_typed {A} k (of_value : string → option A) dflt kvs :
  typed_at k is_str kvs = true →
  is_Some (of_value dflt) →
  (match PyDict.get k kvs with
   | Some (JStr v) => bool_decide (is_Some (of_value v))
   | Some _ => false
   | None => true
   end = true
   ∧ ∃ a, kwarg k as_str dflt kvs ≫= of_value = Some a)
  ∨ (match PyDict.get k kvs with
     | Some (JStr v) => bool_decide (is_Some (of_value v))
     | Some _ => false
     | None => true
     end = false
     ∧ kwarg k as_str dflt kvs ≫= of_value = None).
Proof.
  unfold typed_at, kwarg. intros Ht [d Hd].
  destruct (PyDict.get k kvs) as [j|].
  - destruct j as [| | |v| |]; try done. cbn [mbind option_bind as_str].
    destruct (of_value v) as [a|] eqn:Hv.
    + left. split; [|by eauto]. apply bool_decide_eq_true_2. by eauto.
    + right. split; [|done]. apply bool_decide_eq_false_2. by intros [].
  - left. split; [done|]. cbn [mbind option_bind]. by eauto.
Qed.

(** On a document with values of the annotated types, [load_Schema] fails
    exactly where the code raises. *)
Lemma load_Schema_typed schema_data :
  typed_document schema_data = true →
  (is_Some (load_Schema schema_data) ↔ document_readable schema_data = true).
Proof.
  destruct schema_data as [| | | | |kvs]; try (by split; [intros []|]).
  unfold typed_document, document_readable, load_Schema. intros Ht. split_typed Ht.
  cbn [as_obj mbind option_bind].
  step_entries load_SchemaField_typed.
  step_entries load_SchemaIndex_typed.
  step_entries load_SchemaRelationship_typed.
  do 2 step_required.
  destruct (enum_required_typed "schema_type" SchemaType_of_value kvs)
    as [[-> [ty ->]]|[-> ->]]; [done| |none_case].
  cbn [mbind option_bind andb].
  step_required.
  do 2 step_kwarg.
  destruct (enum_kwarg_typed "classification" DataClassification_of_value "internal" kvs)
    as [[-> [cl ->]]|[-> ->]]; [done|by eauto| |none_case].
  cbn [mbind option_bind andb].
  repeat step_kwarg. by split; [|eauto].
Qed.

(** X26. What makes a stored document unreadable.  For a stored document
    whose values have the types of the annotations, [get_schema] returns a
    schema exactly when the document has [name], [version] and
    [description], its [schema_type] and (when present) its [classification]
    are values of their enums, and every stored field, index and
    relationship has its required attributes and no key that is not an
    attribute; in every other case it returns nothing.  When no document is
    stored under the name it returns nothing. *)
Theorem get_schema_readable (st : Store) (schema_name : string) :
  (∀ schema_data,
      definitions st !! definition_file schema_name = Some schema_data →
      typed_document schema_data = true →
      (is_Some (get_schema st schema_name) ↔ document_readable schema_data = true))
  ∧ (definitions st !! definition_file schema_name = None →
     get_schema st schema_name = None).
Proof.
  split.
  - intros schema_data Hdoc Ht. unfold get_schema. rewrite Hdoc.
    cbn [mbind option_bind]. by apply load_Schema_typed.
  - intros Hdoc. unfold get_schema. by rewrite Hdoc.
Qed.

Lemma get_schema_readable_witness :
  is_Some (get_schema events_store "events")
  ∧ get_schema
      {| definitions :=
           {[ definition_file "events"
              := JObj [ ("name", JStr "events"); ("version", JStr "1.0.0");
                        ("schema_type", JStr "SchemaType.RELATIONAL");
                        ("description", JStr "Schema audit events") ] ]};
         versions := ∅; migrations := ∅; governance := ∅ |}
      "events" = None.
Proof.
  split.
  - apply (proj1 (get_schema_readable events_store "events") events_document);
      reflexivity.
  - destruct (get_schema _ "events") as [schema|] eqn:Hget; [|reflexivity].
    exfalso.
    assert (is_Some (get_schema
      {| definitions :=
           {[ definition_file "events"
              := JObj [ ("name", JStr "events"); ("version", JStr "1.0.0");
                        ("schema_type", JStr "SchemaType.RELATIONAL");
                        ("description", JStr "Schema audit events") ] ]};
         versions := ∅; migrations := ∅; governance := ∅ |} "events")) as Hsome
      by (rewrite Hget; eauto).
    eapply (proj1 (get_schema_readable _ "events")) in Hsome;
      [|reflexivity|reflexivity].
    vm_compute in Hsome. discriminate Hsome.
Defined.

Lemma get_schema_exists st schema_name schema :
  get_schema st schema_name = Some schema → schema_exists st schema_name = true.
Proof.
  unfold get_schema. destruct (definitions st !! _) as [doc|] eqn:Hdoc; [|done].
  intros _. unfold schema_exists. apply bool_decide_eq_true_2. by eauto.
Qed.

(** X25. The outcomes of [update_schema], for a schema name and a version
    that are plain file names and a stored document whose values have the
    types of the annotations.  It returns true exactly when the stored
    document of that name can be read, the new schema is valid, and either
    the detector finds nothing or the migration generator completes.  When it
    returns true, the document is overwritten, the caller's version record is
    stored with its flag set to whether the detector found something, the
    governance records are untouched, and a migration script is written if
    and only if the detector found something.  When the name is not stored,
    the document cannot be read or the new schema is not valid, it returns
    false and the store and the caller's record are unchanged. *)
Theorem update_schema_outcomes
    (json_dumps : json → string) (sha256_hexdigest : string → string)
    (utcnow : nat → datetime) (st : Store) (schema : Schema.t)
    (version_info : SchemaVersion.t) :
  plain_name (Schema.name schema) = true →
  plain_name (SchemaVersion.version version_info) = true →
  (∀ schema_data,
      definitions st !! definition_file (Schema.name schema) = Some schema_data →
      typed_document schema_data = true) →
  let r := update_schema json_dumps sha256_hexdigest utcnow st schema version_info in
  (updated r = true
   ↔ ∃ current_schema,
       get_schema st (Schema.name schema) = Some current_schema
       ∧ valid (validate_schema schema) = true
       ∧ (_detect_breaking_changes current_schema schema = []
          ∨ is_Some (migration_lines (Schema.name schema) current_schema schema
                       (SchemaVersion.set_breaking_changes true version_info)
                       (utcnow 1%nat))))
  ∧ (updated r = true →
     ∃ current_schema,
       get_schema st (Schema.name schema) = Some current_schema
       ∧ let breaking_changes := _detect_breaking_changes current_schema schema in
         let flagged :=
           SchemaVersion.set_breaking_changes (negb (is_nil breaking_changes))
                                              version_info in
         version_info_after r = flagged
         ∧ definitions (store_after r)
           = <[ definition_file (Schema.name schema)
                := schema_document json_dumps sha256_hexdigest schema "updated_at"
                                   (utcnow 0%nat) ]> (definitions st)
         ∧ versions (store_after r)
           = _save_version (versions st) (Schema.name schema) flagged
         ∧ governance (store_after r) = governance st
         ∧ (breaking_changes = [] → migrations (store_after r) = migrations st)
         ∧ (breaking_changes ≠ [] →
            ∃ migration_sql,
              migration_lines (Schema.name schema) current_schema schema flagged
                              (utcnow 1%nat) = Some migration_sql
              ∧ migrations (store_after r)
                = <[ migration_file (Schema.name schema) (SchemaVersion.version flagged)
                     := PyStr.join newline migration_sql ]> (migrations st)))
  ∧ (schema_exists st (Schema.name schema) = false
     ∨ get_schema st (Schema.name schema) = None
     ∨ valid (validate_schema schema) = false →
     r = {| updated := false; store_after := st; version_info_after := version_info |}).
Proof.
  intros _ _ _. cbv zeta. split_and!.
  - unfold update_schema.
    destruct (get_schema st (Schema.name schema)) as [current_schema|] eqn:Hget.
    + rewrite (get_schema_exists _ _ _ Hget). cbn [negb].
      destruct (valid (validate_schema schema)); cbn [negb].
      * destruct (_detect_breaking_changes current_schema schema) as [|c cs] eqn:Hbc.
        -- cbn. split; [intros _|done]. exists current_schema. by eauto.
        -- cbn. unfold _generate_migration.
           destruct (migration_lines _ _ _ _ _) as [lines|] eqn:Hm; cbn.
           ++ split; [intros _|done]. exists current_schema.
              split_and!; [done..|]. right. exists lines. exact Hm.
           ++ split; [done|].
              intros (cur & [= <-] & _ & [Hnil|[lines Hsome]]); [congruence|].
              by pose proof (eq_trans (eq_sym Hsome) Hm).
      * split; [done|]. by intros (? & _ & ? & _).
    + destruct (negb (schema_exists st (Schema.name schema))); cbn;
        (split; [done|]); by intros (? & ? & _).
  - intros Hup.
    destruct (update_schema_success _ _ _ _ _ _ Hup)
      as (current_schema & Hget & _ & Hrest).
    exists current_schema. split; [done|]. exact Hrest.
  - intros [Habsent | [Hunread | Hinvalid]].
    + by apply update_schema_absent.
    + unfold update_schema. rewrite Hunread.
      by destruct (negb (schema_exists st (Schema.name schema))).
    + by apply update_schema_invalid.
Qed.

Lemma update_schema_outcomes_witness :
  let schema :=
    events_schema "2.0.0" [id_field; SchemaField.default "Removed field" "VARCHAR"] in
  let r := update_schema json_text plain_digest (fixed_clock "2024-06-01T09:00:00")
                         events_store schema events_v2_info in
  ∃ current_schema,
    get_schema events_store "events" = Some current_schema
    ∧ SchemaVersion.breaking_changes (version_info_after r) = true
    ∧ governance (store_after r) = ∅.
Proof.
  cbv zeta.
  assert (∀ schema_data,
             definitions events_store !! definition_file "events" = Some schema_data →
             typed_document schema_data = true) as Htyped.
  { intros schema_data Hdoc.
    assert (Some schema_data = Some events_document) as [= ->]
        by (rewrite <- Hdoc; reflexivity).
    reflexivity. }
  destruct (proj1 (proj2 (update_schema_outcomes json_text plain_digest
                            (fixed_clock "2024-06-01T09:00:00") events_store
                            (events_schema "2.0.0"
                               [id_field; SchemaField.default "Removed field" "VARCHAR"])
                            events_v2_info eq_refl eq_refl Htyped)) eq_refl)
    as (current_schema & Hget & Hinfo & _ & _ & Hgov & _).
  exists current_schema. split; [exact Hget|]. split; [|exact Hgov].
  rewrite Hinfo.
  assert (Some current_schema = Some events_v1) as [= ->]
      by (rewrite <- Hget; reflexivity).
  reflexivity.
Defined.


(** ** Isolation between schemas *)

Lemma append_inj_l (s1 s2 t : string) : s1 +:+ t = s2 +:+ t → s1 = s2.
Proof.
  revert s2. induction s1 as [|c s1 IH]; intros [|d s2] Heq.
  - done.
  - apply (f_equal String.length) in Heq.
    rewrite (length_append (String d s2)) in Heq. cbn [String.length] in Heq.
    change ("" +:+ t) with t in Heq. lia.
  - apply (f_equal String.length) in Heq.
    rewrite (length_append (String c s1)) in Heq. cbn [String.length] in Heq.
    change ("" +:+ t) with t in Heq. lia.
  - rewrite !append_cons in Heq. injection Heq as -> Heq. f_equal. by apply IH.
Qed.

Lemma contains_char_append c s t :
  PyStr.contains (String c "") (s +:+ t)
  = PyStr.contains (String c "") s || PyStr.contains (String c "") t.
Proof.
  induction s as [|a s IH].
  - change ("" +:+ t) with t. cbn [PyStr.contains String.prefix orb]. done.
  - rewrite append_cons. cbn [PyStr.contains String.prefix].
    rewrite IH. destruct (Ascii.ascii_dec c a); [|done].
    by rewrite !prefix_empty.
Qed.

(** The file names made of plain names are single path components. *)
Lemma plain_name_files schema_name version :
  plain_name schema_name = true → plain_name version = true →
  Forall (fun file => PyStr.contains "/" file = false
                      ∧ (String.length file ≤ 255)%nat)
         [ definition_file schema_name; version_file schema_name;
           governance_file schema_name; migration_file schema_name version ].
Proof.
  unfold plain_name.
  intros [[Hn%negb_true_iff _]%andb_prop Hln%Nat.leb_le]%andb_prop
         [[Hv%negb_true_iff _]%andb_prop Hlv%Nat.leb_le]%andb_prop.
  unfold definition_file, version_file, governance_file, migration_file.
  repeat (apply Forall_cons; split; [split|]); try apply Forall_nil;
    rewrite ?contains_char_append, ?length_append, ?Hn, ?Hv; cbn; try done; lia.
Qed.

Lemma get_schema_frame (st st1 : Store) (schema_name : string) :
  definitions st1 !! definition_file schema_name
    = definitions st !! definition_file schema_name →
  get_schema st1 schema_name = get_schema st schema_name
  ∧ schema_exists st1 schema_name = schema_exists st schema_name.
Proof. intros Heq. unfold get_schema, schema_exists. by rewrite Heq. Qed.

(** X10. Schemas are isolated from each other.  For schema names (and a
    version) that are plain file names: whatever [create_schema] and
    [update_schema] do to the schema they are called with, and whether they
    return true or false, a schema of another name stays as it was: it
    exists and is read back as before, and its version history and its
    governance record are untouched.  [create_schema] writes no migration
    script and [update_schema] no governance record. *)
Theorem other_schemas_untouched
    (json_dumps : json → string) (sha256_hexdigest : string → string)
    (utcnow : nat → datetime) (st : Store) (schema : Schema.t) (other : string) :
  plain_name (Schema.name schema) = true →
  plain_name other = true →
  other ≠ Schema.name schema →
  (let st1 := snd (create_schema json_dumps sha256_hexdigest utcnow st schema) in
   get_schema st1 other = get_schema st other
   ∧ schema_exists st1 other = schema_exists st other
   ∧ versions st1 !! version_file other = versions st !! version_file other
   ∧ governance st1 !! governance_file other = governance st !! governance_file other
   ∧ migrations st1 = migrations st)
  ∧ (∀ version_info,
      plain_name (SchemaVersion.version version_info) = true →
      let st2 := store_after (update_schema json_dumps sha256_hexdigest utcnow st
                                            schema version_info) in
      get_schema st2 other = get_schema st other
      ∧ schema_exists st2 other = schema_exists st other
      ∧ versions st2 !! version_file other = versions st !! version_file other
      ∧ governance st2 = governance st).
Proof.
  intros _ _ Hne.
  assert (definition_file other ≠ definition_file (Schema.name schema)) as Hd
      by (intros Heq; by apply Hne, (append_inj_l _ _ ".json")).
  assert (version_file other ≠ version_file (Schema.name schema)) as Hv
      by (intros Heq; by apply Hne, (append_inj_l _ _ "_versions.json")).
  assert (governance_file other ≠ governance_file (Schema.name schema)) as Hg
      by (intros Heq; by apply Hne, (append_inj_l _ _ "_governance.json")).
  split.
  - cbv zeta. unfold create_schema.
    destruct (negb (valid (validate_schema schema))); [done|].
    destruct (schema_exists st (Schema.name schema)); [done|].
    cbn [snd definitions versions governance migrations].
    split_and!.
    + apply get_schema_frame. cbn [definitions]. by rewrite lookup_insert_ne.
    + apply get_schema_frame. cbn [definitions]. by rewrite lookup_insert_ne.
    + by apply save_version_other.
    + unfold _create_governance_record. by rewrite lookup_insert_ne.
    + done.
  - intros version_info _. cbv zeta. unfold update_schema.
    destruct (negb (schema_exists st (Schema.name schema))); [done|].
    destruct (get_schema st (Schema.name schema)) as [current_schema|]; [|done].
    destruct (negb (valid (validate_schema schema))); [done|].
    destruct (SchemaVersion.breaking_changes _);
      [destruct (_generate_migration _ _ _ _ _ _)|];
      cbn [store_after definitions versions governance];
      (split_and!;
       [ apply get_schema_frame; cbn [definitions]; by rewrite lookup_insert_ne
       | apply get_schema_frame; cbn [definitions]; by rewrite lookup_insert_ne
       | by apply save_version_other
       | done ]).
Qed.

Lemma other_schemas_untouched_witness :
  let r := update_schema json_text plain_digest (fixed_clock "2024-06-01T09:00:00")
                         events_store events_v2 events_v2_info in
  updated r = false
  ∧ store_after r ≠ events_store
  ∧ get_schema (store_after r) "orders" = None
  ∧ versions (store_after r) !! version_file "orders" = None.
Proof.
  cbv zeta.
  destruct (proj2 (other_schemas_untouched json_text plain_digest
                     (fixed_clock "2024-06-01T09:00:00") events_store events_v2
                     "orders" eq_refl eq_refl ltac:(discriminate))
              events_v2_info eq_refl)
    as (Hget & _ & Hver & _).
  split; [reflexivity|]. split.
  - intros Heq. apply (f_equal (fun s => versions s !! version_file "events")) in Heq.
    vm_compute in Heq. discriminate Heq.
  - split; [rewrite Hget; reflexivity | rewrite Hver; reflexivity].
Defined.
